(** * Amplify Data API MCP server: a shallow embedding and its properties

    The development follows the stdio server of the repository: the
    session globals, the authenticated GraphQL executor with its refresh
    path, the schema formatter and the tool handlers.  JavaScript values are modelled as far as the code
    looks at them: strings with their truthiness, objects as ordered
    property lists that inherit from [Object.prototype], exceptions as
    thrown values. *)

From Stdlib Require Import String Ascii List Arith Bool Lia DecimalString.
Import ListNotations.
Open Scope string_scope.

(** ** JavaScript prelude *)

Module Js.

(** A thrown value is either an [Error] instance (with its message) or
    some other value, of which only its [String(...)] rendering is
    ever used. *)
Inductive Thrown : Type :=
| Error (message : string)
| NonError (rendered : string).

(** [error instanceof Error ? error.message : String(error)] *)
Definition describe (error : Thrown) : string :=
  match error with
  | Error message => message
  | NonError rendered => rendered
  end.

(** Result of running a synchronous piece of code. *)
Inductive Completion (A : Type) : Type :=
| Return (a : A)
| Throw (e : Thrown).
Arguments Return {A} a.
Arguments Throw {A} e.

Definition LF : string := String "010"%char EmptyString.

(** Truthiness of a string, and of a string that may be [null] or
    [undefined]. *)
Definition truthy (s : string) : bool := negb (s =? "").

Definition truthy_opt (o : option string) : bool :=
  match o with
  | Some s => truthy s
  | None => false
  end.

(** [a || b] on possibly-null strings. *)
Definition or_else (a b : option string) : option string :=
  if truthy_opt a then a else b.

(** [s.includes(needle)] *)
Definition includes (s needle : string) : bool :=
  match String.index 0 needle s with
  | Some _ => true
  | None => false
  end.

(** [${n}] for a non-negative integer. *)
Definition show_nat (n : nat) : string :=
  NilZero.string_of_uint (Nat.to_uint n).

(** [xs.join(sep)] on an array of strings. *)
Definition join (sep : string) (xs : list string) : string :=
  String.concat sep xs.

(** [xs.filter(Boolean)] on an array of strings and nulls. *)
Fixpoint filter_Boolean (xs : list (option string)) : list string :=
  match xs with
  | [] => []
  | Some s :: rest =>
      if truthy s then s :: filter_Boolean rest else filter_Boolean rest
  | None :: rest => filter_Boolean rest
  end.

(** A plain object (as [JSON.parse] builds them): its own properties
    in [Object.entries] order.  Property reads fall through to
    [Object.prototype]. *)
Definition Object (V : Type) : Type := list (string * V).

Definition object_prototype_keys : list string :=
  [ "constructor"; "__defineGetter__"; "__defineSetter__";
    "hasOwnProperty"; "__lookupGetter__"; "__lookupSetter__";
    "isPrototypeOf"; "propertyIsEnumerable"; "toString"; "valueOf";
    "__proto__"; "toLocaleString" ].

Definition on_prototype (key : string) : bool :=
  existsb (String.eqb key) object_prototype_keys.

(** What [obj[key]] evaluates to: an own property, a member of
    [Object.prototype] (a function, or the prototype itself; truthy,
    and without any property the code asks for), or [undefined]. *)
Inductive Property (V : Type) : Type :=
| Own (v : V)
| Inherited
| Undefined.
Arguments Own {V} v.
Arguments Inherited {V}.
Arguments Undefined {V}.

Fixpoint get_own {V : Type} (obj : Object V) (key : string) : option V :=
  match obj with
  | [] => None
  | (k, v) :: rest => if k =? key then Some v else get_own rest key
  end.

Definition get {V : Type} (obj : Object V) (key : string) : Property V :=
  match get_own obj key with
  | Some v => Own v
  | None => if on_prototype key then Inherited else Undefined
  end.

Definition entries {V : Type} (obj : Object V) : list (string * V) := obj.

Definition keys {V : Type} (obj : Object V) : list string := map fst obj.

(** [Object.entries(undefined)] *)
Definition entries_of_undefined : Thrown :=
  Error "Cannot convert undefined or null to object".

End Js.

Import Js.

(** ** The model-introspection document *)

(** [field.type] is a bare scalar name or an object tagging a model, an
    enum or a non-model type. *)
Inductive FieldType : Type :=
| Scalar (name : string)
| ModelRef (model : string)
| EnumRef (enum : string)
| NonModelRef (nonModel : string).

Record Association : Type := {
  connectionType : string;
  associatedWith : option (list string);
  targetNames : option (list string)
}.

Record Field : Type := {
  type : FieldType;
  isRequired : bool;
  isArray : bool;
  isReadOnly : bool;
  association : option Association
}.

Record Rule : Type := {
  provider : option string;
  allow : string;
  operations : list string
}.

(** [attr.type] and [attr.properties.rules]. *)
Record Attribute : Type := {
  attr_type : string;
  rules : list Rule
}.

Record Model : Type := {
  fields : Js.Object Field;
  attributes : list Attribute
}.

Record Enum : Type := {
  values : list string
}.

(** [field.type.model] and [field.type.enum] *)
Definition type_model (t : FieldType) : option string :=
  match t with
  | ModelRef model => Some model
  | _ => None
  end.

Definition type_enum (t : FieldType) : option string :=
  match t with
  | EnumRef enum => Some enum
  | _ => None
  end.

(** [`${field.type}`] *)
Definition type_to_string (t : FieldType) : string :=
  match t with
  | Scalar name => name
  | _ => "[object Object]"
  end.

(** [`${x}`] for a string that may be [undefined]. *)
Definition show_opt (o : option string) : string :=
  match o with
  | Some s => s
  | None => "undefined"
  end.

(** ** Tool results *)

Record Content : Type := {
  content_type : string;
  text : string
}.

Record ToolResult : Type := {
  content : list Content
}.

(** [{ content: [{ type: "text", text }] }] *)
Definition text_result (s : string) : ToolResult :=
  {| content := [ {| content_type := "text"; text := s |} ] |}.

(** ** Schema formatter and its tool handlers *)

Section Formatter.

(** [amplifyOutputs.data.model_introspection.models] and [.enums] *)
Variable models : Js.Object Model.
Variable enums : Js.Object Enum.

(** The callback of the [map] in [generateGraphQLFields]: [None] is
    the callback's [null]. *)
Definition selection_of (depth : nat) (entry : string * Field)
  : option string :=
  let '(fieldName, field) := entry in
  if isReadOnly field then None
  else if negb (truthy_opt (type_model (type field)))
          && negb (truthy_opt (type_enum (type field)))
  then Some fieldName
  else if truthy_opt (type_enum (type field)) then Some fieldName
  else if truthy_opt (type_model (type field)) then
    if (1 <=? depth)%nat || isArray field then None
    else Some (fieldName ++ " { id name }")
  else None.

Definition generateGraphQLFields (modelName : string) (depth : nat)
  : Completion string :=
  if (1 <? depth)%nat then Return "id"
  else
    match Js.get models modelName with
    | Undefined => Return "id"
    | Inherited => Throw entries_of_undefined
    | Own model =>
        let fields :=
          filter_Boolean (map (selection_of depth) (entries (fields model)))
        in
        Return (join LF fields)
    end.

(** The [typeInfo] of [list-models] and [get-model-details]. *)
Definition typeInfo (field : Field) : string :=
  match type_model (type field), type_enum (type field) with
  | Some model, _ =>
      if truthy model then model ++ " (model)"
      else type_to_string (type field)
  | None, Some enum =>
      if truthy enum then enum ++ " (enum)"
      else type_to_string (type field)
  | None, None => type_to_string (type field)
  end.

Definition list_models_field (entry : string * Field) : string :=
  let '(fieldName, field) := entry in
  "  - " ++ fieldName ++ ": " ++ typeInfo field
    ++ (if isRequired field then " (required)" else "")
    ++ (if isArray field then " (array)" else "").

Definition list_models_model (entry : string * Model) : string :=
  let '(name, model) := entry in
  let fields := join LF (map list_models_field (entries (fields model))) in
  "Model: " ++ name ++ LF ++ "Fields:" ++ LF ++ fields.

(** Tool [list-models] *)
Definition list_models : Completion ToolResult :=
  if (length (keys models) =? 0)%nat
  then Return (text_result "No data models found in the Amplify outputs file")
  else
    let modelDetailsArray := map list_models_model (entries models) in
    Return (text_result
              ("Data Models:" ++ LF ++ LF
                 ++ join (LF ++ LF) modelDetailsArray)).

Definition list_enums_enum (entry : string * Enum) : string :=
  let '(name, enumType) := entry in
  let values := join LF (map (fun value => "  - " ++ value) (values enumType)) in
  "Enum: " ++ name ++ LF ++ "Values:" ++ LF ++ values.

(** Tool [list-enums] *)
Definition list_enums : Completion ToolResult :=
  if (length (keys enums) =? 0)%nat
  then Return (text_result "No enum types found in the Amplify outputs file")
  else
    let enumDetailsArray := map list_enums_enum (entries enums) in
    Return (text_result
              ("Enum Types:" ++ LF ++ LF
                 ++ join (LF ++ LF) enumDetailsArray)).

Definition not_found_message (modelName : string) : string :=
  "Model '" ++ modelName
    ++ "' not found. Use list-models to see available models.".

Definition model_details_field (entry : string * Field) : string :=
  let '(fieldName, field) := entry in
  let relationshipInfo :=
    match association field with
    | Some assoc =>
        (LF ++ "    Association: " ++ connectionType assoc)
          ++ match targetNames assoc with
             | Some names =>
                 LF ++ "    Target fields: " ++ join ", " names
             | None => ""
             end
    | None => ""
    end in
  "  - " ++ fieldName ++ ":" ++ LF ++ "    Type: " ++ typeInfo field
    ++ (if isRequired field then LF ++ "    Required: Yes" else "")
    ++ (if isArray field then LF ++ "    Array: Yes" else "")
    ++ relationshipInfo.

Definition model_details_rule (rule : Rule) : string :=
  "  - Provider: " ++ show_opt (provider rule) ++ LF
    ++ "    Allow: " ++ allow rule ++ LF
    ++ "    Operations: " ++ join ", " (operations rule).

(** Tool [get-model-details] *)
Definition get_model_details (modelName : string) : Completion ToolResult :=
  match Js.get models modelName with
  | Undefined => Return (text_result (not_found_message modelName))
  | Inherited => Throw entries_of_undefined
  | Own model =>
      let fields :=
        join (LF ++ LF) (map model_details_field (entries (fields model))) in
      let authRules :=
        join (LF ++ LF)
          (flat_map (fun attr => map model_details_rule (rules attr))
             (filter (fun attr => attr_type attr =? "auth")
                (attributes model))) in
      Return (text_result
                ("Model: " ++ modelName ++ LF ++ LF ++ "Fields:" ++ LF
                   ++ fields ++ LF ++ LF ++ "Authorization Rules:" ++ LF
                   ++ authRules))
  end.

Record Relationship : Type := {
  rel_fieldName : string;
  rel_type : option string;
  relationshipType : string;
  rel_associatedWith : string;
  rel_targetNames : string
}.

(** [names?.join(", ") || "N/A"] *)
Definition join_or_NA (names : option (list string)) : string :=
  match names with
  | Some l => if truthy (join ", " l) then join ", " l else "N/A"
  | None => "N/A"
  end.

(** The [relationships] array of [get-relationships]: the fields with
    an [association], in order. *)
Fixpoint relationships_of (entries : list (string * Field))
  : list Relationship :=
  match entries with
  | [] => []
  | (fieldName, field) :: rest =>
      match association field with
      | Some assoc =>
          {| rel_fieldName := fieldName;
             rel_type := type_model (type field);
             relationshipType := connectionType assoc;
             rel_associatedWith := join_or_NA (associatedWith assoc);
             rel_targetNames := join_or_NA (targetNames assoc) |}
            :: relationships_of rest
      | None => relationships_of rest
      end
  end.

Definition relationship_text (rel : Relationship) : string :=
  "Field: " ++ rel_fieldName rel ++ LF
    ++ "Type: " ++ show_opt (rel_type rel) ++ LF
    ++ "Relationship: " ++ relationshipType rel ++ LF
    ++ "Associated With: " ++ rel_associatedWith rel ++ LF
    ++ "Target Names: " ++ rel_targetNames rel.

(** Tool [get-relationships] *)
Definition get_relationships (modelName : string) : Completion ToolResult :=
  match Js.get models modelName with
  | Undefined => Return (text_result (not_found_message modelName))
  | Inherited => Throw entries_of_undefined
  | Own model =>
      let relationships := relationships_of (entries (fields model)) in
      if (length relationships =? 0)%nat
      then Return (text_result
                     ("No relationships found for model: " ++ modelName))
      else
        let relationshipText :=
          join (LF ++ LF) (map relationship_text relationships) in
        Return (text_result
                  ("Relationships for " ++ modelName ++ ":" ++ LF ++ LF
                     ++ relationshipText))
  end.

End Formatter.

(** ** JSON values and [JSON.parse] *)

(** Numbers keep their lexeme: the server never computes with them. *)
#[local] Set Warnings "-register-all".
Inductive Json : Type :=
| JNull
| JBool (b : bool)
| JNumber (lexeme : string)
| JString (s : string)
| JArray (items : list Json)
| JObject (members : list (string * Json)).

Module JsonParser.

Definition is_ws (c : ascii) : bool :=
  let n := nat_of_ascii c in
  ((n =? 32) || (n =? 9) || (n =? 10) || (n =? 13))%nat.

Fixpoint skip_ws (s : string) : string :=
  match s with
  | String c rest => if is_ws c then skip_ws rest else s
  | EmptyString => s
  end.

(** [expect lit s]: the rest of [s] after the literal [lit]. *)
Fixpoint expect (lit s : string) : option string :=
  match lit, s with
  | EmptyString, _ => Some s
  | String a lit', String b s' =>
      if Ascii.eqb a b then expect lit' s' else None
  | String _ _, EmptyString => None
  end.

Definition is_digit (c : ascii) : bool :=
  let n := nat_of_ascii c in ((48 <=? n) && (n <=? 57))%nat.

Definition hex_value (c : ascii) : option nat :=
  let n := nat_of_ascii c in
  if ((48 <=? n) && (n <=? 57))%nat then Some (n - 48)
  else if ((65 <=? n) && (n <=? 70))%nat then Some (n - 55)
  else if ((97 <=? n) && (n <=? 102))%nat then Some (n - 87)
  else None.

(** UTF-8 bytes of a UTF-16 code unit (a lone surrogate is encoded like
    any other three-byte unit). *)
Definition utf8_of_unit (u : nat) : string :=
  if (u <? 128)%nat then String (ascii_of_nat u) EmptyString
  else if (u <? 2048)%nat then
    String (ascii_of_nat (192 + u / 64))
      (String (ascii_of_nat (128 + u mod 64)) EmptyString)
  else
    String (ascii_of_nat (224 + u / 4096))
      (String (ascii_of_nat (128 + (u / 64) mod 64))
         (String (ascii_of_nat (128 + u mod 64)) EmptyString)).

(** The longest run of digits at the head of [s], and what follows. *)
Fixpoint digits (s : string) : string * string :=
  match s with
  | String c rest =>
      if is_digit c then let '(ds, r) := digits rest in (String c ds, r)
      else (EmptyString, s)
  | EmptyString => (EmptyString, s)
  end.

Definition digits1 (s : string) : option (string * string) :=
  match digits s with
  | (EmptyString, _) => None
  | (ds, rest) => Some (ds, rest)
  end.

(** An optional minus sign, an integer part without leading zero, an
    optional fraction and an optional exponent. *)
Definition parse_number (s : string) : option (string * string) :=
  let '(sign, s1) :=
    match expect "-" s with
    | Some r => ("-", r)
    | None => ("", s)
    end in
  match
    match s1 with
    | String c rest =>
        if Ascii.eqb c "0"%char then Some ("0", rest) else digits1 s1
    | EmptyString => None
    end
  with
  | None => None
  | Some (int, s2) =>
      match
        match expect "." s2 with
        | Some r =>
            match digits1 r with
            | Some (ds, r') => Some ("." ++ ds, r')
            | None => None
            end
        | None => Some ("", s2)
        end
      with
      | None => None
      | Some (frac, s3) =>
          match s3 with
          | String e rest =>
              if Ascii.eqb e "e"%char || Ascii.eqb e "E"%char then
                let '(esign, s4) :=
                  match rest with
                  | String g rest' =>
                      if Ascii.eqb g "+"%char || Ascii.eqb g "-"%char
                      then (String g EmptyString, rest')
                      else ("", rest)
                  | EmptyString => ("", rest)
                  end in
                match digits1 s4 with
                | Some (ds, r') =>
                    Some (sign ++ int ++ frac ++ String e esign ++ ds, r')
                | None => None
                end
              else Some (sign ++ int ++ frac, s3)
          | EmptyString => Some (sign ++ int ++ frac, s3)
          end
      end
  end.

(** The character an escape letter stands for: quote, backslash and
    slash for themselves, then b, f, n, r and t. *)
Definition escape (c : ascii) : option ascii :=
  let n := nat_of_ascii c in
  if (n =? 34)%nat then Some c
  else if (n =? 92)%nat then Some c
  else if (n =? 47)%nat then Some c
  else if (n =? 98)%nat then Some (ascii_of_nat 8)
  else if (n =? 102)%nat then Some (ascii_of_nat 12)
  else if (n =? 110)%nat then Some (ascii_of_nat 10)
  else if (n =? 114)%nat then Some (ascii_of_nat 13)
  else if (n =? 116)%nat then Some (ascii_of_nat 9)
  else None.

(** The characters of a string literal after its opening quote, up to
    and including the closing quote. *)
Fixpoint string_chars (s : string) : option (string * string) :=
  match s with
  | EmptyString => None
  | String c rest =>
      let n := nat_of_ascii c in
      if (n =? 34)%nat then Some (EmptyString, rest)
      else if (n <? 32)%nat then None
      else if (n =? 92)%nat then
        match rest with
        | String e rest' =>
            if (nat_of_ascii e =? 117)%nat then
              match rest' with
              | String h1 (String h2 (String h3 (String h4 rest4))) =>
                  match hex_value h1, hex_value h2, hex_value h3,
                        hex_value h4, string_chars rest4 with
                  | Some a, Some b, Some c', Some d, Some (str, r) =>
                      Some (utf8_of_unit (((a * 16 + b) * 16 + c') * 16 + d)
                              ++ str, r)
                  | _, _, _, _, _ => None
                  end
              | _ => None
              end
            else
              match escape e, string_chars rest' with
              | Some x, Some (str, r) => Some (String x str, r)
              | _, _ => None
              end
        | EmptyString => None
        end
      else
        match string_chars rest with
        | Some (str, r) => Some (String c str, r)
        | None => None
        end
  end.

Fixpoint value (fuel : nat) (s : string) : option (Json * string) :=
  match fuel with
  | 0 => None
  | S fuel =>
      match skip_ws s with
      | EmptyString => None
      | String c rest =>
          let n := nat_of_ascii c in
          if (n =? 110)%nat then
            option_map (pair JNull) (expect "null" (String c rest))
          else if (n =? 116)%nat then
            option_map (pair (JBool true)) (expect "true" (String c rest))
          else if (n =? 102)%nat then
            option_map (pair (JBool false)) (expect "false" (String c rest))
          else if (n =? 34)%nat then
            match string_chars rest with
            | Some (str, r) => Some (JString str, r)
            | None => None
            end
          else if (n =? 91)%nat then
            match skip_ws rest with
            | String d r =>
                if (nat_of_ascii d =? 93)%nat then Some (JArray [], r)
                else elements fuel rest []
            | EmptyString => None
            end
          else if (n =? 123)%nat then
            match skip_ws rest with
            | String d r =>
                if (nat_of_ascii d =? 125)%nat then Some (JObject [], r)
                else members fuel rest []
            | EmptyString => None
            end
          else
            match parse_number (String c rest) with
            | Some (lexeme, r) => Some (JNumber lexeme, r)
            | None => None
            end
      end
  end
with elements (fuel : nat) (s : string) (acc : list Json)
  : option (Json * string) :=
  match fuel with
  | 0 => None
  | S fuel =>
      match value fuel s with
      | Some (v, r) =>
          match skip_ws r with
          | String d r' =>
              if (nat_of_ascii d =? 44)%nat then elements fuel r' (v :: acc)
              else if (nat_of_ascii d =? 93)%nat
                   then Some (JArray (rev (v :: acc)), r')
                   else None
          | EmptyString => None
          end
      | None => None
      end
  end
with members (fuel : nat) (s : string) (acc : list (string * Json))
  : option (Json * string) :=
  match fuel with
  | 0 => None
  | S fuel =>
      match skip_ws s with
      | String q r0 =>
          if (nat_of_ascii q =? 34)%nat then
            match string_chars r0 with
            | Some (key, r1) =>
                match skip_ws r1 with
                | String colon r2 =>
                    if (nat_of_ascii colon =? 58)%nat then
                      match value fuel r2 with
                      | Some (v, r3) =>
                          match skip_ws r3 with
                          | String d r4 =>
                              if (nat_of_ascii d =? 44)%nat
                              then members fuel r4 ((key, v) :: acc)
                              else if (nat_of_ascii d =? 125)%nat
                                   then Some (JObject (rev ((key, v) :: acc)), r4)
                                   else None
                          | EmptyString => None
                          end
                      | None => None
                      end
                    else None
                | EmptyString => None
                end
            | None => None
            end
          else None
      | EmptyString => None
      end
  end.

(** A whole text: one value, surrounded by white space only. *)
Definition parse (s : string) : option Json :=
  match value (2 * String.length s + 4) s with
  | Some (v, rest) =>
      match skip_ws rest with
      | EmptyString => Some v
      | String _ _ => None
      end
  | None => None
  end.

End JsonParser.

(** ** Upstream responses *)

(** One entry of the [errors] array of a GraphQL response. *)
Record GraphQLError : Type := {
  errorType : option string;
  message : option string
}.

(** The body of a response, as [response.json()] yields it: GraphQL
    gives it a [data] member and, when something went wrong, an [errors]
    array of objects whose [errorType] and [message] are strings when
    present. *)
Record GraphQLResult : Type := {
  data : Json;
  errors : option (list GraphQLError)
}.

(** What the executor reads of a [fetch] response: its status and what
    [response.json()] settles to. *)
Record Response : Type := {
  status : nat;
  json : Completion GraphQLResult
}.

(** [response.ok] *)
Definition ok (response : Response) : bool :=
  ((200 <=? status response) && (status response <=? 299))%nat.

(** [e.message?.includes(needle)] *)
Definition message_includes (e : GraphQLError) (needle : string) : bool :=
  match message e with
  | Some m => includes m needle
  | None => false
  end.

(** The callback of [result.errors.some(...)]. *)
Definition is_auth_error (e : GraphQLError) : bool :=
  match errorType e with
  | Some t => t =? "UnauthorizedException"
  | None => false
  end
  || message_includes e "Authentication failed"
  || message_includes e "token is expired".

(** [result.errors && result.errors.some(...)] *)
Definition has_auth_error (result : GraphQLResult) : bool :=
  match errors result with
  | Some es => existsb is_auth_error es
  | None => false
  end.

(** ** The runtime, the configuration and the session globals *)

(** What a run leaves behind: the calls that leave the process, and a
    mark for each call of [handleAuthRefresh].  [authorization] is the
    value of the [Authorization] header, if the header is set. *)
Inductive Event : Type :=
| EvFetch (authorization : option string) (query : string) (variables : Json)
| EvRefresh
| EvCurrentSession
| EvSignIn (username password : string)
| EvCurrentUserInfo.

(** The collaborators of the server: the endpoint behind [fetch], the
    identity provider behind [Auth], and the engine's JSON functions.
    [World] is whatever state they keep; every call may change it.
    [Auth_currentSession] stands for [Auth.currentSession()] followed by
    [getIdToken().getJwtToken()]. *)
Record Runtime (World User : Type) : Type := {
  fetch : option string -> string -> Json -> World
          -> Completion Response * World;
  Auth_currentSession : World -> Completion string * World;
  Auth_signIn : string -> string -> World -> Completion User * World;
  Auth_currentUserInfo : World -> Completion Json * World;
  JSON_stringify : Json -> string;
  JSON_stringify_result : GraphQLResult -> string;
  syntax_error_message : string -> string
}.
Arguments fetch {World User} _ _ _ _ _.
Arguments Auth_currentSession {World User} _ _.
Arguments Auth_signIn {World User} _ _ _ _.
Arguments Auth_currentUserInfo {World User} _ _.
Arguments JSON_stringify {World User} _ _.
Arguments JSON_stringify_result {World User} _ _.
Arguments syntax_error_message {World User} _ _.

(** What start-up fixes once and for all: whether Cognito was
    configured, and the credentials of the environment
    ([AMPLIFY_USERNAME], [AMPLIFY_PASSWORD]). *)
Record Config : Type := {
  isAuthInitialized : bool;
  username : option string;
  password : option string
}.

(** The four module-level variables. *)
Record Session (User : Type) : Type := {
  currentUser : option User;
  idToken : option string;
  storedUsername : option string;
  storedPassword : option string
}.
Arguments currentUser {User} _.
Arguments idToken {User} _.
Arguments storedUsername {User} _.
Arguments storedPassword {User} _.
Arguments Build_Session {User} _ _ _ _.

Record State (World User : Type) : Type := {
  session : Session User;
  world : World;
  trace : list Event
}.
Arguments session {World User} _.
Arguments world {World User} _.
Arguments trace {World User} _.
Arguments Build_State {World User} _ _ _.

(** How a promise ends: fulfilled, rejected, or never settled within the
    steps allowed. *)
Inductive Outcome (A : Type) : Type :=
| Resolved (a : A)
| Rejected (e : Thrown)
| Pending.
Arguments Resolved {A} a.
Arguments Rejected {A} e.
Arguments Pending {A}.

(** ** Asynchronous code over the state *)

Module Async.
Section Monad.
Context {World User : Type}.

Definition M (A : Type) : Type :=
  State World User -> Outcome A * State World User.

Definition ret {A} (a : A) : M A := fun st => (Resolved a, st).

Definition throw {A} (e : Thrown) : M A := fun st => (Rejected e, st).

Definition pending {A} : M A := fun st => (Pending, st).

Definition bind {A B} (m : M A) (k : A -> M B) : M B :=
  fun st =>
    match m st with
    | (Resolved a, st') => k a st'
    | (Rejected e, st') => (Rejected e, st')
    | (Pending, st') => (Pending, st')
    end.

(** [try { m } catch (e) { handler e }] *)
Definition try_catch {A} (m : M A) (handler : Thrown -> M A) : M A :=
  fun st =>
    match m st with
    | (Rejected e, st') => handler e st'
    | settled => settled
    end.

Definition emit (ev : Event) : M unit :=
  fun st =>
    (Resolved tt,
     {| session := session st; world := world st;
        trace := trace st ++ [ev] |}).

(** A call to a collaborator: logged, then settled by the world. *)
Definition call {A} (ev : Event) (f : World -> Completion A * World) : M A :=
  fun st =>
    let '(r, w) := f (world st) in
    let st' := {| session := session st; world := w;
                  trace := trace st ++ [ev] |} in
    match r with
    | Return a => (Resolved a, st')
    | Throw e => (Rejected e, st')
    end.

(** [await] of something already computed. *)
Definition settle {A} (c : Completion A) : M A :=
  match c with
  | Return a => ret a
  | Throw e => throw e
  end.

Definition read {A} (f : Session User -> A) : M A :=
  fun st => (Resolved (f (session st)), st).

Definition modify (f : Session User -> Session User) : M unit :=
  fun st =>
    (Resolved tt,
     {| session := f (session st); world := world st; trace := trace st |}).

End Monad.
End Async.

Import Async.

Declare Scope async_scope.
Delimit Scope async_scope with async.
Notation "x <- m ;; k" := (bind m (fun x => k))
  (at level 61, m at next level, right associativity) : async_scope.
Notation "m ;; k" := (bind m (fun _ => k))
  (at level 61, right associativity) : async_scope.
Open Scope async_scope.

Definition set_currentUser {User} (user : User) (s : Session User)
  : Session User :=
  {| currentUser := Some user; idToken := idToken s;
     storedUsername := storedUsername s; storedPassword := storedPassword s |}.

Definition set_idToken {User} (token : string) (s : Session User)
  : Session User :=
  {| currentUser := currentUser s; idToken := Some token;
     storedUsername := storedUsername s; storedPassword := storedPassword s |}.

Definition set_storedUsername {User} (u : string) (s : Session User)
  : Session User :=
  {| currentUser := currentUser s; idToken := idToken s;
     storedUsername := Some u; storedPassword := storedPassword s |}.

Definition set_storedPassword {User} (p : string) (s : Session User)
  : Session User :=
  {| currentUser := currentUser s; idToken := idToken s;
     storedUsername := storedUsername s; storedPassword := Some p |}.

(** ** The authenticated executor, the refresh path and the stateful tools *)

Section Server.
Context {World User : Type}.
Variable rt : Runtime World User.
Variable cfg : Config.

Let M := @Async.M World User.

(** [JSON.parse(text)] *)
Definition JSON_parse (text : string) : Completion Json :=
  match JsonParser.parse text with
  | Some v => Return v
  | None => Throw (Error (syntax_error_message rt text))
  end.

(** The header object: [Authorization] is set when [idToken] is truthy. *)
Definition authorization_header (token : option string) : option string :=
  if truthy_opt token then token else None.

(** The body of the first [try] of [handleAuthRefresh], up to the retry:
    the session is asked for twice, the second answer gives the token. *)
Definition refresh_session : M unit :=
  _ <- call EvCurrentSession (Auth_currentSession rt) ;;
  token <- call EvCurrentSession (Auth_currentSession rt) ;;
  modify (set_idToken token).

(** The body of the [catch (refreshError)] block, up to the retry. *)
Definition relogin : M unit :=
  su <- read storedUsername ;;
  sp <- read storedPassword ;;
  let loginUsername := or_else su (username cfg) in
  let loginPassword := or_else sp (password cfg) in
  match loginUsername, loginPassword with
  | Some u, Some p =>
      if truthy u && truthy p then
        try_catch
          (user <- call (EvSignIn u p) (Auth_signIn rt u p) ;;
           modify (set_currentUser user) ;;
           token <- call EvCurrentSession (Auth_currentSession rt) ;;
           modify (set_idToken token))
          (fun loginError =>
             throw (Error "Authentication expired and automatic re-login failed"))
      else
        throw (Error "Authentication expired and no stored credentials for re-login")
  | _, _ =>
      throw (Error "Authentication expired and no stored credentials for re-login")
  end.

(** [executeGraphQLQuery] and [handleAuthRefresh] call each other; [fuel]
    bounds the number of calls.  The retry of [handleAuthRefresh] is
    returned without [await], so its rejection passes by both [catch]
    blocks: it runs after them. *)
Fixpoint executeGraphQLQuery (fuel : nat) (query : string) (variables : Json)
  : M GraphQLResult :=
  match fuel with
  | 0 => pending
  | S fuel =>
      token <- read idToken ;;
      response <- call (EvFetch (authorization_header token) query variables)
                    (fetch rt (authorization_header token) query variables) ;;
      if (status response =? 401)%nat then
        handleAuthRefresh fuel query variables
      else if negb (ok response) then
        throw (Error ("HTTP error! status: " ++ show_nat (status response)))
      else
        result <- settle (json response) ;;
        if has_auth_error result then
          handleAuthRefresh fuel query variables
        else ret result
  end
with handleAuthRefresh (fuel : nat) (query : string) (variables : Json)
  : M GraphQLResult :=
  match fuel with
  | 0 => pending
  | S fuel =>
      emit EvRefresh ;;
      if isAuthInitialized cfg then
        try_catch refresh_session (fun refreshError => relogin) ;;
        executeGraphQLQuery fuel query variables
      else
        throw (Error "Authentication system not initialized")
  end.

(** Tool [login] *)
Definition login (username password : string) : M ToolResult :=
  if negb (isAuthInitialized cfg) then
    ret (text_result "Error: Cognito authentication is not configured")
  else
    try_catch
      (user <- call (EvSignIn username password)
                 (Auth_signIn rt username password) ;;
       modify (set_currentUser user) ;;
       token <- call EvCurrentSession (Auth_currentSession rt) ;;
       modify (set_idToken token) ;;
       modify (set_storedUsername username) ;;
       modify (set_storedPassword password) ;;
       ret (text_result ("Successfully logged in as " ++ username)))
      (fun error => ret (text_result ("Login failed: " ++ describe error))).

(** Tool [get-current-user] *)
Definition get_current_user : M ToolResult :=
  user <- read currentUser ;;
  match user with
  | None =>
      ret (text_result
             "Not logged in. Use the login tool to authenticate first.")
  | Some _ =>
      try_catch
        (userInfo <- call EvCurrentUserInfo (Auth_currentUserInfo rt) ;;
         ret (text_result
                ("Current User:" ++ LF ++ JSON_stringify rt userInfo)))
        (fun error =>
           ret (text_result ("Error getting user info: " ++ describe error)))
  end.

(** Tool [run-graphql]; [variables] is optional. *)
Definition run_graphql (fuel : nat) (query : string)
  (variables : option string) : M ToolResult :=
  match
    match variables with
    | Some text => if truthy text then JSON_parse text else Return (JObject [])
    | None => Return (JObject [])
    end
  with
  | Throw e =>
      ret (text_result ("Invalid JSON variables: " ++ describe e))
  | Return variablesObj =>
      try_catch
        (result <- executeGraphQLQuery fuel query variablesObj ;;
         ret (text_result
                ("Query Result:" ++ LF ++ LF ++ JSON_stringify_result rt result)))
        (fun error =>
           ret (text_result
                  ("Error executing GraphQL query: " ++ describe error)))
  end.

(** The automatic login of [main]. *)
Definition main : M unit :=
  match username cfg, password cfg with
  | Some u, Some p =>
      if isAuthInitialized cfg && truthy u && truthy p then
        try_catch
          (user <- call (EvSignIn u p) (Auth_signIn rt u p) ;;
           modify (set_currentUser user) ;;
           token <- call EvCurrentSession (Auth_currentSession rt) ;;
           modify (set_idToken token) ;;
           modify (set_storedUsername u) ;;
           modify (set_storedPassword p))
          (fun error => ret tt)
      else ret tt
  | _, _ => ret tt
  end.

End Server.

(** ** Descriptor sets and runtimes used in examples *)

Module Examples.

Definition scalar (name : string) (required : bool) : Field :=
  {| type := Scalar name; isRequired := required; isArray := false;
     isReadOnly := false; association := None |}.

(** The two-model descriptor set of the specification, as it is written
    there: [character] is a singular reference to [Character] and carries
    no association. *)
Definition Character : Model :=
  {| fields := [ ("id", scalar "ID" true); ("name", scalar "String" true) ];
     attributes := [] |}.

Definition character_field (assoc : option Association) : Field :=
  {| type := ModelRef "Character"; isRequired := false; isArray := false;
     isReadOnly := false; association := assoc |}.

Definition Story (assoc : option Association) : Model :=
  {| fields := [ ("id", scalar "ID" true); ("title", scalar "String" true);
                 ("character", character_field assoc) ];
     attributes := [] |}.

Definition story_models (assoc : option Association) : Js.Object Model :=
  [ ("Story", Story assoc); ("Character", Character) ].

(** The association Amplify generates for such a field. *)
Definition belongs_to : Association :=
  {| connectionType := "BELONGS_TO"; associatedWith := None;
     targetNames := Some ["characterId"] |}.

(** A model with every kind of field the selection-set generator
    distinguishes. *)
Definition Author : Model :=
  {| fields :=
       [ ("id", scalar "ID" true);
         ("status", {| type := EnumRef "Status"; isRequired := false;
                       isArray := false; isReadOnly := false;
                       association := None |});
         ("stories", {| type := ModelRef "Story"; isRequired := false;
                        isArray := true; isReadOnly := false;
                        association := None |});
         ("mentor", {| type := ModelRef "Author"; isRequired := false;
                       isArray := false; isReadOnly := false;
                       association := None |});
         ("createdAt", {| type := Scalar "AWSDateTime"; isRequired := false;
                          isArray := false; isReadOnly := true;
                          association := None |}) ];
     attributes := [] |}.

Definition author_models : Js.Object Model := [ ("Author", Author) ].

(** A runtime that plays back scripted answers; when a script is used up
    the call fails. *)
Record Script : Type := {
  fetches : list (Completion Response);
  sessions : list (Completion string);
  signIns : list (Completion string)
}.

Definition scripted : Runtime Script string :=
  {| fetch := fun _ _ _ w =>
       match fetches w with
       | r :: rest =>
           (r, {| fetches := rest; sessions := sessions w;
                  signIns := signIns w |})
       | [] => (Throw (Error "fetch failed"), w)
       end;
     Auth_currentSession := fun w =>
       match sessions w with
       | r :: rest =>
           (r, {| fetches := fetches w; sessions := rest;
                  signIns := signIns w |})
       | [] => (Throw (NonError "No current user"), w)
       end;
     Auth_signIn := fun _ _ w =>
       match signIns w with
       | r :: rest =>
           (r, {| fetches := fetches w; sessions := sessions w;
                  signIns := rest |})
       | [] => (Throw (Error "Incorrect username or password."), w)
       end;
     Auth_currentUserInfo := fun w => (Return JNull, w);
     JSON_stringify := fun _ => "null";
     JSON_stringify_result := fun _ => "{}";
     syntax_error_message := fun _ => "Unexpected token" |}.

(** A runtime whose endpoint answers 401 to everything while the
    identity provider renews the session every time. *)
Definition unauthorized : Response :=
  {| status := 401; json := Throw (Error "Unexpected end of JSON input") |}.

Definition always_401 : Runtime unit string :=
  {| fetch := fun _ _ _ w => (Return unauthorized, w);
     Auth_currentSession := fun w => (Return "token", w);
     Auth_signIn := fun u _ w => (Return u, w);
     Auth_currentUserInfo := fun w => (Return JNull, w);
     JSON_stringify := fun _ => "null";
     JSON_stringify_result := fun _ => "{}";
     syntax_error_message := fun _ => "Unexpected token" |}.

Definition success (d : Json) : Response :=
  {| status := 200; json := Return {| data := d; errors := None |} |}.

Definition cognito : Config :=
  {| isAuthInitialized := true; username := None; password := None |}.



Definition signed_out : Session string :=
  {| currentUser := None; idToken := None;
     storedUsername := None; storedPassword := None |}.

Definition signed_in (user token u p : string) : Session string :=
  {| currentUser := Some user; idToken := Some token;
     storedUsername := Some u; storedPassword := Some p |}.

Definition start {World : Type} (s : Session string) (w : World)
  : State World string :=
  {| session := s; world := w; trace := [] |}.

End Examples.

(** ** Counting what a run did *)

Definition is_fetch (ev : Event) : bool :=
  match ev with
  | EvFetch _ _ _ => true
  | _ => false
  end.

Definition is_refresh (ev : Event) : bool :=
  match ev with
  | EvRefresh => true
  | _ => false
  end.


(** Number of requests sent and of calls of [handleAuthRefresh]. *)
Definition requests (evs : list Event) : nat := length (filter is_fetch evs).
Definition refreshes (evs : list Event) : nat := length (filter is_refresh evs).

(** Every request of [evs] carries [query] and [variables]. *)
Definition same_request (query : string) (variables : Json) (ev : Event)
  : Prop :=
  match ev with
  | EvFetch _ q v => q = query /\ v = variables
  | _ => True
  end.

(** What one call of the executor, and one of the refresh path, add to
    the trace: requests and refreshes alternate, starting with a request
    for the executor and with a refresh for the refresh path. *)
Definition executor_adds (query : string) (variables : Json)
  (out : Outcome GraphQLResult) (evs : list Event) : Prop :=
  Forall (same_request query variables) evs
  /\ refreshes evs <= requests evs <= refreshes evs + 1
  /\ (forall result, out = Resolved result ->
      requests evs = refreshes evs + 1).

Definition refresh_adds (query : string) (variables : Json)
  (out : Outcome GraphQLResult) (evs : list Event) : Prop :=
  Forall (same_request query variables) evs
  /\ requests evs <= refreshes evs <= requests evs + 1
  /\ (forall result, out = Resolved result ->
      requests evs = refreshes evs).

(** Calls to the identity provider. *)
Definition is_auth_call (ev : Event) : bool :=
  match ev with
  | EvCurrentSession | EvSignIn _ _ => true
  | _ => false
  end.

(** Requests and calls of [handleAuthRefresh] take turns in [evs], with
    a request due first when [request_due] and a refresh otherwise;
    calls to the identity provider may lie between them. *)
Fixpoint alternate (request_due : bool) (evs : list Event) : bool :=
  match evs with
  | [] => true
  | EvFetch _ _ _ :: rest => request_due && alternate false rest
  | EvRefresh :: rest => negb request_due && alternate true rest
  | _ :: rest => alternate request_due rest
  end.

(** An endpoint that answers 401 [n] times before it answers with a
    body, and an identity provider that renews the session as often. *)
Definition n_failures (n : nat) : Examples.Script :=
  {| Examples.fetches :=
       (repeat (Return Examples.unauthorized) n
          ++ [Return (Examples.success JNull)])%list;
     Examples.sessions := repeat (Return "renewed") (n + n);
     Examples.signIns := [] |}.

(** ** What the selection-set generator is expected to emit *)

(** A field holds a model reference when its type names a model. *)
Definition model_reference (f : Field) : Prop :=
  exists m, type f = ModelRef m /\ m <> "".

(** The lines one field contributes to the selection set at [depth],
    case by case: nothing for a read-only field; the bare name for a
    writable field that is no model reference (scalars and enums; an
    empty name is dropped with the nulls); nothing for a model reference
    that is an array or met at depth 1; the shallow projection for a
    singular model reference at depth 0. *)
Inductive emitted (depth : nat) (fieldName : string) (f : Field)
  : list string -> Prop :=
| emitted_read_only :
    isReadOnly f = true -> emitted depth fieldName f []
| emitted_plain :
    isReadOnly f = false -> ~ model_reference f -> fieldName <> "" ->
    emitted depth fieldName f [fieldName]
| emitted_unnamed :
    isReadOnly f = false -> ~ model_reference f -> fieldName = "" ->
    emitted depth fieldName f []
| emitted_collection :
    isReadOnly f = false -> model_reference f -> isArray f = true ->
    emitted depth fieldName f []
| emitted_nested :
    isReadOnly f = false -> model_reference f -> 1 <= depth ->
    emitted depth fieldName f []
| emitted_singular :
    isReadOnly f = false -> model_reference f -> isArray f = false ->
    depth = 0 ->
    emitted depth fieldName f [fieldName ++ " { id name }"].

(** Brace nesting of a generated text: [scan] walks the text with the
    current depth and the deepest level seen so far. *)
Definition is_open (c : ascii) : bool := (nat_of_ascii c =? 123)%nat.
Definition is_close (c : ascii) : bool := (nat_of_ascii c =? 125)%nat.

Fixpoint scan (s : string) (level deepest : nat) : nat * nat :=
  match s with
  | EmptyString => (level, deepest)
  | String c rest =>
      if is_open c then scan rest (S level) (Nat.max deepest (S level))
      else if is_close c then scan rest (Nat.pred level) deepest
      else scan rest level deepest
  end.

Definition nesting (s : string) : nat := snd (scan s 0 0).

Fixpoint brace_free (s : string) : bool :=
  match s with
  | EmptyString => true
  | String c rest => negb (is_open c) && negb (is_close c) && brace_free rest
  end.

(** A line is flat when reading it returns to the level it started
    from and goes at most one level deeper. *)
Definition flat (s : string) : Prop :=
  forall level deepest,
    fst (scan s level deepest) = level
    /\ snd (scan s level deepest) <= Nat.max deepest (S level).

(** A tool result that is one text item. *)
Definition is_text_result (r : ToolResult) : Prop :=
  exists s, r = text_result s.

(** ** What counts as an authentication failure *)

(** [needle] occurs in [s]. *)
Definition contains (s needle : string) : Prop :=
  exists before rest, s = before ++ needle ++ rest.

(** The payload has, among its [errors], one of type
    [UnauthorizedException] or one whose message contains one of the two
    texts. *)
Definition payload_has_auth_error (result : GraphQLResult) : Prop :=
  exists es e,
    errors result = Some es /\ In e es
    /\ (errorType e = Some "UnauthorizedException"
        \/ (exists m, message e = Some m /\ contains m "Authentication failed")
        \/ (exists m, message e = Some m /\ contains m "token is expired")).

(** The response has status 401, or it is a success whose body parses
    to a payload with such an error (the executor parses the body of
    successes only). *)
Definition auth_failure (response : Response) : Prop :=
  status response = 401
  \/ (ok response = true
      /\ exists result,
           json response = Return result /\ payload_has_auth_error result).

(** ** Vocabulary of the statements about the session *)

Section Vocabulary.
Context {World User : Type}.
Variable rt : Runtime World User.
Variable cfg : Config.

(** The state after a collaborator answered: the event is logged and the
    world moved on. *)
Definition after (st : State World User) (ev : Event) (w : World)
  : State World User :=
  {| session := session st; world := w; trace := trace st ++ [ev] |}.

Definition with_session (st : State World User) (s : Session User)
  : State World User :=
  {| session := s; world := world st; trace := trace st |}.

(** The sign-in block of the re-login and of the [login] tool, up to the
    point where the token is stored. *)
Definition sign_in (u p : string) : Async.M unit :=
  user <- call (EvSignIn u p) (Auth_signIn rt u p) ;;
  modify (set_currentUser user) ;;
  token <- call EvCurrentSession (Auth_currentSession rt) ;;
  modify (set_idToken token).

(** The credentials the re-login uses: the stored ones, else those of
    the environment. *)
Definition loginUsername (st : State World User) : option string :=
  or_else (storedUsername (session st)) (username cfg).

Definition loginPassword (st : State World User) : option string :=
  or_else (storedPassword (session st)) (password cfg).

Definition relogin_failed : Thrown :=
  Error "Authentication expired and automatic re-login failed".

Definition no_credentials : Thrown :=
  Error "Authentication expired and no stored credentials for re-login".

End Vocabulary.

(** ** How the session may change *)

(** From [s] to [s']: the stored credentials are the same, and identity
    and token are the same or set to something; nothing is cleared. *)
Definition advances {User : Type} (s s' : Session User) : Prop :=
  storedUsername s' = storedUsername s
  /\ storedPassword s' = storedPassword s
  /\ (currentUser s' = currentUser s \/ exists user, currentUser s' = Some user)
  /\ (idToken s' = idToken s \/ exists token, idToken s' = Some token).

(** No session variable that was set is [null] afterwards. *)
Definition nothing_cleared {User : Type} (s s' : Session User) : Prop :=
  (currentUser s <> None -> currentUser s' <> None)
  /\ (idToken s <> None -> idToken s' <> None)
  /\ (storedUsername s <> None -> storedUsername s' <> None)
  /\ (storedPassword s <> None -> storedPassword s' <> None).

(** Stored credentials come in pairs, and with an identity and a token. *)
Definition credentials_backed {User : Type} (s : Session User) : Prop :=
  (storedUsername s = None <-> storedPassword s = None)
  /\ (storedUsername s <> None ->
      currentUser s <> None /\ idToken s <> None).

(** [association] is set. *)
Definition has_association (entry : string * Field) : bool :=
  match association (snd entry) with
  | Some _ => true
  | None => false
  end.

(** ** The Cloudflare worker *)

Module Worker.

(** *** Values that come out of [JSON.parse] *)

(** [v[key]] for a value that is neither [null] nor [undefined]: an own
    member of an object (the last one of that name), [undefined]
    otherwise.  None of the names the worker asks for is inherited. *)
Fixpoint member (members : list (string * Json)) (key : string)
  : option Json :=
  match members with
  | [] => None
  | (k, v) :: rest =>
      match member rest key with
      | Some later => Some later
      | None => if k =? key then Some v else None
      end
  end.

Definition get_prop (v : Json) (key : string) : option Json :=
  match v with
  | JObject members => member members key
  | _ => None
  end.

(** What the engine leaves to itself: how a number prints and whether
    it is zero, and the messages of its own errors. *)
Inductive EngineError : Type :=
| CannotDestructure (property : string) (source : string) (value : string)
| CannotRead (property : string) (value : string)
| InvalidJson (text : string)
| StatusOutOfRange (status : nat)
| NullBodyStatus (status : nat).

Record Engine : Type := {
  Number_toString : string -> string;
  Number_truthy : string -> bool;
  JSON_stringify : Json -> string;
  JSON_stringify_pretty : Json -> string;
  engine_message : EngineError -> string;
  (* whether [new Response] takes an empty text on a status without body
     for no body at all, as the Workers runtime does, instead of
     throwing as the Fetch standard has it *)
  Response_empty_body_as_null : bool
}.

Section Values.
Variable engine : Engine.

(** [String(v)], as a template literal applies it. *)
Fixpoint js_string (v : Json) : string :=
  match v with
  | JNull => "null"
  | JBool true => "true"
  | JBool false => "false"
  | JNumber lexeme => Number_toString engine lexeme
  | JString s => s
  | JArray items =>
      String.concat ","
        (map (fun item => match item with
                          | JNull => ""
                          | _ => js_string item
                          end) items)
  | JObject _ => "[object Object]"
  end.

Definition template (v : option Json) : string :=
  match v with
  | Some x => js_string x
  | None => "undefined"
  end.

Definition js_truthy (v : option Json) : bool :=
  match v with
  | None => false
  | Some JNull => false
  | Some (JBool b) => b
  | Some (JNumber lexeme) => Number_truthy engine lexeme
  | Some (JString s) => truthy s
  | Some (JArray _) => true
  | Some (JObject _) => true
  end.

End Values.

(** An object literal in which a member may be [undefined]:
    [JSON.stringify] leaves such members out. *)
Fixpoint object_of (members : list (string * option Json))
  : list (string * Json) :=
  match members with
  | [] => []
  | (k, Some v) :: rest => (k, v) :: object_of rest
  | (_, None) :: rest => object_of rest
  end.

(** *** Requests, responses and the upstream endpoint *)

Record Env : Type := {
  AMPLIFY_API_URL : option string;
  AMPLIFY_API_KEY : option string;
  AMPLIFY_REGION : option string
}.

(** What the worker reads of a request: method, path of the URL, the two
    headers it asks for, and the body. *)
Record Request : Type := {
  method : string;
  pathname : string;
  accept : option string;
  authorization : option string;
  body : string
}.

(** A body is nothing, the serialisation of a value, a text, or a stream
    that sends each message as [data: <JSON>] followed by an empty line
    and stays open. *)
Inductive Body : Type :=
| NoBody
| JsonBody (v : Json)
| TextBody (s : string)
| EventStream (messages : list Json).

Record Response : Type := {
  status : nat;
  headers : list (string * string);
  response_body : Body
}.

(** What is sent upstream, always by POST to [AMPLIFY_API_URL] with
    content type JSON: the optional two headers and the body. *)
Inductive UpstreamBody : Type :=
| Raw (text : string)
| Serialized (v : Json).

Record UpstreamRequest : Type := {
  url : string;
  x_api_key : option string;
  upstream_authorization : option string;
  upstream_body : UpstreamBody
}.

(** What the worker reads of the upstream answer: status and text. *)
Record Reply : Type := {
  reply_status : nat;
  reply_text : Completion string
}.

Definition reply_ok (r : Reply) : bool :=
  ((200 <=? reply_status r) && (reply_status r <=? 299))%nat.

(** The worker's own state is nothing; [sent] records what it sent
    upstream, [upstream] is the state of the endpoint. *)
Record WorkerState (World : Type) : Type := {
  upstream : World;
  sent : list UpstreamRequest
}.
Arguments upstream {World} _.
Arguments sent {World} _.
Arguments Build_WorkerState {World} _ _.

Definition cors : list (string * string) :=
  [ ("Content-Type", "application/json");
    ("Access-Control-Allow-Origin", "*") ].

Definition json_only : list (string * string) :=
  [ ("Content-Type", "application/json") ].

(** [new Response(body, { status, headers })] with a body that is not
    [null]: the constructor refuses a status outside 200..599 and a
    body on a status that has none; an empty text on such a status is
    refused or dropped, by the engine. *)
Definition is_null_body_status (n : nat) : bool :=
  ((n =? 101) || (n =? 103) || (n =? 204) || (n =? 205) || (n =? 304))%nat.

Section Handlers.
Context {World : Type}.
Variable engine : Engine.
Variable fetch_upstream :
  UpstreamRequest -> World -> Completion Reply * World.

Definition W (A : Type) : Type :=
  WorkerState World -> Completion A * WorkerState World.

Definition wret {A} (a : A) : W A := fun st => (Return a, st).

Definition wthrow {A} (e : Thrown) : W A := fun st => (Throw e, st).

Definition wbind {A B} (m : W A) (k : A -> W B) : W B :=
  fun st =>
    match m st with
    | (Return a, st') => k a st'
    | (Throw e, st') => (Throw e, st')
    end.

Definition wcatch {A} (m : W A) (handler : Thrown -> W A) : W A :=
  fun st =>
    match m st with
    | (Throw e, st') => handler e st'
    | done => done
    end.

Definition wsettle {A} (c : Completion A) : W A :=
  match c with
  | Return a => wret a
  | Throw e => wthrow e
  end.

(** [await fetch(apiUrl, ...)] *)
Definition send (req : UpstreamRequest) : W Reply :=
  fun st =>
    let '(r, w) := fetch_upstream req (upstream st) in
    let st' := {| upstream := w; sent := (sent st ++ [req])%list |} in
    match r with
    | Return reply => (Return reply, st')
    | Throw e => (Throw e, st')
    end.

Definition thrown_by_engine (err : EngineError) : Thrown :=
  Error (engine_message engine err).

Definition new_Response (text : string) (status : nat)
  (headers : list (string * string)) : Completion Response :=
  if ((status <? 200) || (599 <? status))%nat then
    Throw (thrown_by_engine (StatusOutOfRange status))
  else if is_null_body_status status then
    if (text =? "") && Response_empty_body_as_null engine then
      Return {| status := status; headers := headers;
                response_body := NoBody |}
    else Throw (thrown_by_engine (NullBodyStatus status))
  else
    Return {| status := status; headers := headers;
              response_body := TextBody text |}.

(** [await response.json()] *)
Definition reply_json (r : Reply) : Completion Json :=
  match reply_text r with
  | Throw e => Throw e
  | Return text =>
      match JsonParser.parse text with
      | Some v => Return v
      | None => Throw (thrown_by_engine (InvalidJson text))
      end
  end.

(** [x || fallback] for an optional text of the environment. *)
Definition or_default (x : option string) (fallback : string) : string :=
  match x with
  | Some s => if truthy s then s else fallback
  | None => fallback
  end.

Definition text_content (text : string) : Json :=
  JArray [ JObject [ ("type", JString "text"); ("text", JString text) ] ].

(** The helper [executeGraphQLQuery] of the worker: it returns a tool
    result, marked [isError] when anything went wrong. *)
Definition executeGraphQLQuery (query : option Json) (variables : Json)
  (env : Env) : W Json :=
  match AMPLIFY_API_URL env with
  | Some apiUrl =>
      if truthy apiUrl then
        wcatch
          (wbind
             (send {| url := apiUrl;
                      x_api_key :=
                        (if truthy_opt (AMPLIFY_API_KEY env)
                         then AMPLIFY_API_KEY env else None);
                      upstream_authorization := None;
                      upstream_body :=
                        Serialized
                          (JObject (object_of [ ("query", query);
                                                ("variables", Some variables) ]))
                   |})
             (fun response =>
                if negb (reply_ok response) then
                  wthrow (Error ("HTTP error! status: "
                                   ++ show_nat (reply_status response)))
                else
                  wbind (wsettle (reply_json response))
                    (fun result =>
                       wret (JObject
                               [ ("content",
                                  text_content
                                    (JSON_stringify_pretty engine result)) ]))))
          (fun error =>
             wret (JObject
                     [ ("content",
                        text_content ("Error: " ++ describe error));
                       ("isError", JBool true) ]))
      else
        wret (JObject
                [ ("content",
                   text_content
                     "Error: AMPLIFY_API_URL environment variable is not configured");
                  ("isError", JBool true) ])
  | None =>
      wret (JObject
              [ ("content",
                 text_content
                   "Error: AMPLIFY_API_URL environment variable is not configured");
                ("isError", JBool true) ])
  end.

(** [handleGraphQLProxy] *)
Definition handleGraphQLProxy (request : Request) (env : Env) : W Response :=
  let not_configured :=
    {| status := 500; headers := json_only;
       response_body :=
         JsonBody (JObject [ ("error",
                              JString "AMPLIFY_API_URL not configured") ]) |} in
  match AMPLIFY_API_URL env with
  | Some apiUrl =>
      if truthy apiUrl then
        wcatch
          (wbind
             (send {| url := apiUrl;
                      x_api_key :=
                        (if truthy_opt (AMPLIFY_API_KEY env)
                         then AMPLIFY_API_KEY env else None);
                      upstream_authorization :=
                        (if truthy_opt (authorization request)
                         then authorization request else None);
                      upstream_body := Raw (body request) |})
             (fun response =>
                wbind (wsettle (reply_text response))
                  (fun result =>
                     wsettle (new_Response result (reply_status response)
                                cors))))
          (fun error =>
             wret {| status := 500; headers := json_only;
                     response_body :=
                       JsonBody
                         (JObject [ ("error", JString "GraphQL proxy error");
                                    ("message", JString (describe error)) ]) |})
      else wret not_configured
  | None => wret not_configured
  end.

(** The information object of [resources/read] and [get_api_info], up to
    its last members. *)
Definition api_info (env : Env) (rest : list (string * Json)) : Json :=
  JObject
    ([ ("apiUrl", JString (or_default (AMPLIFY_API_URL env) "not configured"));
       ("region", JString (or_default (AMPLIFY_REGION env) "us-east-1"));
       ("hasApiKey", JBool (truthy_opt (AMPLIFY_API_KEY env))) ] ++ rest)%list.

Definition initialize_result : Json :=
  JObject
    [ ("protocolVersion", JString "2024-11-05");
      ("capabilities",
       JObject [ ("resources", JObject []); ("tools", JObject []) ]);
      ("serverInfo",
       JObject [ ("name", JString "amplify-data-api-worker");
                 ("version", JString "1.0.0") ]) ].

Definition resources_list_result : Json :=
  JObject
    [ ("resources",
       JArray
         [ JObject
             [ ("uri", JString "amplify://api-info");
               ("name", JString "Amplify API Information");
               ("description",
                JString "Information about the Amplify Data API configuration");
               ("mimeType", JString "application/json") ] ]) ].

Definition tools_list_result : Json :=
  JObject
    [ ("tools",
       JArray
         [ JObject
             [ ("name", JString "query_amplify_api");
               ("description",
                JString "Execute a GraphQL query against the Amplify Data API");
               ("inputSchema",
                JObject
                  [ ("type", JString "object");
                    ("properties",
                     JObject
                       [ ("query",
                          JObject
                            [ ("type", JString "string");
                              ("description",
                               JString "The GraphQL query to execute") ]);
                         ("variables",
                          JObject
                            [ ("type", JString "object");
                              ("description",
                               JString "Variables for the GraphQL query") ]) ]);
                    ("required", JArray [ JString "query" ]) ]) ];
           JObject
             [ ("name", JString "get_api_info");
               ("description",
                JString "Get information about the Amplify API configuration");
               ("inputSchema",
                JObject [ ("type", JString "object");
                          ("properties", JObject []) ]) ] ]) ].

(** [const { property } = value]: the members asked for, or the
    [TypeError] of taking apart [null] or [undefined]. *)
Definition destructure (property source : string) (value : option Json)
  : Completion Json :=
  match value with
  | None =>
      Throw (thrown_by_engine (CannotDestructure property source "undefined"))
  | Some JNull =>
      Throw (thrown_by_engine (CannotDestructure property source "null"))
  | Some v => Return v
  end.

(** The JSON-RPC envelope [handleMcpRequest] returns. *)
Inductive McpReply : Type :=
| Success (result : Json) (id : option Json)
| Failure (message : string) (id : option Json).

(** [v === "literal"] *)
Definition is_string (v : option Json) (literal : string) : bool :=
  match v with
  | Some (JString s) => s =? literal
  | _ => false
  end.

(** The case [resources/read]. *)
Definition resources_read (params : option Json) (env : Env) : W Json :=
  wbind (wsettle (destructure "uri" "params" params))
    (fun p =>
       let uri := get_prop p "uri" in
       if is_string uri "amplify://api-info" then
         wret (JObject
                 [ ("contents",
                    JArray
                      [ JObject
                          [ ("uri", JString "amplify://api-info");
                            ("mimeType", JString "application/json");
                            ("text",
                             JString
                               (JSON_stringify_pretty engine
                                  (api_info env
                                     [ ("status",
                                        JString "configured") ]))) ] ]) ])
       else wthrow (Error ("Unknown resource: " ++ template engine uri))).

(** The case [tools/call]. *)
Definition tools_call (params : option Json) (env : Env) : W Json :=
  wbind (wsettle (destructure "name" "params" params))
    (fun p =>
       let name := get_prop p "name" in
       let args := get_prop p "arguments" in
       if is_string name "query_amplify_api" then
         match args with
         | None => wthrow (thrown_by_engine (CannotRead "query" "undefined"))
         | Some JNull => wthrow (thrown_by_engine (CannotRead "query" "null"))
         | Some a =>
             executeGraphQLQuery (get_prop a "query")
               (match get_prop a "variables" with
                | Some v => if js_truthy engine (Some v) then v else JObject []
                | None => JObject []
                end)
               env
         end
       else if is_string name "get_api_info" then
         wret (JObject
                 [ ("content",
                    text_content
                      (JSON_stringify_pretty engine
                         (api_info env
                            [ ("worker", JString "aws-amplify-data-mcp");
                              ("version", JString "1.0.0") ]))) ])
       else wthrow (Error ("Unknown tool: " ++ template engine name))).

(** The [switch] of [handleMcpRequest]: the [result] of a method. *)
Definition dispatch (method : option Json) (params : option Json) (env : Env)
  : W Json :=
  if is_string method "initialize" then wret initialize_result
  else if is_string method "resources/list" then wret resources_list_result
  else if is_string method "resources/read" then resources_read params env
  else if is_string method "tools/list" then wret tools_list_result
  else if is_string method "tools/call" then tools_call params env
  else wthrow (Error ("Unknown method: " ++ template engine method)).

(** [handleMcpRequest]: the request is taken apart outside the [try],
    the method runs inside it. *)
Definition handleMcpRequest (mcpRequest : Json) (env : Env) : W McpReply :=
  match mcpRequest with
  | JNull =>
      wthrow (thrown_by_engine (CannotDestructure "method" "mcpRequest" "null"))
  | _ =>
      let id := get_prop mcpRequest "id" in
      wcatch
        (wbind (dispatch (get_prop mcpRequest "method")
                  (get_prop mcpRequest "params") env)
           (fun result => wret (Success result id)))
        (fun error => wret (Failure (describe error) id))
  end.

(** What [JSON.stringify] makes of the envelope. *)
Definition envelope (r : McpReply) : Json :=
  match r with
  | Success result id =>
      JObject (object_of [ ("jsonrpc", Some (JString "2.0"));
                           ("result", Some result); ("id", id) ])
  | Failure message id =>
      JObject (object_of
                 [ ("jsonrpc", Some (JString "2.0"));
                   ("error",
                    Some (JObject [ ("code", JNumber "-32000");
                                    ("message", JString message) ]));
                   ("id", id) ])
  end.

Definition wants_event_stream (request : Request) : bool :=
  match accept request with
  | Some a => truthy a && includes a "text/event-stream"
  | None => false
  end.

(** [handleSSEConnection] *)
Definition handleSSEConnection (request : Request) (env : Env) : Response :=
  if negb (wants_event_stream request) then
    {| status := 400; headers := cors;
       response_body :=
         JsonBody
           (JObject
              [ ("jsonrpc", JString "2.0");
                ("error",
                 JObject
                   [ ("code", JNumber "-32600");
                     ("message",
                      JString "Invalid Request - SSE transport requires Accept: text/event-stream header") ]);
                ("id", JNull) ]) |}
  else
    {| status := 200;
       headers :=
         [ ("Content-Type", "text/event-stream");
           ("Cache-Control", "no-cache");
           ("Connection", "keep-alive");
           ("Access-Control-Allow-Origin", "*");
           ("Access-Control-Allow-Headers", "Cache-Control, Accept");
           ("Access-Control-Expose-Headers", "Content-Type") ];
       response_body :=
         EventStream
           [ JObject [ ("jsonrpc", JString "2.0");
                       ("method", JString "notifications/initialized");
                       ("params", JObject []) ];
             JObject [ ("jsonrpc", JString "2.0");
                       ("method", JString "notifications/message");
                       ("params",
                        JObject [ ("level", JString "info");
                                  ("data", JString "MCP Server ready") ]) ] ] |}.

(** [await request.json()] *)
Definition request_json (request : Request) : Completion Json :=
  match JsonParser.parse (body request) with
  | Some v => Return v
  | None => Throw (thrown_by_engine (InvalidJson (body request)))
  end.

Definition mcp_over_http (request : Request) (env : Env) : W Response :=
  wbind (wsettle (request_json request))
    (fun parsed =>
       wbind (handleMcpRequest parsed env)
         (fun response =>
            wret {| status := 200; headers := cors;
                    response_body := JsonBody (envelope response) |})).

Definition default_response : Response :=
  {| status := 200; headers := cors;
     response_body :=
       JsonBody
         (JObject
            [ ("message",
               JString "AWS Amplify Data MCP Server - Worker Version");
              ("endpoints",
               JObject [ ("health", JString "/health");
                         ("graphql", JString "/api/graphql");
                         ("mcp", JString "/mcp");
                         ("sse", JString "/sse") ]) ]) |}.

(** The exported [fetch] handler. *)
Definition fetch (request : Request) (env : Env) : W Response :=
  if method request =? "OPTIONS" then
    wret {| status := 200;
            headers :=
              [ ("Access-Control-Allow-Origin", "*");
                ("Access-Control-Allow-Methods", "GET, POST, OPTIONS");
                ("Access-Control-Allow-Headers",
                 "Content-Type, Authorization, Accept, Cache-Control");
                ("Access-Control-Max-Age", "86400") ];
            response_body := NoBody |}
  else
    wcatch
      (if pathname request =? "/health" then
         wret {| status := 200; headers := cors;
                 response_body :=
                   JsonBody
                     (JObject [ ("status", JString "healthy");
                                ("worker", JString "aws-amplify-data-mcp");
                                ("version", JString "1.0.0") ]) |}
       else if (pathname request =? "/api/graphql")
               && (method request =? "POST") then
         handleGraphQLProxy request env
       else if (pathname request =? "/mcp") && (method request =? "POST") then
         mcp_over_http request env
       else if (pathname request =? "/sse") && (method request =? "GET") then
         wret (handleSSEConnection request env)
       else if (pathname request =? "/sse") && (method request =? "POST") then
         mcp_over_http request env
       else if (pathname request =? "/") && (method request =? "GET")
               && wants_event_stream request then
         wret (handleSSEConnection request env)
       else wret default_response)
      (fun error =>
         wret {| status := 500; headers := cors;
                 response_body :=
                   JsonBody
                     (JObject
                        [ ("error", JString "Internal Server Error");
                          ("message", JString (describe error)) ]) |}).

End Handlers.

(** *** Vocabulary of the statements about the worker *)


Definition reply_id (r : McpReply) : option Json :=
  match r with
  | Success _ id => id
  | Failure _ id => id
  end.



(** The answer to a failure inside the [fetch] handler. *)
Definition internal_error (message : string) : Response :=
  {| status := 500; headers := cors;
     response_body :=
       JsonBody (JObject [ ("error", JString "Internal Server Error");
                           ("message", JString message) ]) |}.

End Worker.

(** ** The earlier worker *)

(** The repository holds an earlier copy of the worker too.  Its proxy
    and its query helper are those of [Worker], and so is the [switch]
    over the methods; its [handleMcpRequest] returns the bare result of
    a method and lets the errors escape, and its [fetch] has no route
    for event streams. *)
Module EarlierWorker.

Section Handlers.
Context {World : Type}.
Variable engine : Worker.Engine.
Variable fetch_upstream :
  Worker.UpstreamRequest -> World -> Completion Worker.Reply * World.

(** [handleMcpRequest]: no [try], no envelope. *)
Definition handleMcpRequest (mcpRequest : Json) (env : Worker.Env)
  : Worker.W (World := World) Json :=
  match mcpRequest with
  | JNull =>
      Worker.wthrow
        (Worker.thrown_by_engine engine
           (Worker.CannotDestructure "method" "mcpRequest" "null"))
  | _ =>
      Worker.dispatch engine fetch_upstream
        (Worker.get_prop mcpRequest "method")
        (Worker.get_prop mcpRequest "params") env
  end.

Definition default_response : Worker.Response :=
  {| Worker.status := 200; Worker.headers := Worker.cors;
     Worker.response_body :=
       Worker.JsonBody
         (JObject
            [ ("message",
               JString "AWS Amplify Data MCP Server - Worker Version");
              ("endpoints",
               JObject [ ("health", JString "/health");
                         ("graphql", JString "/api/graphql");
                         ("mcp", JString "/mcp") ]) ]) |}.

(** The exported [fetch] handler. *)
Definition fetch (request : Worker.Request) (env : Worker.Env)
  : Worker.W (World := World) Worker.Response :=
  if Worker.method request =? "OPTIONS" then
    Worker.wret
      {| Worker.status := 200;
         Worker.headers :=
           [ ("Access-Control-Allow-Origin", "*");
             ("Access-Control-Allow-Methods", "GET, POST, OPTIONS");
             ("Access-Control-Allow-Headers", "Content-Type, Authorization") ];
         Worker.response_body := Worker.NoBody |}
  else
    Worker.wcatch
      (if Worker.pathname request =? "/health" then
         Worker.wret
           {| Worker.status := 200; Worker.headers := Worker.cors;
              Worker.response_body :=
                Worker.JsonBody
                  (JObject [ ("status", JString "healthy");
                             ("worker", JString "aws-amplify-data-mcp");
                             ("version", JString "1.0.0") ]) |}
       else if (Worker.pathname request =? "/api/graphql")
               && (Worker.method request =? "POST") then
         Worker.handleGraphQLProxy engine fetch_upstream request env
       else if (Worker.pathname request =? "/mcp")
               && (Worker.method request =? "POST") then
         Worker.wbind (Worker.wsettle (Worker.request_json engine request))
           (fun parsed =>
              Worker.wbind (handleMcpRequest parsed env)
                (fun response =>
                   Worker.wret
                     {| Worker.status := 200; Worker.headers := Worker.cors;
                        Worker.response_body := Worker.JsonBody response |}))
       else Worker.wret default_response)
      (fun error =>
         Worker.wret
           {| Worker.status := 500; Worker.headers := Worker.cors;
              Worker.response_body :=
                Worker.JsonBody
                  (JObject
                     [ ("error", JString "Internal Server Error");
                       ("message", JString (describe error)) ]) |}).

End Handlers.

End EarlierWorker.

(** ** Start-up of the stdio server *)

Module Startup.

(** What the loop over the command line leaves: the help was asked for
    (the process exits at once), or the loop ran to its end with this
    value of [amplifyOutputsPath]. *)
Inductive Arguments : Type :=
| Help
| Path (amplifyOutputsPath : option string).

Definition is_help (arg : string) : bool := (arg =? "--help") || (arg =? "-h").

(** The [for] loop: [--amplify-outputs] takes the next argument,
    whatever it is, and [undefined] when there is none. *)
Fixpoint parse_args (args : list string) (amplifyOutputsPath : option string)
  : Arguments :=
  match args with
  | [] => Path amplifyOutputsPath
  | arg :: rest =>
      if arg =? "--amplify-outputs" then
        match rest with
        | value :: rest' => parse_args rest' (Some value)
        | [] => Path None
        end
      else if is_help arg then Help
      else parse_args rest amplifyOutputsPath
  end.

(** [process.env.NAME || null] *)
Definition or_null (value : option string) : option string :=
  if truthy_opt value then value else None.

(** The file system and the Cognito library, as start-up uses them. *)
Record Host : Type := {
  resolve : string -> string;
  existsSync : string -> bool;
  readFileSync : string -> Completion string;
  Auth_configure : Json -> option Json -> option Json -> option Json
                   -> Completion unit
}.

(** What start-up hands to the rest of the server. *)
Record Launch : Type := {
  config : Config;
  apiUrl : Json;
  region : Json;
  defaultAuthType : Json;
  authTypes : Json;
  models : Json;
  enums : Json
}.

Inductive Outcome : Type :=
| Exit (code : nat)
| Uncaught (e : Thrown)
| Started (launch : Launch).

Section Start.
Variable engine : Worker.Engine.
Variable host : Host.

(** [v?.key] on a value that may be [undefined]; none of the names
    start-up reads is inherited from a prototype. *)
Definition optional (v : option Json) (key : string) : option Json :=
  match v with
  | None => None
  | Some JNull => None
  | Some x => Worker.get_prop x key
  end.

(** [v || fallback] *)
Definition or_value (v : option Json) (fallback : Json) : Json :=
  match v with
  | Some x => if Worker.js_truthy engine (Some x) then x else fallback
  | None => fallback
  end.

(** The block that configures Cognito: [isAuthInitialized]. *)
Definition configure_auth (amplifyOutputs : Json) (region : Json) : bool :=
  let auth := Worker.get_prop amplifyOutputs "auth" in
  match auth with
  | Some section =>
      if Worker.js_truthy engine auth then
        let user_pool_id := Worker.get_prop section "user_pool_id" in
        let authRegion := Worker.get_prop section "aws_region" in
        let user_pool_client_id :=
          Worker.get_prop section "user_pool_client_id" in
        let identity_pool_id := Worker.get_prop section "identity_pool_id" in
        if Worker.js_truthy engine user_pool_id
           && Worker.js_truthy engine user_pool_client_id then
          match Auth_configure host (or_value authRegion region)
                  user_pool_id user_pool_client_id identity_pool_id with
          | Return _ => true
          | Throw _ => false
          end
        else false
      else false
  | None => false
  end.

(** From the parsed outputs file to the end of start-up: the values
    are extracted, the API URL is required, Cognito is configured. *)
Definition launch_from (amplifyOutputs : Json)
  (AMPLIFY_USERNAME AMPLIFY_PASSWORD : option string) : Outcome :=
  match amplifyOutputs with
  | JNull =>
      Uncaught (Worker.thrown_by_engine engine
                  (Worker.CannotRead "data" "null"))
  | _ =>
      let data := Worker.get_prop amplifyOutputs "data" in
      let apiUrl := optional data "url" in
      let region :=
        or_value (optional data "aws_region") (JString "us-east-1") in
      let introspection := optional data "model_introspection" in
      match apiUrl with
      | Some url =>
          if Worker.js_truthy engine apiUrl then
            Started
              {| config :=
                   {| isAuthInitialized :=
                        configure_auth amplifyOutputs region;
                      username := or_null AMPLIFY_USERNAME;
                      password := or_null AMPLIFY_PASSWORD |};
                 apiUrl := url;
                 region := region;
                 defaultAuthType :=
                   or_value (optional data "default_authorization_type")
                     (JString "API_KEY");
                 authTypes :=
                   or_value (optional data "authorization_types")
                     (JArray []);
                 models :=
                   or_value (optional introspection "models") (JObject []);
                 enums :=
                   or_value (optional introspection "enums") (JObject []) |}
          else Exit 1
      | None => Exit 1
      end
  end.

(** Everything before the server is created. *)
Definition start (args : list string)
  (AMPLIFY_USERNAME AMPLIFY_PASSWORD : option string) : Outcome :=
  match parse_args args None with
  | Help => Exit 0
  | Path amplifyOutputsPath =>
      match amplifyOutputsPath with
      | None => Exit 1
      | Some path =>
          if negb (truthy path) then Exit 1
          else
            let absolutePath := resolve host path in
            if negb (existsSync host absolutePath) then Exit 1
            else
              match readFileSync host absolutePath with
              | Throw _ => Exit 1
              | Return fileContent =>
                  match JsonParser.parse fileContent with
                  | None => Exit 1
                  | Some amplifyOutputs =>
                      launch_from amplifyOutputs
                        AMPLIFY_USERNAME AMPLIFY_PASSWORD
                  end
              end
      end
  end.

End Start.

(** No flag of the server among [args]. *)
Definition plain (args : list string) : Prop :=
  Forall (fun arg => arg <> "--amplify-outputs" /\ is_help arg = false) args.

End Startup.

(** ** A worker environment and endpoint used in examples *)

Module WorkerExamples.

Definition engine : Worker.Engine :=
  {| Worker.Number_toString := fun lexeme => lexeme;
     Worker.Number_truthy := fun lexeme => negb (lexeme =? "0");
     Worker.JSON_stringify := fun _ => "{}";
     Worker.JSON_stringify_pretty := fun _ => "{}";
     Worker.engine_message := fun err =>
       match err with
       | Worker.InvalidJson _ => "Unexpected token"
       | Worker.CannotDestructure property source value =>
           "Cannot destructure property '" ++ property ++ "' of '"
             ++ source ++ "' as it is " ++ value ++ "."
       | Worker.CannotRead property value =>
           "Cannot read properties of " ++ value ++ " (reading '"
             ++ property ++ "')"
       | Worker.StatusOutOfRange _ => "Invalid status"
       | Worker.NullBodyStatus _ =>
           "Response with null body status cannot have body"
       end;
     Worker.Response_empty_body_as_null := false |}.

(** An endpoint that plays back scripted replies. *)
Definition scripted (req : Worker.UpstreamRequest)
  (w : list (Completion Worker.Reply))
  : Completion Worker.Reply * list (Completion Worker.Reply) :=
  match w with
  | r :: rest => (r, rest)
  | [] => (Throw (Error "fetch failed"), [])
  end.

Definition env : Worker.Env :=
  {| Worker.AMPLIFY_API_URL := Some "https://api.example/graphql";
     Worker.AMPLIFY_API_KEY := Some "da2-key";
     Worker.AMPLIFY_REGION := None |}.

Definition idle (w : list (Completion Worker.Reply))
  : Worker.WorkerState (list (Completion Worker.Reply)) :=
  {| Worker.upstream := w; Worker.sent := [] |}.

Definition post (path body : string) : Worker.Request :=
  {| Worker.method := "POST"; Worker.pathname := path;
     Worker.accept := None; Worker.authorization := Some "Bearer abc";
     Worker.body := body |}.

End WorkerExamples.

(** * Properties *)

(** ** Strings and property lookup *)

Lemma truthy_true_iff (s : string) : truthy s = true <-> s <> "".
Proof.
  unfold truthy. destruct (String.eqb_spec s ""); simpl; split; congruence.
Qed.

Lemma truthy_false_iff (s : string) : truthy s = false <-> s = "".
Proof.
  unfold truthy. destruct (String.eqb_spec s ""); simpl; split; congruence.
Qed.

Lemma truthy_append (s t : string) : t <> "" -> truthy (s ++ t) = true.
Proof.
  intros Ht. apply truthy_true_iff. destruct s; simpl; congruence.
Qed.

Lemma get_absent {V : Type} (obj : Js.Object V) (key : string) :
  get_own obj key = None -> on_prototype key = false ->
  Js.get obj key = Undefined.
Proof. intros Hown Hproto. unfold Js.get. now rewrite Hown, Hproto. Qed.

Lemma get_inherited {V : Type} (obj : Js.Object V) (key : string) :
  get_own obj key = None -> on_prototype key = true ->
  Js.get obj key = Inherited.
Proof. intros Hown Hproto. unfold Js.get. now rewrite Hown, Hproto. Qed.

(** ** The selection-set generator *)

Section Selection.
Variable models : Js.Object Model.

Lemma generateGraphQLFields_deep (modelName : string) (depth : nat) :
  1 < depth -> generateGraphQLFields models modelName depth = Return "id".
Proof.
  intros Hd. unfold generateGraphQLFields.
  destruct (Nat.ltb_spec 1 depth); [reflexivity | lia].
Qed.

Lemma generateGraphQLFields_absent (modelName : string) (depth : nat) :
  get_own models modelName = None -> on_prototype modelName = false ->
  generateGraphQLFields models modelName depth = Return "id".
Proof.
  intros Hown Hproto. unfold generateGraphQLFields.
  rewrite (get_absent _ _ Hown Hproto). now destruct (1 <? depth)%nat.
Qed.

Lemma model_reference_dec (f : Field) :
  {model_reference f} + {~ model_reference f}.
Proof.
  unfold model_reference. destruct (type f) as [n | m | e | n].
  - right. intros (m & H & _). discriminate.
  - destruct (string_dec m "") as [-> | Hm].
    + right. intros (m & H & Hm). congruence.
    + left. now exists m.
  - right. intros (m & H & _). discriminate.
  - right. intros (m & H & _). discriminate.
Qed.

Lemma type_model_truthy (f : Field) :
  truthy_opt (type_model (type f)) = true <-> model_reference f.
Proof.
  unfold model_reference. destruct (type f) as [n | m | e | n]; simpl.
  - split; [discriminate | intros (m & H & _); discriminate].
  - rewrite truthy_true_iff. split.
    + intros Hm. now exists m.
    + intros (m' & H & Hm). congruence.
  - split; [discriminate | intros (m & H & _); discriminate].
  - split; [discriminate | intros (m & H & _); discriminate].
Qed.

(** The callback followed by [filter(Boolean)] does, field by field,
    what [emitted] describes. *)
Lemma selection_of_emitted (depth : nat) (fieldName : string) (f : Field) :
  depth <= 1 ->
  emitted depth fieldName f
    (filter_Boolean [selection_of depth (fieldName, f)]).
Proof.
  intros Hd. unfold selection_of.
  destruct (isReadOnly f) eqn:Hro; [now constructor |].
  destruct (model_reference_dec f) as [Href | Hplain].
  - pose proof (proj2 (type_model_truthy f) Href) as Hm. rewrite Hm.
    destruct Href as (m & Ht & Hne).
    assert (He : truthy_opt (type_enum (type f)) = false)
      by now rewrite Ht.
    rewrite He. simpl negb. cbn [andb].
    destruct (Nat.leb_spec 1 depth) as [Hge | Hlt]; cbn [orb].
    + apply emitted_nested; auto. now exists m.
    + destruct (isArray f) eqn:Harr.
      * apply emitted_collection; auto. now exists m.
      * cbn [filter_Boolean]. rewrite truthy_append by discriminate.
        apply emitted_singular; auto; [now exists m | lia].
  - assert (Hm : truthy_opt (type_model (type f)) = false).
    { destruct (truthy_opt (type_model (type f))) eqn:E; [| reflexivity].
      now apply type_model_truthy in E. }
    rewrite Hm. cbn [negb andb].
    assert (Hout :
      (if negb (truthy_opt (type_enum (type f))) then Some fieldName
       else if truthy_opt (type_enum (type f)) then Some fieldName
            else None) = Some fieldName)
      by now destruct (truthy_opt (type_enum (type f))).
    rewrite Hout. cbn [filter_Boolean].
    destruct (truthy fieldName) eqn:Hn.
    + apply emitted_plain; auto. now apply truthy_true_iff.
    + apply emitted_unnamed; auto. now apply truthy_false_iff.
Qed.

Lemma filter_Boolean_app (xs ys : list (option string)) :
  filter_Boolean (xs ++ ys)%list
  = (filter_Boolean xs ++ filter_Boolean ys)%list.
Proof.
  induction xs as [| [s |] xs IH]; simpl; auto.
  destruct (truthy s); simpl; now rewrite IH.
Qed.

Lemma selection_lines (depth : nat) (fs : list (string * Field)) :
  depth <= 1 ->
  exists lines,
    Forall2 (fun entry ls => emitted depth (fst entry) (snd entry) ls) fs lines
    /\ filter_Boolean (map (selection_of depth) fs) = concat lines.
Proof.
  intros Hd. induction fs as [| [n f] fs (lines & Hall & Heq)].
  - exists []. split; [constructor | reflexivity].
  - exists (filter_Boolean [selection_of depth (n, f)] :: lines). split.
    + constructor; [now apply selection_of_emitted | exact Hall].
    + change (map (selection_of depth) ((n, f) :: fs))
        with ([selection_of depth (n, f)] ++ map (selection_of depth) fs)%list.
      rewrite filter_Boolean_app, Heq. reflexivity.
Qed.

End Selection.

(** ** Brace nesting *)

Lemma scan_app (a b : string) (level deepest : nat) :
  scan (a ++ b) level deepest
  = scan b (fst (scan a level deepest)) (snd (scan a level deepest)).
Proof.
  revert level deepest. induction a as [| c a IH]; intros; simpl; auto.
  destruct (is_open c); [apply IH |]. destruct (is_close c); apply IH.
Qed.

Lemma scan_brace_free (s : string) (level deepest : nat) :
  brace_free s = true -> scan s level deepest = (level, deepest).
Proof.
  revert level deepest. induction s as [| c s IH]; intros l d H; simpl in *.
  - reflexivity.
  - destruct (is_open c); [discriminate |].
    destruct (is_close c); [discriminate |]. now apply IH.
Qed.

Lemma flat_brace_free (s : string) : brace_free s = true -> flat s.
Proof.
  intros H level deepest. rewrite (scan_brace_free _ _ _ H). simpl. lia.
Qed.

Lemma flat_projection (s : string) :
  brace_free s = true -> flat (s ++ " { id name }").
Proof.
  intros H level deepest. rewrite scan_app, (scan_brace_free _ _ _ H).
  simpl. lia.
Qed.

Lemma flat_app (a b : string) : flat a -> flat b -> flat (a ++ b).
Proof.
  intros Ha Hb level deepest. rewrite scan_app.
  destruct (Ha level deepest) as [Ha1 Ha2].
  destruct (Hb (fst (scan a level deepest)) (snd (scan a level deepest)))
    as [Hb1 Hb2].
  rewrite Ha1 in *. split; [assumption | lia].
Qed.

Lemma flat_join (sep : string) (lines : list string) :
  flat sep -> Forall flat lines -> flat (join sep lines).
Proof.
  intros Hsep Hall. unfold join.
  induction Hall as [| l ls Hl Hls IH]; simpl.
  - apply flat_brace_free. reflexivity.
  - destruct ls as [| l' ls']; [assumption |].
    apply flat_app; [assumption |]. apply flat_app; assumption.
Qed.

Lemma emitted_flat (depth : nat) (n : string) (f : Field) (ls : list string) :
  brace_free n = true -> emitted depth n f ls -> Forall flat ls.
Proof.
  intros Hn H. destruct H; try apply Forall_nil.
  - apply Forall_cons; [now apply flat_brace_free | apply Forall_nil].
  - apply Forall_cons; [now apply flat_projection | apply Forall_nil].
Qed.

Lemma Forall2_emitted_flat (depth : nat) (fs : list (string * Field))
  (lines : list (list string)) :
  forallb (fun entry => brace_free (fst entry)) fs = true ->
  Forall2 (fun entry ls => emitted depth (fst entry) (snd entry) ls) fs lines ->
  Forall flat (concat lines).
Proof.
  intros Hnames Hall. induction Hall as [| [n f] ls fs lines He Hall IH].
  - constructor.
  - simpl in Hnames. apply andb_prop in Hnames as [Hn Hrest].
    simpl. apply Forall_app. split.
    + now apply (emitted_flat depth n f).
    + now apply IH.
Qed.

(** C5, as amended: for a model of the descriptor set, the generator
    returns the bare [id] once the depth exceeds 1; at depth 0 and 1 it
    returns, joined by line feeds, what its fields emit in order:
    writable fields that are no model reference by name, a singular model
    reference at depth 0 as [name { id name }], and nothing for a
    read-only field, for an array-valued model reference, or for a model
    reference at depth 1.  The generator does not call itself; the only
    braces it writes are those of [{ id name }], so when no field name
    contains a brace the braces of the text nest one level deep at
    most. *)
Theorem generateGraphQLFields_selection_set
  (models : Js.Object Model) (modelName : string) (model : Model)
  (depth : nat) :
  Js.get models modelName = Own model ->
  (1 < depth -> generateGraphQLFields models modelName depth = Return "id")
  /\ (depth <= 1 ->
      exists lines,
        Forall2 (fun entry ls => emitted depth (fst entry) (snd entry) ls)
          (fields model) lines
        /\ generateGraphQLFields models modelName depth
           = Return (join LF (concat lines))
        /\ (forallb (fun entry => brace_free (fst entry)) (fields model)
            = true ->
            nesting (join LF (concat lines)) <= 1)).
Proof.
  intros Hget. split.
  - apply generateGraphQLFields_deep.
  - intros Hd.
    destruct (selection_lines depth (fields model) Hd) as (lines & Hall & Heq).
    exists lines. split; [exact Hall |]. split.
    + unfold generateGraphQLFields. rewrite Hget.
      destruct (Nat.ltb_spec 1 depth); [lia |].
      unfold entries. now rewrite Heq.
    + intros Hnames.
      assert (Hflat : flat (join LF (concat lines))).
      { apply flat_join.
        - apply flat_brace_free. reflexivity.
        - now apply (Forall2_emitted_flat depth (fields model)). }
      unfold nesting. destruct (Hflat 0 0) as [_ Hdeep]. simpl in Hdeep. lia.
Qed.

Lemma generateGraphQLFields_selection_set_witness :
  Js.get Examples.author_models "Author" = Own Examples.Author
  /\ 0 <= 1
  /\ forallb (fun entry => brace_free (fst entry)) (fields Examples.Author)
     = true
  /\ exists lines,
       Forall2 (fun entry ls => emitted 0 (fst entry) (snd entry) ls)
         (fields Examples.Author) lines
       /\ generateGraphQLFields Examples.author_models "Author" 0
          = Return (join LF (concat lines))
       /\ nesting (join LF (concat lines)) <= 1.
Proof.
  split; [reflexivity |]. split; [lia |]. split; [reflexivity |].
  destruct (proj2 (generateGraphQLFields_selection_set
                     Examples.author_models "Author" Examples.Author 0
                     eq_refl)
              (le_S 0 0 (le_n 0)))
    as (lines & Hall & Hrun & Hnest).
  exists lines. split; [exact Hall |]. split; [exact Hrun |].
  exact (Hnest eq_refl).
Defined.

(** A field name goes into the text as it is: where a name holds braces
    of its own, they are in the text too, and the nesting of the text is
    theirs. *)
Lemma generateGraphQLFields_copies_names :
  let models : Js.Object Model :=
    [ ("Odd", {| fields := [ ("a{{b", Examples.scalar "String" false) ];
                 attributes := [] |}) ] in
  generateGraphQLFields models "Odd" 0 = Return "a{{b"
  /\ nesting "a{{b" = 2.
Proof. split; reflexivity. Qed.

(** C5 as stated fails: [stories] is a writable array-valued model
    reference of [Author], and the selection set generated for [Author]
    has no projection for it; the field is left out altogether. *)
Lemma generateGraphQLFields_skips_arrays :
  Js.get_own (fields Examples.Author) "stories"
  = Some {| type := ModelRef "Story"; isRequired := false; isArray := true;
            isReadOnly := false; association := None |}
  /\ generateGraphQLFields Examples.author_models "Author" 0
     = Return ("id" ++ LF ++ "status" ++ LF ++ "mentor { id name }")
  /\ includes ("id" ++ LF ++ "status" ++ LF ++ "mentor { id name }") "stories"
     = false.
Proof. repeat split; reflexivity. Qed.

(** C9: [constructor] is no model of the descriptor set, yet the lookup
    [models[modelName]] finds [Object.prototype.constructor]; the guard
    [if (!model)] lets it pass and [Object.entries(model.fields)] throws
    a [TypeError] instead of the generator returning [id]. *)
Theorem generateGraphQLFields_inherited_name
  (models : Js.Object Model) (depth : nat) :
  get_own models "constructor" = None ->
  depth <= 1 ->
  generateGraphQLFields models "constructor" depth
  = Throw (Error "Cannot convert undefined or null to object").
Proof.
  intros Hown Hd. unfold generateGraphQLFields.
  destruct (Nat.ltb_spec 1 depth); [lia |].
  now rewrite (get_inherited _ _ Hown).
Qed.

Lemma generateGraphQLFields_inherited_name_witness :
  get_own (Examples.story_models None) "constructor" = None
  /\ 0 <= 1
  /\ generateGraphQLFields (Examples.story_models None) "constructor" 0
     = Throw (Error "Cannot convert undefined or null to object").
Proof.
  split; [reflexivity |]. split; [lia |].
  apply (generateGraphQLFields_inherited_name (Examples.story_models None) 0);
    [reflexivity | lia].
Defined.

(** ** The relationship listing *)

(** C6 as stated fails: on the descriptor set as the specification
    writes it, the [character] field carries no association, and
    [get-relationships] answers for [Story] that it found none. *)
Lemma get_relationships_story_without_association :
  get_relationships (Examples.story_models None) "Story"
  = Return (text_result "No relationships found for model: Story").
Proof. reflexivity. Qed.

(** C6, as amended: when the [character] field carries an association,
    [get-relationships] lists for [Story] exactly one relationship, of
    field [character] to model [Character], and still answers for
    [Character] that it found none; both are results, not errors. *)
Theorem get_relationships_story_example (assoc : Association) :
  let models := Examples.story_models (Some assoc) in
  let entry :=
    {| rel_fieldName := "character";
       rel_type := Some "Character";
       relationshipType := connectionType assoc;
       rel_associatedWith := join_or_NA (associatedWith assoc);
       rel_targetNames := join_or_NA (targetNames assoc) |} in
  relationships_of (fields (Examples.Story (Some assoc))) = [entry]
  /\ get_relationships models "Story"
     = Return (text_result
                 ("Relationships for Story:" ++ LF ++ LF
                    ++ relationship_text entry))
  /\ get_relationships models "Character"
     = Return (text_result "No relationships found for model: Character").
Proof. repeat split; reflexivity. Qed.

(** ** Names found on the prototype *)

(** C7: [get-model-details] and [get-relationships] guard the lookup
    with [if (!model)] and have no [try]; asked for [constructor], a name
    that is no model, the guard is passed with
    [Object.prototype.constructor] and the [TypeError] of
    [Object.entries(model.fields)] leaves the handler. *)
Theorem model_tools_throw_on_inherited_name (models : Js.Object Model) :
  get_own models "constructor" = None ->
  get_model_details models "constructor"
  = Throw (Error "Cannot convert undefined or null to object")
  /\ get_relationships models "constructor"
     = Throw (Error "Cannot convert undefined or null to object").
Proof.
  intros Hown. unfold get_model_details, get_relationships.
  now rewrite (get_inherited _ _ Hown).
Qed.

Lemma model_tools_throw_on_inherited_name_witness :
  get_own (Examples.story_models None) "constructor" = None
  /\ get_model_details (Examples.story_models None) "constructor"
     = Throw (Error "Cannot convert undefined or null to object")
  /\ get_relationships (Examples.story_models None) "constructor"
     = Throw (Error "Cannot convert undefined or null to object").
Proof.
  split; [reflexivity |].
  apply (model_tools_throw_on_inherited_name (Examples.story_models None)).
  reflexivity.
Defined.

(** For every other name the two handlers, and the two listings, end
    with a text result. *)
Lemma get_model_details_text (models : Js.Object Model) (modelName : string) :
  Js.get models modelName <> Inherited ->
  exists r, get_model_details models modelName = Return r /\ is_text_result r.
Proof.
  intros H. unfold get_model_details.
  destruct (Js.get models modelName); [| congruence |];
    eexists; (split; [reflexivity | eexists; reflexivity]).
Qed.

Lemma get_relationships_text (models : Js.Object Model) (modelName : string) :
  Js.get models modelName <> Inherited ->
  exists r, get_relationships models modelName = Return r /\ is_text_result r.
Proof.
  intros H. unfold get_relationships.
  destruct (Js.get models modelName) as [model | |]; [| congruence |].
  - destruct (length (relationships_of (entries (fields model))) =? 0)%nat;
      eexists; (split; [reflexivity | eexists; reflexivity]).
  - eexists; (split; [reflexivity | eexists; reflexivity]).
Qed.

Lemma list_models_text (models : Js.Object Model) :
  exists r, list_models models = Return r /\ is_text_result r.
Proof.
  unfold list_models. destruct (length (keys models) =? 0)%nat;
    eexists; (split; [reflexivity | eexists; reflexivity]).
Qed.

Lemma list_enums_text (enums : Js.Object Enum) :
  exists r, list_enums enums = Return r /\ is_text_result r.
Proof.
  unfold list_enums. destruct (length (keys enums) =? 0)%nat;
    eexists; (split; [reflexivity | eexists; reflexivity]).
Qed.

(** ** Unfolding the executor and the refresh path *)

Section Steps.
Context {World User : Type}.
Variable rt : Runtime World User.
Variable cfg : Config.

Lemma executeGraphQLQuery_step (fuel : nat) (query : string)
  (variables : Json) (st : State World User) :
  executeGraphQLQuery rt cfg (S fuel) query variables st
  = let auth := authorization_header (idToken (session st)) in
    let st1 := after st (EvFetch auth query variables)
                 (snd (fetch rt auth query variables (world st))) in
    match fst (fetch rt auth query variables (world st)) with
    | Throw e => (Rejected e, st1)
    | Return response =>
        if (status response =? 401)%nat then
          handleAuthRefresh rt cfg fuel query variables st1
        else if negb (ok response) then
          (Rejected (Error ("HTTP error! status: "
                              ++ show_nat (status response))), st1)
        else
          match json response with
          | Throw e => (Rejected e, st1)
          | Return result =>
              if has_auth_error result then
                handleAuthRefresh rt cfg fuel query variables st1
              else (Resolved result, st1)
          end
    end.
Proof.
  cbn [executeGraphQLQuery]. unfold bind, read, call, after. cbn [session].
  destruct (fetch rt _ query variables (world st)) as [[response | e] w];
    cbn [fst snd]; [| reflexivity].
  destruct (status response =? 401)%nat; [reflexivity |].
  destruct (negb (ok response)); [reflexivity |].
  destruct (json response) as [result | e]; cbn [settle]; [| reflexivity].
  unfold ret. destruct (has_auth_error result); reflexivity.
Qed.

Lemma handleAuthRefresh_step (fuel : nat) (query : string)
  (variables : Json) (st : State World User) :
  handleAuthRefresh rt cfg (S fuel) query variables st
  = let st0 := after st EvRefresh (world st) in
    if isAuthInitialized cfg then
      match try_catch (refresh_session rt) (fun _ => relogin rt cfg) st0 with
      | (Resolved _, st1) => executeGraphQLQuery rt cfg fuel query variables st1
      | (Rejected e, st1) => (Rejected e, st1)
      | (Pending, st1) => (Pending, st1)
      end
    else (Rejected (Error "Authentication system not initialized"), st0).
Proof.
  change (handleAuthRefresh rt cfg (S fuel) query variables st)
    with ((emit EvRefresh ;;
           if isAuthInitialized cfg then
             try_catch (refresh_session rt) (fun _ => relogin rt cfg) ;;
             executeGraphQLQuery rt cfg fuel query variables
           else throw (Error "Authentication system not initialized")) st).
  generalize (executeGraphQLQuery rt cfg fuel query variables) as retry.
  intros retry. unfold bind at 1. unfold emit, after.
  destruct (isAuthInitialized cfg); [| reflexivity].
  unfold bind at 1. reflexivity.
Qed.

(** The renewal: two session calls; the token of the second is stored. *)
Lemma refresh_session_step (st : State World User) :
  refresh_session rt st
  = let st1 := after st EvCurrentSession
                 (snd (Auth_currentSession rt (world st))) in
    match fst (Auth_currentSession rt (world st)) with
    | Throw e => (Rejected e, st1)
    | Return _ =>
        let st2 := after st1 EvCurrentSession
                     (snd (Auth_currentSession rt (world st1))) in
        match fst (Auth_currentSession rt (world st1)) with
        | Throw e => (Rejected e, st2)
        | Return token =>
            (Resolved tt, with_session st2 (set_idToken token (session st)))
        end
    end.
Proof.
  unfold refresh_session, bind, call, modify, after, with_session.
  destruct (Auth_currentSession rt (world st)) as [[t1 | e1] w1];
    cbn [fst snd world session trace]; [| reflexivity].
  destruct (Auth_currentSession rt w1) as [[t2 | e2] w2];
    cbn [fst snd world session trace]; reflexivity.
Qed.

Lemma sign_in_step (u p : string) (st : State World User) :
  sign_in rt u p st
  = let st1 := after st (EvSignIn u p) (snd (Auth_signIn rt u p (world st))) in
    match fst (Auth_signIn rt u p (world st)) with
    | Throw e => (Rejected e, st1)
    | Return user =>
        let st2 := after st1 EvCurrentSession
                     (snd (Auth_currentSession rt (world st1))) in
        match fst (Auth_currentSession rt (world st1)) with
        | Throw e =>
            (Rejected e, with_session st2 (set_currentUser user (session st)))
        | Return token =>
            (Resolved tt,
             with_session st2
               (set_idToken token (set_currentUser user (session st))))
        end
    end.
Proof.
  unfold sign_in, bind, call, modify, after, with_session.
  destruct (Auth_signIn rt u p (world st)) as [[user | e1] w1];
    cbn [fst snd world session trace]; [| reflexivity].
  destruct (Auth_currentSession rt w1) as [[t2 | e2] w2];
    cbn [fst snd world session trace]; reflexivity.
Qed.

Lemma relogin_step (st : State World User) :
  relogin rt cfg st
  = match loginUsername cfg st, loginPassword cfg st with
    | Some u, Some p =>
        if truthy u && truthy p then
          match sign_in rt u p st with
          | (Rejected _, st') => (Rejected relogin_failed, st')
          | settled => settled
          end
        else (Rejected no_credentials, st)
    | _, _ => (Rejected no_credentials, st)
    end.
Proof.
  unfold relogin, loginUsername, loginPassword.
  unfold bind at 1. unfold read at 1. unfold bind at 1. unfold read at 1.
  destruct (or_else (storedUsername (session st)) (username cfg)) as [u |];
    [| reflexivity].
  destruct (or_else (storedPassword (session st)) (password cfg)) as [p |];
    [| reflexivity].
  destruct (truthy u && truthy p); reflexivity.
Qed.

End Steps.

(** ** What a run adds to the trace *)

Lemma requests_app (xs ys : list Event) :
  requests (xs ++ ys) = requests xs + requests ys.
Proof. unfold requests. now rewrite filter_app, length_app. Qed.

Lemma refreshes_app (xs ys : list Event) :
  refreshes (xs ++ ys) = refreshes xs + refreshes ys.
Proof. unfold refreshes. now rewrite filter_app, length_app. Qed.

Lemma auth_calls_counts (evs : list Event) :
  forallb is_auth_call evs = true ->
  requests evs = 0 /\ refreshes evs = 0
  /\ forall query variables, Forall (same_request query variables) evs.
Proof.
  induction evs as [| ev evs IH]; intros H.
  - repeat split. constructor.
  - simpl in H. apply andb_prop in H as [Hev Hevs].
    destruct (IH Hevs) as (Hr & Hf & Hs).
    destruct ev; try discriminate; unfold requests, refreshes in *; simpl;
      (repeat split; auto; intros; constructor; [exact I | apply Hs]).
Qed.

Section Traces.
Context {World User : Type}.
Variable rt : Runtime World User.
Variable cfg : Config.

Lemma refresh_session_trace (st : State World User) :
  exists evs,
    trace (snd (refresh_session rt st)) = (trace st ++ evs)%list
    /\ forallb is_auth_call evs = true.
Proof.
  rewrite refresh_session_step. cbn zeta.
  destruct (fst (Auth_currentSession rt (world st))).
  - destruct (fst (Auth_currentSession rt _)); cbn [snd trace after with_session];
      exists [EvCurrentSession; EvCurrentSession];
      now rewrite <- app_assoc.
  - exists [EvCurrentSession]. split; reflexivity.
Qed.

Lemma sign_in_trace (u p : string) (st : State World User) :
  exists evs,
    trace (snd (sign_in rt u p st)) = (trace st ++ evs)%list
    /\ forallb is_auth_call evs = true.
Proof.
  rewrite sign_in_step. cbn zeta.
  destruct (fst (Auth_signIn rt u p (world st))).
  - destruct (fst (Auth_currentSession rt _)); cbn [snd trace after with_session];
      exists [EvSignIn u p; EvCurrentSession];
      now rewrite <- app_assoc.
  - exists [EvSignIn u p]. split; reflexivity.
Qed.

Lemma relogin_trace (st : State World User) :
  exists evs,
    trace (snd (relogin rt cfg st)) = (trace st ++ evs)%list
    /\ forallb is_auth_call evs = true.
Proof.
  rewrite relogin_step.
  assert (Hnone : exists evs, trace st = (trace st ++ evs)%list
                              /\ forallb is_auth_call evs = true)
    by (exists []; now rewrite app_nil_r).
  destruct (loginUsername cfg st) as [u |]; [| exact Hnone].
  destruct (loginPassword cfg st) as [p |]; [| exact Hnone].
  destruct (truthy u && truthy p); [| exact Hnone].
  destruct (sign_in_trace u p st) as (evs & Ht & Hq).
  exists evs. split; [| exact Hq].
  destruct (sign_in rt u p st) as [[? | ? |] st']; exact Ht.
Qed.

(** The renewal with its fallback logs calls to the identity provider
    only. *)
Lemma renew_or_relogin_trace (st : State World User) :
  exists evs,
    trace (snd (try_catch (refresh_session rt) (fun _ => relogin rt cfg) st))
    = (trace st ++ evs)%list
    /\ forallb is_auth_call evs = true.
Proof.
  unfold try_catch.
  destruct (refresh_session_trace st) as (evs1 & Ht1 & Hq1).
  destruct (refresh_session rt st) as [[[] | e |] st1]; cbn [snd] in *;
    try (exists evs1; now split).
  destruct (relogin_trace st1) as (evs2 & Ht2 & Hq2).
  exists (evs1 ++ evs2)%list. split.
  - now rewrite Ht2, Ht1, app_assoc.
  - rewrite forallb_app. now rewrite Hq1, Hq2.
Qed.

Lemma executor_and_refresh_add (query : string) (variables : Json)
  (fuel : nat) :
  (forall st, exists evs,
      trace (snd (executeGraphQLQuery rt cfg fuel query variables st))
      = (trace st ++ evs)%list
      /\ executor_adds query variables
           (fst (executeGraphQLQuery rt cfg fuel query variables st)) evs)
  /\ (forall st, exists evs,
      trace (snd (handleAuthRefresh rt cfg fuel query variables st))
      = (trace st ++ evs)%list
      /\ refresh_adds query variables
           (fst (handleAuthRefresh rt cfg fuel query variables st)) evs).
Proof.
  induction fuel as [| fuel [IHexec IHrefresh]].
  - split; intros st; exists []; cbn; rewrite app_nil_r;
      (split; [reflexivity |]);
      (split; [constructor | split; [cbn; lia | discriminate]]).
  - split; intros st.
    + rewrite executeGraphQLQuery_step. cbn zeta.
      set (auth := authorization_header (idToken (session st))).
      set (st1 := after st (EvFetch auth query variables) _).
      assert (Hone : exists evs,
                 trace st1 = (trace st ++ evs)%list
                 /\ forall out,
                      (forall result, out = Resolved result -> True) ->
                      executor_adds query variables out evs).
      { exists [EvFetch auth query variables]. split; [reflexivity |].
        intros out _. split; [| split].
        - constructor; [now split | constructor].
        - cbn. lia.
        - reflexivity. }
      assert (Hretry : exists evs,
                 trace (snd (handleAuthRefresh rt cfg fuel query variables st1))
                 = (trace st ++ evs)%list
                 /\ executor_adds query variables
                      (fst (handleAuthRefresh rt cfg fuel query variables st1))
                      evs).
      { destruct (IHrefresh st1) as (evs & Ht & Hsame & Hcount & Hres).
        exists (EvFetch auth query variables :: evs). split.
        - rewrite Ht. subst st1. cbn [trace after].
          now rewrite <- app_assoc.
        - split; [| split].
          + constructor; [now split | exact Hsame].
          + change (EvFetch auth query variables :: evs)
              with ([EvFetch auth query variables] ++ evs)%list.
            rewrite requests_app, refreshes_app. cbn. lia.
          + intros result Hr. specialize (Hres result Hr).
            change (EvFetch auth query variables :: evs)
              with ([EvFetch auth query variables] ++ evs)%list.
            rewrite requests_app, refreshes_app. cbn. lia. }
      destruct Hone as (evs1 & Ht1 & Hadds1).
      destruct (fst (fetch rt auth query variables (world st)))
        as [response | e].
      * destruct (status response =? 401)%nat; [exact Hretry |].
        destruct (negb (ok response)).
        { exists evs1. split; [exact Ht1 | now apply Hadds1]. }
        destruct (json response) as [result | e].
        -- destruct (has_auth_error result); [exact Hretry |].
           exists evs1. split; [exact Ht1 | now apply Hadds1].
        -- exists evs1. split; [exact Ht1 | now apply Hadds1].
      * exists evs1. split; [exact Ht1 | now apply Hadds1].
    + rewrite handleAuthRefresh_step. cbn zeta.
      set (st0 := after st EvRefresh (world st)).
      destruct (isAuthInitialized cfg).
      * destruct (renew_or_relogin_trace st0) as (evs1 & Ht1 & Hq1).
        destruct (auth_calls_counts evs1 Hq1) as (Hr1 & Hf1 & Hs1).
        destruct (try_catch (refresh_session rt) (fun _ => relogin rt cfg) st0)
          as [[[] | e |] st1]; cbn [snd] in Ht1.
        -- destruct (IHexec st1) as (evs & Ht & Hsame & Hcount & Hres).
           exists (EvRefresh :: evs1 ++ evs)%list. split.
           ++ rewrite Ht, Ht1. subst st0. cbn [trace after].
              now rewrite <- !app_assoc.
           ++ change (EvRefresh :: evs1 ++ evs)%list
                with ([EvRefresh] ++ evs1 ++ evs)%list.
              split; [| split].
              ** apply Forall_app. split; [repeat constructor |].
                 apply Forall_app. split; [apply Hs1 | exact Hsame].
              ** rewrite !requests_app, !refreshes_app, Hr1, Hf1. cbn. lia.
              ** intros result Hr. specialize (Hres result Hr).
                 rewrite !requests_app, !refreshes_app, Hr1, Hf1. cbn. lia.
        -- exists (EvRefresh :: evs1). split.
           ++ cbn [snd]. rewrite Ht1. subst st0. cbn [trace after].
              now rewrite <- app_assoc.
           ++ change (EvRefresh :: evs1) with ([EvRefresh] ++ evs1)%list.
              cbn [fst]. split; [| split].
              ** apply Forall_app. split; [repeat constructor | apply Hs1].
              ** rewrite !requests_app, !refreshes_app, Hr1, Hf1. cbn. lia.
              ** discriminate.
        -- exists (EvRefresh :: evs1). split.
           ++ cbn [snd]. rewrite Ht1. subst st0. cbn [trace after].
              now rewrite <- app_assoc.
           ++ change (EvRefresh :: evs1) with ([EvRefresh] ++ evs1)%list.
              cbn [fst]. split; [| split].
              ** apply Forall_app. split; [repeat constructor | apply Hs1].
              ** rewrite !requests_app, !refreshes_app, Hr1, Hf1. cbn. lia.
              ** discriminate.
      * exists [EvRefresh]. split; [reflexivity |]. cbn [fst].
        split; [repeat constructor | split; [cbn; lia | discriminate]].
Qed.

End Traces.

(** ** Refresh and retry *)

(** C1 as stated fails: the endpoint answers 401 twice and then 200,
    the identity provider renews the session each time.  The executor
    calls the refresh path twice and sends the request three times, and
    the second authentication failure does not end the call: it ends
    with the body of the third answer. *)
Lemma executeGraphQLQuery_refreshes_twice :
  let st :=
    Examples.start (Examples.signed_in "user" "stale" "u" "p")
      {| Examples.fetches :=
           [ Return Examples.unauthorized; Return Examples.unauthorized;
             Return (Examples.success JNull) ];
         Examples.sessions :=
           [ Return "t1"; Return "t2"; Return "t3"; Return "t4" ];
         Examples.signIns := [] |} in
  let run :=
    executeGraphQLQuery Examples.scripted Examples.cognito 5 "q" (JObject [])
      st in
  fst run = Resolved {| data := JNull; errors := None |}
  /\ refreshes (trace (snd run)) = 2
  /\ requests (trace (snd run)) = 3.
Proof. repeat split; reflexivity. Qed.

(** No bound on the rounds: against an endpoint that answers 401 to
    everything while the session is renewed every time, the executor
    is still not done after any number of steps, and after [2 * n] steps
    it has sent [n] requests and gone through [n] refreshes. *)
Lemma executeGraphQLQuery_unbounded (query : string) (variables : Json)
  (n : nat) (st : State unit string) :
  let run :=
    executeGraphQLQuery Examples.always_401 Examples.cognito (2 * n)
      query variables st in
  fst run = Pending
  /\ exists evs,
       trace (snd run) = (trace st ++ evs)%list
       /\ requests evs = n /\ refreshes evs = n.
Proof.
  revert st. induction n as [| n IH]; intros st.
  - cbn. split; [reflexivity |]. exists []. now rewrite app_nil_r.
  - replace (2 * S n) with (S (S (2 * n))) by lia.
    cbn zeta. rewrite executeGraphQLQuery_step. cbn zeta.
    cbn [fst snd Examples.always_401 fetch status Examples.unauthorized
           Nat.eqb].
    rewrite handleAuthRefresh_step. cbn zeta.
    cbn [isAuthInitialized Examples.cognito].
    unfold try_catch. rewrite refresh_session_step. cbn zeta.
    cbn [fst snd Examples.always_401 Auth_currentSession].
    set (st1 := with_session _ _).
    destruct (IH st1) as (Hp & evs & Ht & Hr & Hf).
    split; [exact Hp |].
    exists ([EvFetch (authorization_header (idToken (session st)))
               query variables;
             EvRefresh; EvCurrentSession; EvCurrentSession] ++ evs)%list.
    split; [| split].
    + rewrite Ht. subst st1. cbn [trace with_session after].
      now rewrite <- !app_assoc.
    + rewrite requests_app, Hr. reflexivity.
    + rewrite refreshes_app, Hf. reflexivity.
Qed.

(** ** Classification of responses *)

Lemma prefix_spec (p s : string) :
  prefix p s = true <-> exists rest, s = p ++ rest.
Proof.
  revert s. induction p as [| a p IH]; intros s.
  - split; [intros _; now exists s | intros _; now destruct s].
  - destruct s as [| b s]; simpl.
    + split; [discriminate | intros (rest & H); discriminate].
    + destruct (ascii_dec a b) as [-> | Hab].
      * rewrite IH. split; intros (rest & H); exists rest; congruence.
      * split; [discriminate | intros (rest & H); congruence].
Qed.

Lemma includes_spec (s needle : string) :
  includes s needle = true <-> contains s needle.
Proof.
  unfold includes, contains. induction s as [| c s IH].
  - simpl. destruct needle as [| a needle].
    + split; [intros _; now exists "", "" | reflexivity].
    + split; [discriminate |].
      intros ([| ? ?] & rest & H); discriminate.
  - cbn [String.index].
    destruct (prefix needle (String c s)) eqn:Hp.
    + split; [intros _ | reflexivity].
      apply prefix_spec in Hp as (rest & Hr). now exists "", rest.
    + destruct (String.index 0 needle s) as [n |].
      * split; [intros _ | reflexivity].
        destruct (proj1 IH eq_refl) as (before & rest & Hs).
        exists (String c before), rest. simpl. now rewrite Hs.
      * split; [discriminate |].
        intros ([| b before] & rest & Hs).
        -- assert (prefix needle (String c s) = true)
             by (apply prefix_spec; now exists rest).
           congruence.
        -- simpl in Hs. injection Hs as _ Hs.
           assert (false = true); [| discriminate].
           apply IH. now exists before, rest.
Qed.

Lemma is_auth_error_spec (e : GraphQLError) :
  is_auth_error e = true
  <-> errorType e = Some "UnauthorizedException"
      \/ (exists m, message e = Some m /\ contains m "Authentication failed")
      \/ (exists m, message e = Some m /\ contains m "token is expired").
Proof.
  unfold is_auth_error, message_includes.
  rewrite !orb_true_iff. split.
  - intros [[Ht | Hm] | Hm].
    + left. destruct (errorType e) as [t |]; [| discriminate].
      apply String.eqb_eq in Ht. now subst.
    + right; left. destruct (message e) as [m |]; [| discriminate].
      exists m. split; [reflexivity | now apply includes_spec].
    + right; right. destruct (message e) as [m |]; [| discriminate].
      exists m. split; [reflexivity | now apply includes_spec].
  - intros [Ht | [(m & Hm & Hc) | (m & Hm & Hc)]].
    + left; left. now rewrite Ht.
    + left; right. rewrite Hm. now apply includes_spec.
    + right. rewrite Hm. now apply includes_spec.
Qed.

Lemma has_auth_error_spec (result : GraphQLResult) :
  has_auth_error result = true <-> payload_has_auth_error result.
Proof.
  unfold has_auth_error, payload_has_auth_error.
  destruct (errors result) as [es |].
  - rewrite existsb_exists. split.
    + intros (e & Hin & He). exists es, e.
      repeat split; auto. now apply is_auth_error_spec.
    + intros (es' & e & Hes & Hin & He). injection Hes as <-.
      exists e. split; [exact Hin | now apply is_auth_error_spec].
  - split; [discriminate | intros (es & e & H & _); discriminate].
Qed.

Lemma auth_failure_dec (response : Response) :
  {auth_failure response} + {~ auth_failure response}.
Proof.
  unfold auth_failure.
  destruct (Nat.eq_dec (status response) 401) as [H401 | H401];
    [left; now left |].
  destruct (ok response) eqn:Hok.
  - destruct (json response) as [result | e] eqn:Hjson.
    + destruct (has_auth_error result) eqn:Hauth.
      * left. right. split; [reflexivity |]. exists result.
        split; [reflexivity | now apply has_auth_error_spec].
      * right. intros [H | (_ & result' & Hr & Hp)]; [contradiction |].
        injection Hr as <-. apply has_auth_error_spec in Hp. congruence.
    + right. intros [H | (_ & result' & Hr & _)];
        [contradiction | discriminate].
  - right. intros [H | (H & _)]; [contradiction | discriminate].
Qed.

Section Classification.
Context {World User : Type}.
Variable rt : Runtime World User.
Variable cfg : Config.

(** An entered refresh path leaves its mark: it cannot end in the state
    it started from with anything but [Pending]. *)
Lemma handleAuthRefresh_not_silent (fuel : nat) (query : string)
  (variables : Json) (st : State World User) (out : Outcome GraphQLResult) :
  handleAuthRefresh rt cfg fuel query variables st = (out, st) ->
  out = Pending.
Proof.
  intros Hrun. destruct fuel as [| fuel].
  - cbn in Hrun. unfold pending in Hrun. congruence.
  - destruct (executor_and_refresh_add rt cfg query variables (S fuel))
      as [_ Hrefresh].
    destruct (Hrefresh st) as (evs & Ht & _ & Hcount & _).
    rewrite Hrun in Ht. cbn [snd] in Ht.
    assert (Hevs : evs = []).
    { apply (f_equal (@length Event)) in Ht. rewrite length_app in Ht.
      destruct evs; [reflexivity | simpl in Ht; lia]. }
    subst evs. exfalso.
    rewrite handleAuthRefresh_step in Hrun. cbn zeta in Hrun.
    destruct (isAuthInitialized cfg).
    + destruct (renew_or_relogin_trace rt cfg (after st EvRefresh (world st)))
        as (evs1 & Ht1 & _).
      destruct (try_catch (refresh_session rt) (fun _ => relogin rt cfg)
                  (after st EvRefresh (world st))) as [[[] | e |] st1];
        cbn [snd] in Ht1.
      * destruct (executor_and_refresh_add rt cfg query variables fuel)
          as [Hexec _].
        destruct (Hexec st1) as (evs2 & Ht2 & _).
        rewrite Hrun in Ht2. cbn [snd] in Ht2.
        rewrite Ht1 in Ht2. cbn [trace after] in Ht2.
        apply (f_equal (@length Event)) in Ht2.
        rewrite !length_app in Ht2. simpl in Ht2. lia.
      * injection Hrun as _ Hst. subst st1. cbn [trace after] in Ht1.
        apply (f_equal (@length Event)) in Ht1.
        rewrite !length_app in Ht1. simpl in Ht1. lia.
      * injection Hrun as _ Hst. subst st1. cbn [trace after] in Ht1.
        apply (f_equal (@length Event)) in Ht1.
        rewrite !length_app in Ht1. simpl in Ht1. lia.
    + injection Hrun as _ Hst.
      apply (f_equal trace) in Hst. cbn [trace after] in Hst.
      apply (f_equal (@length Event)) in Hst.
      rewrite length_app in Hst. simpl in Hst. lia.
Qed.

(** C3: once the endpoint has answered, the executor hands the request
    to the refresh path exactly when the status is 401 or the parsed
    payload (of a success) holds an error of type [UnauthorizedException]
    or with a message containing one of the two texts.  Any other
    status outside 200..299 ends the call with [HTTP error! status: n];
    the one request is all that was sent. *)
Theorem executeGraphQLQuery_classification (fuel : nat) (query : string)
  (variables : Json) (st : State World User) :
  let auth := authorization_header (idToken (session st)) in
  let answer := fetch rt auth query variables (world st) in
  let st1 := after st (EvFetch auth query variables) (snd answer) in
  let run := executeGraphQLQuery rt cfg (S fuel) query variables st in
  forall response, fst answer = Return response ->
    (run = handleAuthRefresh rt cfg fuel query variables st1
     <-> auth_failure response)
    /\ (status response <> 401 -> ok response = false ->
        run = (Rejected (Error ("HTTP error! status: "
                                  ++ show_nat (status response))), st1)
        /\ trace (snd run)
           = (trace st ++ [EvFetch auth query variables])%list).
Proof.
  intros auth answer st1 run response Hanswer.
  assert (Hrun : run
    = if (status response =? 401)%nat then
        handleAuthRefresh rt cfg fuel query variables st1
      else if negb (ok response) then
        (Rejected (Error ("HTTP error! status: "
                            ++ show_nat (status response))), st1)
      else
        match json response with
        | Throw e => (Rejected e, st1)
        | Return result =>
            if has_auth_error result then
              handleAuthRefresh rt cfg fuel query variables st1
            else (Resolved result, st1)
        end).
  { subst run. rewrite executeGraphQLQuery_step. cbn zeta.
    fold auth. fold answer. now rewrite Hanswer. }
  split.
  - split.
    + intros Hhand.
      destruct (auth_failure_dec response) as [Hyes | Hno]; [exact Hyes |].
      exfalso. rewrite Hrun in Hhand.
      destruct (Nat.eqb_spec (status response) 401) as [H401 | H401].
      { apply Hno. now left. }
      destruct (ok response) eqn:Hok; cbn [negb] in Hhand.
      * destruct (json response) as [result | e] eqn:Hjson.
        -- destruct (has_auth_error result) eqn:Hauth.
           { apply Hno. right. split; [exact Hok |]. exists result.
             split; [exact Hjson | now apply has_auth_error_spec]. }
           symmetry in Hhand.
           apply handleAuthRefresh_not_silent in Hhand. discriminate.
        -- symmetry in Hhand.
           apply handleAuthRefresh_not_silent in Hhand. discriminate.
      * symmetry in Hhand.
        apply handleAuthRefresh_not_silent in Hhand. discriminate.
    + intros [H401 | (Hok & result & Hjson & Hp)]; rewrite Hrun.
      * now rewrite H401.
      * destruct (status response =? 401)%nat; [reflexivity |].
        rewrite Hok, Hjson. cbn [negb].
        now rewrite (proj2 (has_auth_error_spec result) Hp).
  - intros H401 Hok. rewrite Hrun.
    destruct (Nat.eqb_spec (status response) 401); [contradiction |].
    rewrite Hok. cbn [negb]. split; reflexivity.
Qed.

End Classification.

Lemma executeGraphQLQuery_classification_witness :
  let st :=
    Examples.start Examples.signed_out
      {| Examples.fetches :=
           [ Return {| status := 500;
                       json := Return {| data := JNull; errors := None |} |} ];
         Examples.sessions := []; Examples.signIns := [] |} in
  executeGraphQLQuery Examples.scripted Examples.cognito 3 "q" (JObject []) st
  = (Rejected (Error "HTTP error! status: 500"),
     {| session := Examples.signed_out;
        world := {| Examples.fetches := []; Examples.sessions := [];
                    Examples.signIns := [] |};
        trace := [EvFetch None "q" (JObject [])] |}).
Proof.
  intros st.
  exact (proj1 (proj2 (executeGraphQLQuery_classification
                         Examples.scripted Examples.cognito 2 "q" (JObject [])
                         st _ eq_refl)
                  ltac:(discriminate) eq_refl)).
Defined.

(** ** Rounds of refresh and retry *)

Lemma alternate_auth_calls (due : bool) (evs rest : list Event) :
  forallb is_auth_call evs = true ->
  alternate due (evs ++ rest) = alternate due rest.
Proof.
  induction evs as [| ev evs IH]; intros H; [reflexivity |].
  simpl in H. apply andb_prop in H as [Hev Hevs].
  destruct ev; try discriminate; simpl; now apply IH.
Qed.

Section Rounds.
Context {World User : Type}.
Variable rt : Runtime World User.
Variable cfg : Config.

(** The executor starts with a request, the refresh path with a
    refresh, and from there the two take turns. *)
Lemma executor_and_refresh_alternate (query : string) (variables : Json)
  (fuel : nat) :
  (forall st, exists evs,
      trace (snd (executeGraphQLQuery rt cfg fuel query variables st))
      = (trace st ++ evs)%list
      /\ alternate true evs = true)
  /\ (forall st, exists evs,
      trace (snd (handleAuthRefresh rt cfg fuel query variables st))
      = (trace st ++ evs)%list
      /\ alternate false evs = true).
Proof.
  induction fuel as [| fuel [IHexec IHrefresh]].
  - split; intros st; exists []; cbn; rewrite app_nil_r; split; reflexivity.
  - split; intros st.
    + rewrite executeGraphQLQuery_step. cbn zeta.
      set (auth := authorization_header (idToken (session st))).
      set (st1 := after st (EvFetch auth query variables) _).
      assert (Hone : exists evs,
                 trace st1 = (trace st ++ evs)%list
                 /\ alternate true evs = true)
        by (exists [EvFetch auth query variables]; split; reflexivity).
      assert (Hretry : exists evs,
                 trace (snd (handleAuthRefresh rt cfg fuel query variables st1))
                 = (trace st ++ evs)%list
                 /\ alternate true evs = true).
      { destruct (IHrefresh st1) as (evs & Ht & Halt).
        exists (EvFetch auth query variables :: evs). split.
        - rewrite Ht. subst st1. cbn [trace after].
          now rewrite <- app_assoc.
        - cbn [alternate andb]. exact Halt. }
      destruct (fst (fetch rt auth query variables (world st)))
        as [response | e]; [| exact Hone].
      destruct (status response =? 401)%nat; [exact Hretry |].
      destruct (negb (ok response)); [exact Hone |].
      destruct (json response) as [result | e]; [| exact Hone].
      destruct (has_auth_error result); [exact Hretry | exact Hone].
    + rewrite handleAuthRefresh_step. cbn zeta.
      set (st0 := after st EvRefresh (world st)).
      destruct (isAuthInitialized cfg);
        [| exists [EvRefresh]; split; reflexivity].
      destruct (renew_or_relogin_trace rt cfg st0) as (evs1 & Ht1 & Hq1).
      destruct (try_catch (refresh_session rt) (fun _ => relogin rt cfg) st0)
        as [[[] | e |] st1]; cbn [snd] in Ht1.
      * destruct (IHexec st1) as (evs & Ht & Halt).
        exists (EvRefresh :: evs1 ++ evs)%list. split.
        -- rewrite Ht, Ht1. subst st0. cbn [trace after].
           now rewrite <- !app_assoc.
        -- cbn [alternate negb andb].
           now rewrite (alternate_auth_calls true evs1 evs Hq1).
      * exists (EvRefresh :: evs1). split.
        -- cbn [snd]. rewrite Ht1. subst st0. cbn [trace after].
           now rewrite <- app_assoc.
        -- cbn [alternate negb andb].
           rewrite <- (app_nil_r evs1).
           now rewrite (alternate_auth_calls true evs1 [] Hq1).
      * exists (EvRefresh :: evs1). split.
        -- cbn [snd]. rewrite Ht1. subst st0. cbn [trace after].
           now rewrite <- app_assoc.
        -- cbn [alternate negb andb].
           rewrite <- (app_nil_r evs1).
           now rewrite (alternate_auth_calls true evs1 [] Hq1).
Qed.

(** Whatever comes of it, a call of the executor begins by sending the
    request with the token it holds. *)
Lemma executeGraphQLQuery_first_request (fuel : nat) (query : string)
  (variables : Json) (st : State World User) :
  exists evs,
    trace (snd (executeGraphQLQuery rt cfg (S fuel) query variables st))
    = (trace st
       ++ EvFetch (authorization_header (idToken (session st))) query
            variables :: evs)%list.
Proof.
  rewrite executeGraphQLQuery_step. cbn zeta.
  set (auth := authorization_header (idToken (session st))).
  set (st1 := after st (EvFetch auth query variables) _).
  assert (Hone : exists evs,
             trace st1
             = (trace st ++ EvFetch auth query variables :: evs)%list)
    by (exists []; reflexivity).
  assert (Hretry : exists evs,
             trace (snd (handleAuthRefresh rt cfg fuel query variables st1))
             = (trace st ++ EvFetch auth query variables :: evs)%list).
  { destruct (executor_and_refresh_add rt cfg query variables fuel)
      as [_ Hrefresh].
    destruct (Hrefresh st1) as (evs & Ht & _).
    exists evs. rewrite Ht. subst st1. cbn [trace after].
    now rewrite <- app_assoc. }
  destruct (fst (fetch rt auth query variables (world st)))
    as [response | e]; [| exact Hone].
  destruct (status response =? 401)%nat; [exact Hretry |].
  destruct (negb (ok response)); [exact Hone |].
  destruct (json response) as [result | e]; [| exact Hone].
  destruct (has_auth_error result); [exact Hretry | exact Hone].
Qed.

End Rounds.

(** Against [n_failures n] the executor goes through [n] refreshes and
    returns the body of request [n + 1]. *)
Lemma n_failures_rounds (query : string) (variables : Json) (n : nat) :
  forall st : State Examples.Script string,
    Examples.fetches (world st)
    = (repeat (Return Examples.unauthorized) n
         ++ [Return (Examples.success JNull)])%list ->
    Examples.sessions (world st) = repeat (Return "renewed") (n + n) ->
    exists evs,
      fst (executeGraphQLQuery Examples.scripted Examples.cognito (2 * n + 1)
             query variables st)
      = Resolved {| data := JNull; errors := None |}
      /\ trace (snd (executeGraphQLQuery Examples.scripted Examples.cognito
                       (2 * n + 1) query variables st))
         = (trace st ++ evs)%list
      /\ requests evs = n + 1 /\ refreshes evs = n.
Proof.
  induction n as [| n IH]; intros st Hf Hs.
  - cbn [Nat.mul Nat.add]. rewrite executeGraphQLQuery_step. cbn zeta.
    cbn [Examples.scripted fetch]. rewrite Hf. cbn.
    eexists. repeat split.
  - replace (2 * S n + 1) with (S (S (2 * n + 1))) by lia.
    rewrite executeGraphQLQuery_step. cbn zeta.
    cbn [Examples.scripted fetch]. rewrite Hf.
    cbn [repeat app fst snd status Examples.unauthorized Nat.eqb].
    rewrite handleAuthRefresh_step. cbn zeta.
    cbn [isAuthInitialized Examples.cognito].
    unfold try_catch. rewrite refresh_session_step. cbn zeta.
    cbn [Examples.scripted Auth_currentSession after world
           Examples.sessions Examples.fetches Examples.signIns].
    rewrite Hs. rewrite Nat.add_succ_r.
    cbn [Nat.add repeat fst snd Examples.sessions Examples.fetches
           Examples.signIns].
    set (st1 := with_session _ _).
    destruct (IH st1) as (evs & Hres & Ht & Hr & Hq);
      [reflexivity | reflexivity |].
    exists ([EvFetch (authorization_header (idToken (session st)))
               query variables;
             EvRefresh; EvCurrentSession; EvCurrentSession] ++ evs)%list.
    split; [exact Hres |]. split; [| split].
    + rewrite Ht. subst st1. cbn [trace with_session after].
      now rewrite <- !app_assoc.
    + rewrite requests_app, Hr. reflexivity.
    + rewrite refreshes_app, Hq. reflexivity.
Qed.

(** C1, as amended.  Whatever the endpoint and the identity provider
    answer: (1) a response that is an authentication failure makes the
    executor call the refresh path, in the state the request left;
    (2) a refresh whose renewal or re-login succeeds calls the executor
    again, which sends the same query and variables with the token then
    held, while a refresh that fails ends the call with its error in the
    state the attempt left; (3) so every request of a call carries the
    same query and variables, requests and refreshes take turns starting
    with a request, there are never more refreshes than requests, at
    most one request more, and exactly one more when the call returns a
    body; (4) nothing bounds the rounds: for every [n] there is a run
    that goes through [n] refreshes and returns the body of request
    [n + 1]. *)
Theorem executeGraphQLQuery_one_refresh_per_failure
  {World User : Type} (rt : Runtime World User) (cfg : Config)
  (query : string) (variables : Json) :
  (forall fuel st response,
      let auth := authorization_header (idToken (session st)) in
      let answer := fetch rt auth query variables (world st) in
      fst answer = Return response ->
      auth_failure response ->
      executeGraphQLQuery rt cfg (S fuel) query variables st
      = handleAuthRefresh rt cfg fuel query variables
          (after st (EvFetch auth query variables) (snd answer)))
  /\ (forall fuel st,
         let renewal :=
           try_catch (refresh_session rt) (fun _ => relogin rt cfg)
             (after st EvRefresh (world st)) in
         isAuthInitialized cfg = true ->
         (fst renewal = Resolved tt ->
          handleAuthRefresh rt cfg (S fuel) query variables st
          = executeGraphQLQuery rt cfg fuel query variables (snd renewal)
          /\ exists evs,
               trace (snd (handleAuthRefresh rt cfg (S (S fuel)) query
                             variables st))
               = (trace (snd renewal)
                  ++ EvFetch
                       (authorization_header (idToken (session (snd renewal))))
                       query variables :: evs)%list)
         /\ (forall e,
                fst renewal = Rejected e ->
                handleAuthRefresh rt cfg (S fuel) query variables st
                = (Rejected e, snd renewal)))
  /\ (forall fuel st,
         exists evs,
           trace (snd (executeGraphQLQuery rt cfg fuel query variables st))
           = (trace st ++ evs)%list
           /\ Forall (same_request query variables) evs
           /\ alternate true evs = true
           /\ refreshes evs <= requests evs <= refreshes evs + 1
           /\ (forall result,
                  fst (executeGraphQLQuery rt cfg fuel query variables st)
                  = Resolved result ->
                  requests evs = refreshes evs + 1))
  /\ (forall n s,
         let run :=
           executeGraphQLQuery Examples.scripted Examples.cognito (2 * n + 1)
             query variables (Examples.start s (n_failures n)) in
         fst run = Resolved {| data := JNull; errors := None |}
         /\ requests (trace (snd run)) = n + 1
         /\ refreshes (trace (snd run)) = n).
Proof.
  split; [| split; [| split]].
  - intros fuel st response auth answer Hanswer Hfail.
    rewrite executeGraphQLQuery_step. cbn zeta.
    fold auth. fold answer. rewrite Hanswer.
    destruct Hfail as [H401 | (Hok & result & Hjson & Hp)].
    + now rewrite H401.
    + destruct (status response =? 401)%nat; [reflexivity |].
      rewrite Hok, Hjson. cbn [negb].
      now rewrite (proj2 (has_auth_error_spec result) Hp).
  - intros fuel st renewal Hinit.
    assert (Hstep : forall fuel',
      handleAuthRefresh rt cfg (S fuel') query variables st
      = match renewal with
        | (Resolved _, st1) =>
            executeGraphQLQuery rt cfg fuel' query variables st1
        | (Rejected e, st1) => (Rejected e, st1)
        | (Pending, st1) => (Pending, st1)
        end).
    { intros fuel'. rewrite handleAuthRefresh_step. cbn zeta.
      now rewrite Hinit. }
    split.
    + intros Hdone.
      assert (Hretry : forall fuel',
        handleAuthRefresh rt cfg (S fuel') query variables st
        = executeGraphQLQuery rt cfg fuel' query variables (snd renewal)).
      { intros fuel'. rewrite Hstep.
        destruct renewal as [[[] | e |] st1]; cbn [fst snd] in *;
          congruence || reflexivity. }
      split; [apply Hretry |]. rewrite Hretry.
      apply executeGraphQLQuery_first_request.
    + intros e Hfailed. rewrite Hstep.
      destruct renewal as [[[] | e' |] st1]; cbn [fst snd] in *;
        congruence.
  - intros fuel st.
    destruct (executor_and_refresh_add rt cfg query variables fuel)
      as [Hexec _].
    destruct (Hexec st) as (evs & Ht & Hsame & Hcount & Hres).
    destruct (executor_and_refresh_alternate rt cfg query variables fuel)
      as [Halt _].
    destruct (Halt st) as (evs' & Ht' & Hturns).
    assert (evs' = evs) as ->
      by (apply (app_inv_head (trace st)); congruence).
    exists evs. auto.
  - intros n s run. subst run.
    destruct (n_failures_rounds query variables n
                (Examples.start s (n_failures n)) eq_refl eq_refl)
      as (evs & Hres & Ht & Hr & Hq).
    rewrite Ht. cbn [Examples.start trace app]. auto.
Qed.

Lemma executeGraphQLQuery_one_refresh_per_failure_witness :
  let st :=
    Examples.start (Examples.signed_in "user" "stale" "u" "p")
      (n_failures 1) in
  let answer :=
    fetch Examples.scripted (Some "stale") "q" (JObject []) (world st) in
  fst answer = Return Examples.unauthorized
  /\ auth_failure Examples.unauthorized
  /\ executeGraphQLQuery Examples.scripted Examples.cognito 3 "q"
       (JObject []) st
     = handleAuthRefresh Examples.scripted Examples.cognito 2 "q"
         (JObject [])
         (after st (EvFetch (Some "stale") "q" (JObject [])) (snd answer)).
Proof.
  intros st answer. split; [reflexivity |].
  split; [left; reflexivity |].
  exact (proj1 (executeGraphQLQuery_one_refresh_per_failure
                  Examples.scripted Examples.cognito "q" (JObject []))
           2 st Examples.unauthorized eq_refl (or_introl eq_refl)).
Defined.

(** ** The login tool *)

Section Login.
Context {World User : Type}.
Variable rt : Runtime World User.
Variable cfg : Config.

Lemma login_step (u p : string) (st : State World User) :
  login rt cfg u p st
  = if negb (isAuthInitialized cfg) then
      (Resolved (text_result "Error: Cognito authentication is not configured"),
       st)
    else
      match sign_in rt u p st with
      | (Resolved _, st') =>
          (Resolved (text_result ("Successfully logged in as " ++ u)),
           with_session st'
             (set_storedPassword p (set_storedUsername u (session st'))))
      | (Rejected e, st') =>
          (Resolved (text_result ("Login failed: " ++ describe e)), st')
      | (Pending, st') => (Pending, st')
      end.
Proof.
  unfold login. destruct (negb (isAuthInitialized cfg)); [reflexivity |].
  rewrite sign_in_step. cbn zeta.
  unfold try_catch, bind, call, modify, ret, after, with_session.
  destruct (Auth_signIn rt u p (world st)) as [[user | e1] w1];
    cbn [fst snd world session trace]; [| reflexivity].
  destruct (Auth_currentSession rt w1) as [[t2 | e2] w2];
    cbn [fst snd world session trace]; reflexivity.
Qed.

(** C10: when Cognito is configured and the sign-in of [login] is
    rejected, the tool answers [Login failed: ...] and the four session
    variables are what they were.  In every run the stored credentials
    either stay as they were, or the sign-in and the session call after
    it both succeeded, and then identity, token and credentials are the
    new ones. *)
Theorem login_stores_after_success (u p : string) (st : State World User) :
  let run := login rt cfg u p st in
  (isAuthInitialized cfg = true ->
   forall e, fst (Auth_signIn rt u p (world st)) = Throw e ->
     fst run = Resolved (text_result ("Login failed: " ++ describe e))
     /\ session (snd run) = session st)
  /\ ((storedUsername (session (snd run)) = storedUsername (session st)
       /\ storedPassword (session (snd run)) = storedPassword (session st))
      \/ (exists user token,
            fst (Auth_signIn rt u p (world st)) = Return user
            /\ fst (Auth_currentSession rt
                      (snd (Auth_signIn rt u p (world st)))) = Return token
            /\ fst run
               = Resolved (text_result ("Successfully logged in as " ++ u))
            /\ session (snd run)
               = {| currentUser := Some user; idToken := Some token;
                    storedUsername := Some u; storedPassword := Some p |})).
Proof.
  intros run. subst run. rewrite login_step, sign_in_step. cbn zeta. split.
  - intros Hinit e He. rewrite Hinit, He. cbn [negb fst snd]. now split.
  - destruct (negb (isAuthInitialized cfg)); [left; now split |].
    destruct (fst (Auth_signIn rt u p (world st))) as [user | e];
      [| left; now split].
    cbn [world after].
    destruct (fst (Auth_currentSession rt _)) as [token | e];
      [| left; now split].
    right. exists user, token. repeat split; reflexivity.
Qed.

End Login.

Lemma login_stores_after_success_witness :
  let st :=
    Examples.start (Examples.signed_in "alice" "token" "alice" "secret")
      {| Examples.fetches := []; Examples.sessions := [];
         Examples.signIns := [ Throw (Error "User does not exist.") ] |} in
  fst (login Examples.scripted Examples.cognito "bob" "guess" st)
  = Resolved (text_result "Login failed: User does not exist.")
  /\ session (snd (login Examples.scripted Examples.cognito "bob" "guess" st))
     = Examples.signed_in "alice" "token" "alice" "secret".
Proof.
  intros st.
  exact (proj1 (login_stores_after_success
                  Examples.scripted Examples.cognito "bob" "guess" st)
           eq_refl (Error "User does not exist.") eq_refl).
Defined.

(** ** The query tool *)

Section RunGraphql.
Context {World User : Type}.
Variable rt : Runtime World User.
Variable cfg : Config.


(** With valid or absent variables the tool goes through the executor
    and renders whatever it settles to. *)
Lemma run_graphql_executes (fuel : nat) (query : string)
  (variables : option string) (variablesObj : Json) (st : State World User) :
  match variables with
  | Some text =>
      if truthy text then JsonParser.parse text = Some variablesObj
      else variablesObj = JObject []
  | None => variablesObj = JObject []
  end ->
  run_graphql rt cfg fuel query variables st
  = match executeGraphQLQuery rt cfg fuel query variablesObj st with
    | (Resolved result, st') =>
        (Resolved (text_result ("Query Result:" ++ LF ++ LF
                                  ++ JSON_stringify_result rt result)), st')
    | (Rejected error, st') =>
        (Resolved (text_result ("Error executing GraphQL query: "
                                  ++ describe error)), st')
    | (Pending, st') => (Pending, st')
    end.
Proof.
  intros Hvars. unfold run_graphql, JSON_parse.
  assert (Hparsed :
    match variables with
    | Some text =>
        if truthy text
        then match JsonParser.parse text with
             | Some v => Return v
             | None => Throw (Error (syntax_error_message rt text))
             end
        else Return (JObject [])
    | None => Return (JObject [])
    end = Return variablesObj).
  { destruct variables as [text |]; [| now subst].
    destruct (truthy text); [now rewrite Hvars | now subst]. }
  rewrite Hparsed. unfold try_catch, bind, ret.
  destruct (executeGraphQLQuery rt cfg fuel query variablesObj st)
    as [[result | error |] st']; reflexivity.
Qed.

End RunGraphql.



(** ** The refresh path *)

Section Refresh.
Context {World User : Type}.
Variable rt : Runtime World User.
Variable cfg : Config.

(** How the renewal ends: fulfilled after two session calls, with only
    the token changed; or rejected after one or two of them, with the
    session untouched. *)
Lemma refresh_session_outcome (st : State World User) :
  match fst (refresh_session rt st) with
  | Resolved _ =>
      (exists token,
          session (snd (refresh_session rt st))
          = set_idToken token (session st))
      /\ trace (snd (refresh_session rt st))
         = (trace st ++ [EvCurrentSession; EvCurrentSession])%list
  | Rejected _ =>
      session (snd (refresh_session rt st)) = session st
      /\ (trace (snd (refresh_session rt st))
          = (trace st ++ [EvCurrentSession])%list
          \/ trace (snd (refresh_session rt st))
             = (trace st ++ [EvCurrentSession; EvCurrentSession])%list)
  | Pending => False
  end.
Proof.
  rewrite refresh_session_step. cbn zeta.
  destruct (fst (Auth_currentSession rt (world st))) as [t1 | e1];
    cbn [fst snd].
  - destruct (fst (Auth_currentSession rt _)) as [t2 | e2];
      cbn [fst snd session trace with_session after].
    + split; [now exists t2 | now rewrite <- app_assoc].
    + split; [reflexivity | right; now rewrite <- app_assoc].
  - cbn [session trace after]. split; [reflexivity | now left].
Qed.


(** How the sign-in block ends. *)
Lemma sign_in_outcome (u p : string) (st : State World User) :
  match fst (sign_in rt u p st) with
  | Resolved _ =>
      exists user token,
        session (snd (sign_in rt u p st))
        = set_idToken token (set_currentUser user (session st))
  | Rejected e =>
      (fst (Auth_signIn rt u p (world st)) = Throw e
       /\ session (snd (sign_in rt u p st)) = session st)
      \/ (exists user,
             fst (Auth_signIn rt u p (world st)) = Return user
             /\ session (snd (sign_in rt u p st))
                = set_currentUser user (session st))
  | Pending => False
  end
  /\ exists evs,
       trace (snd (sign_in rt u p st))
       = (trace st ++ EvSignIn u p :: evs)%list.
Proof.
  rewrite sign_in_step. cbn zeta.
  destruct (fst (Auth_signIn rt u p (world st))) as [user | e1];
    cbn [fst snd].
  - destruct (fst (Auth_currentSession rt _)) as [t2 | e2];
      cbn [fst snd session trace with_session after]; split;
      try (exists [EvCurrentSession]; now rewrite <- app_assoc).
    + now exists user, t2.
    + right. now exists user.
  - cbn [session trace after]. split; [now left | now exists []].
Qed.


(** What [handleAuthRefresh] does once the renewal was rejected. *)
Lemma handleAuthRefresh_after_failed_renewal (fuel : nat) (query : string)
  (variables : Json) (st : State World User) (e : Thrown) :
  isAuthInitialized cfg = true ->
  let renewal := refresh_session rt (after st EvRefresh (world st)) in
  fst renewal = Rejected e ->
  handleAuthRefresh rt cfg (S fuel) query variables st
  = match loginUsername cfg st, loginPassword cfg st with
    | Some u, Some p =>
        if truthy u && truthy p then
          match sign_in rt u p (snd renewal) with
          | (Resolved _, st2) =>
              executeGraphQLQuery rt cfg fuel query variables st2
          | (Rejected _, st2) => (Rejected relogin_failed, st2)
          | (Pending, st2) => (Pending, st2)
          end
        else (Rejected no_credentials, snd renewal)
    | _, _ => (Rejected no_credentials, snd renewal)
    end.
Proof.
  intros Hinit renewal Hfail.
  rewrite handleAuthRefresh_step. cbn zeta. rewrite Hinit.
  unfold try_catch. fold renewal.
  pose proof (refresh_session_outcome (after st EvRefresh (world st))) as Hout.
  fold renewal in Hout. rewrite Hfail in Hout. destruct Hout as [Hsession _].
  destruct renewal as [out st1] eqn:Hren. cbn [fst snd] in *. subst out.
  rewrite relogin_step.
  unfold loginUsername, loginPassword. rewrite Hsession. cbn [session after].
  destruct (or_else (storedUsername (session st)) (username cfg)) as [u |];
    [| reflexivity].
  destruct (or_else (storedPassword (session st)) (password cfg)) as [p |];
    [| reflexivity].
  destruct (truthy u && truthy p); [| reflexivity].
  destruct (sign_in rt u p st1) as [[[] | e' |] st2]; reflexivity.
Qed.


(** C4, as amended: when the renewal and then the re-login of
    [handleAuthRefresh] are rejected, the call is rejected with
    [Authentication expired and automatic re-login failed]; token,
    stored user name and stored password are what they were (the token
    is kept, not cleared), and so is the identity when it was the
    sign-in call that was rejected. *)
Theorem handleAuthRefresh_failed_relogin (fuel : nat) (query : string)
  (variables : Json) (st : State World User) :
  isAuthInitialized cfg = true ->
  let renewal := refresh_session rt (after st EvRefresh (world st)) in
  let run := handleAuthRefresh rt cfg (S fuel) query variables st in
  forall e0 u p e,
    fst renewal = Rejected e0 ->
    loginUsername cfg st = Some u -> loginPassword cfg st = Some p ->
    u <> "" -> p <> "" ->
    fst (sign_in rt u p (snd renewal)) = Rejected e ->
    fst run = Rejected relogin_failed
    /\ idToken (session (snd run)) = idToken (session st)
    /\ storedUsername (session (snd run)) = storedUsername (session st)
    /\ storedPassword (session (snd run)) = storedPassword (session st)
    /\ (fst (Auth_signIn rt u p (world (snd renewal))) = Throw e ->
        session (snd run) = session st).
Proof.
  intros Hinit renewal run e0 u p e Hfail Hu Hp Hune Hpne Hsign.
  pose proof (handleAuthRefresh_after_failed_renewal
                fuel query variables st e0 Hinit Hfail) as Hafter.
  fold run in Hafter. fold renewal in Hafter.
  rewrite Hu, Hp in Hafter.
  rewrite (proj2 (truthy_true_iff u) Hune),
          (proj2 (truthy_true_iff p) Hpne) in Hafter. cbn [andb] in Hafter.
  pose proof (refresh_session_outcome (after st EvRefresh (world st))) as Hout.
  fold renewal in Hout. rewrite Hfail in Hout. destruct Hout as [Hs _].
  cbn [session after] in Hs.
  destruct (sign_in_outcome u p (snd renewal)) as [Hcase _].
  rewrite Hsign in Hcase.
  destruct (sign_in rt u p (snd renewal)) as [out st2] eqn:Hsi.
  cbn [fst snd] in *. subst out. rewrite Hafter. cbn [fst snd].
  split; [reflexivity |].
  destruct Hcase as [[Hthrow Hsame] | (user & Huser & Hsame)];
    rewrite Hsame, Hs.
  - repeat split; reflexivity.
  - repeat split; try reflexivity. intros Hthrow. congruence.
Qed.

End Refresh.



(** C4 as stated fails: after a rejected renewal and a rejected
    re-login the token is still the stale one; nothing clears it. *)
Lemma handleAuthRefresh_keeps_stale_token :
  let st :=
    Examples.start (Examples.signed_in "user" "stale" "u" "p")
      {| Examples.fetches := []; Examples.sessions := [];
         Examples.signIns := [] |} in
  let run :=
    handleAuthRefresh Examples.scripted Examples.cognito 3 "q" (JObject [])
      st in
  fst run
  = Rejected (Error "Authentication expired and automatic re-login failed")
  /\ trace (snd run) = [EvRefresh; EvCurrentSession; EvSignIn "u" "p"]
  /\ idToken (session (snd run)) = Some "stale".
Proof. repeat split; reflexivity. Qed.

Lemma handleAuthRefresh_failed_relogin_witness :
  let st :=
    Examples.start (Examples.signed_in "user" "stale" "u" "p")
      {| Examples.fetches := []; Examples.sessions := [];
         Examples.signIns := [] |} in
  let run :=
    handleAuthRefresh Examples.scripted Examples.cognito 3 "q" (JObject [])
      st in
  isAuthInitialized Examples.cognito = true
  /\ fst run = Rejected relogin_failed
  /\ idToken (session (snd run)) = idToken (session st)
  /\ storedUsername (session (snd run)) = storedUsername (session st)
  /\ storedPassword (session (snd run)) = storedPassword (session st)
  /\ (fst (Auth_signIn Examples.scripted "u" "p"
             (world (snd (refresh_session Examples.scripted
                            (after st EvRefresh (world st))))))
      = Throw (Error "Incorrect username or password.") ->
      session (snd run) = session st).
Proof.
  intros st run. split; [reflexivity |].
  apply (handleAuthRefresh_failed_relogin
           Examples.scripted Examples.cognito 2 "q" (JObject []) st eq_refl
           (NonError "No current user") "u" "p"
           (Error "Incorrect username or password."));
    [reflexivity | reflexivity | reflexivity | discriminate | discriminate
    | reflexivity].
Defined.

(** ** The stateful tools end with a text *)

Section StatefulTools.
Context {World User : Type}.
Variable rt : Runtime World User.
Variable cfg : Config.

Lemma sign_in_settles (u p : string) (st : State World User) :
  fst (sign_in rt u p st) <> Pending.
Proof.
  destruct (sign_in_outcome rt u p st) as [H _].
  destruct (fst (sign_in rt u p st)); [discriminate | discriminate | contradiction].
Qed.

Lemma login_text (u p : string) (st : State World User) :
  exists r, fst (login rt cfg u p st) = Resolved r /\ is_text_result r.
Proof.
  rewrite login_step. destruct (negb (isAuthInitialized cfg)).
  - eexists. split; [reflexivity | eexists; reflexivity].
  - pose proof (sign_in_settles u p st) as Hs.
    destruct (sign_in rt u p st) as [[[] | e |] st']; cbn [fst] in *;
      try (eexists; split; [reflexivity | eexists; reflexivity]).
    congruence.
Qed.

Lemma get_current_user_text (st : State World User) :
  exists r, fst (get_current_user rt st) = Resolved r /\ is_text_result r.
Proof.
  unfold get_current_user, bind, read, try_catch, call, ret.
  destruct (currentUser (session st)).
  - destruct (Auth_currentUserInfo rt (world st)) as [[info | e] w];
      eexists; (split; [reflexivity | eexists; reflexivity]).
  - eexists. split; [reflexivity | eexists; reflexivity].
Qed.

(** [run-graphql] answers with a text whenever the executor settles. *)
Lemma run_graphql_text (fuel : nat) (query : string)
  (variables : option string) (st : State World User) :
  fst (run_graphql rt cfg fuel query variables st) = Pending
  \/ exists r,
       fst (run_graphql rt cfg fuel query variables st) = Resolved r
       /\ is_text_result r.
Proof.
  unfold run_graphql.
  destruct (match variables with
            | Some text =>
                if truthy text then JSON_parse rt text else Return (JObject [])
            | None => Return (JObject [])
            end) as [variablesObj | e].
  - unfold try_catch, bind, ret.
    destruct (executeGraphQLQuery rt cfg fuel query variablesObj st)
      as [[result | error |] st'];
      [right | right | left; reflexivity];
      eexists; (split; [reflexivity | eexists; reflexivity]).
  - right. eexists. split; [reflexivity | eexists; reflexivity].
Qed.

End StatefulTools.

(** Against the endpoint that always answers 401, [run-graphql] has no
    answer after any number of steps. *)
Lemma run_graphql_never_answers (query : string) (n : nat)
  (st : State unit string) :
  fst (run_graphql Examples.always_401 Examples.cognito (2 * n) query None st)
  = Pending.
Proof.
  rewrite (run_graphql_executes _ _ _ _ None (JObject [])) by reflexivity.
  destruct (executeGraphQLQuery_unbounded query (JObject []) n st) as [Hp _].
  destruct (executeGraphQLQuery Examples.always_401 Examples.cognito (2 * n)
              query (JObject []) st) as [out st'].
  cbn [fst] in Hp. now subst out.
Qed.

(** * Further properties of the stdio server *)

(** ** What the executor does to the session *)

Lemma advances_refl {User : Type} (s : Session User) : advances s s.
Proof. repeat split; now left. Qed.

Lemma advances_trans {User : Type} (s1 s2 s3 : Session User) :
  advances s1 s2 -> advances s2 s3 -> advances s1 s3.
Proof.
  intros (Hu1 & Hp1 & Hc1 & Ht1) (Hu2 & Hp2 & Hc2 & Ht2).
  repeat split; try congruence.
  - destruct Hc2 as [Hc2 | Hc2]; [rewrite Hc2; exact Hc1 | now right].
  - destruct Ht2 as [Ht2 | Ht2]; [rewrite Ht2; exact Ht1 | now right].
Qed.

Lemma advances_set_idToken {User : Type} (s : Session User) (token : string) :
  advances s (set_idToken token s).
Proof. repeat split; [now left | right; now exists token]. Qed.

Lemma advances_set_currentUser {User : Type} (s : Session User) (user : User) :
  advances s (set_currentUser user s).
Proof. repeat split; [right; now exists user | now left]. Qed.

Lemma advances_nothing_cleared {User : Type} (s s' : Session User) :
  advances s s' -> nothing_cleared s s'.
Proof.
  intros (Hu & Hp & Hc & Ht). repeat split; try congruence.
  - destruct Hc as [Hc | (user & Hc)]; congruence.
  - destruct Ht as [Ht | (token & Ht)]; congruence.
Qed.

Section SessionFrame.
Context {World User : Type}.
Variable rt : Runtime World User.
Variable cfg : Config.

Lemma refresh_session_advances (st : State World User) :
  advances (session st) (session (snd (refresh_session rt st))).
Proof.
  pose proof (refresh_session_outcome rt st) as H.
  destruct (fst (refresh_session rt st)); [| | contradiction].
  - destruct H as [(token & Hs) _]. rewrite Hs. apply advances_set_idToken.
  - destruct H as [Hs _]. rewrite Hs. apply advances_refl.
Qed.

Lemma sign_in_advances (u p : string) (st : State World User) :
  advances (session st) (session (snd (sign_in rt u p st))).
Proof.
  destruct (sign_in_outcome rt u p st) as [H _].
  destruct (fst (sign_in rt u p st)); [| | contradiction].
  - destruct H as (user & token & Hs). rewrite Hs.
    eapply advances_trans;
      [apply advances_set_currentUser | apply advances_set_idToken].
  - destruct H as [[_ Hs] | (user & _ & Hs)]; rewrite Hs;
      [apply advances_refl | apply advances_set_currentUser].
Qed.

Lemma relogin_advances (st : State World User) :
  advances (session st) (session (snd (relogin rt cfg st))).
Proof.
  rewrite relogin_step.
  destruct (loginUsername cfg st) as [u |]; [| apply advances_refl].
  destruct (loginPassword cfg st) as [p |]; [| apply advances_refl].
  destruct (truthy u && truthy p); [| apply advances_refl].
  pose proof (sign_in_advances u p st) as H.
  destruct (sign_in rt u p st) as [[[] | e |] st']; exact H.
Qed.

Lemma renew_or_relogin_advances (st : State World User) :
  advances (session st)
    (session (snd (try_catch (refresh_session rt)
                     (fun _ => relogin rt cfg) st))).
Proof.
  unfold try_catch. pose proof (refresh_session_advances st) as H1.
  destruct (refresh_session rt st) as [[[] | e |] st1]; cbn [snd] in *;
    try exact H1.
  eapply advances_trans; [exact H1 | apply relogin_advances].
Qed.

Lemma executor_and_refresh_advance (query : string) (variables : Json)
  (fuel : nat) :
  (forall st,
      advances (session st)
        (session (snd (executeGraphQLQuery rt cfg fuel query variables st))))
  /\ (forall st,
      advances (session st)
        (session (snd (handleAuthRefresh rt cfg fuel query variables st)))).
Proof.
  induction fuel as [| fuel [IHexec IHrefresh]].
  - split; intros st; apply advances_refl.
  - split; intros st.
    + rewrite executeGraphQLQuery_step. cbn zeta.
      set (st1 := after st _ _).
      assert (Hretry : advances (session st)
                (session (snd (handleAuthRefresh rt cfg fuel query variables
                                 st1)))) by apply (IHrefresh st1).
      destruct (fst (fetch rt _ query variables (world st)))
        as [response | e]; [| apply advances_refl].
      destruct (status response =? 401)%nat; [exact Hretry |].
      destruct (negb (ok response)); [apply advances_refl |].
      destruct (json response) as [result | e]; [| apply advances_refl].
      destruct (has_auth_error result); [exact Hretry | apply advances_refl].
    + rewrite handleAuthRefresh_step. cbn zeta.
      destruct (isAuthInitialized cfg); [| apply advances_refl].
      pose proof (renew_or_relogin_advances (after st EvRefresh (world st)))
        as Hstep.
      destruct (try_catch (refresh_session rt) (fun _ => relogin rt cfg)
                  (after st EvRefresh (world st))) as [[[] | e |] st1];
        cbn [snd session after] in *; try exact Hstep.
      eapply advances_trans; [exact Hstep | apply IHexec].
Qed.

(** Whatever the endpoint and the identity provider answer, and however
    many rounds of refresh and retry it takes, the executor leaves the
    stored credentials as they are and clears neither the identity nor
    the token: each is what it was or has been set anew. *)
Theorem executeGraphQLQuery_session_frame (fuel : nat) (query : string)
  (variables : Json) (st : State World User) :
  let s' := session (snd (executeGraphQLQuery rt cfg fuel query variables st)) in
  storedUsername s' = storedUsername (session st)
  /\ storedPassword s' = storedPassword (session st)
  /\ (currentUser s' = currentUser (session st)
      \/ exists user, currentUser s' = Some user)
  /\ (idToken s' = idToken (session st)
      \/ exists token, idToken s' = Some token).
Proof.
  destruct (executor_and_refresh_advance query variables fuel) as [H _].
  exact (H st).
Qed.

End SessionFrame.

(** ** One round of refresh and retry *)

Section OneRound.
Context {World User : Type}.
Variable rt : Runtime World User.
Variable cfg : Config.

(** The endpoint answers 401, the identity provider renews the session,
    and the retried request, sent with the new token, succeeds: the
    caller gets that body after exactly two requests and one refresh, and
    the session holds the new token, everything else as before. *)
Theorem executeGraphQLQuery_refresh_then_success (fuel : nat)
  (query : string) (variables : Json) (st : State World User)
  (r1 r2 : Response) (w1 w2 w3 w4 : World) (t1 t2 : string)
  (payload : GraphQLResult) :
  let auth := authorization_header (idToken (session st)) in
  isAuthInitialized cfg = true ->
  fetch rt auth query variables (world st) = (Return r1, w1) ->
  status r1 = 401 ->
  Auth_currentSession rt w1 = (Return t1, w2) ->
  Auth_currentSession rt w2 = (Return t2, w3) ->
  fetch rt (authorization_header (Some t2)) query variables w3
  = (Return r2, w4) ->
  ok r2 = true ->
  json r2 = Return payload ->
  has_auth_error payload = false ->
  executeGraphQLQuery rt cfg (3 + fuel) query variables st
  = (Resolved payload,
     {| session := set_idToken t2 (session st);
        world := w4;
        trace := (trace st
                  ++ [ EvFetch auth query variables; EvRefresh;
                       EvCurrentSession; EvCurrentSession;
                       EvFetch (authorization_header (Some t2))
                         query variables ])%list |}).
Proof.
  intros auth Hinit Hf1 H401 Hs1 Hs2 Hf2 Hok Hjson Hauth.
  assert (Hnot401 : (status r2 =? 401)%nat = false).
  { unfold ok in Hok. apply andb_prop in Hok as [_ Hle].
    apply Nat.leb_le in Hle. apply Nat.eqb_neq. lia. }
  change (3 + fuel) with (S (S (S fuel))).
  rewrite executeGraphQLQuery_step. cbn zeta. fold auth.
  rewrite Hf1. cbn [fst snd]. rewrite H401. cbn [Nat.eqb].
  rewrite handleAuthRefresh_step. cbn zeta. rewrite Hinit.
  unfold try_catch. rewrite refresh_session_step. cbn zeta.
  cbn [world after]. rewrite Hs1. cbn [fst snd world after]. rewrite Hs2.
  cbn [fst snd].
  rewrite executeGraphQLQuery_step. cbn zeta.
  cbn [session with_session world after idToken set_idToken].
  rewrite Hf2. cbn [fst snd]. rewrite Hnot401, Hok, Hjson, Hauth.
  cbn [negb]. unfold after, with_session. cbn [session world trace].
  rewrite <- !app_assoc. reflexivity.
Qed.

(** A failed transport, and a success whose body does not parse, end the
    call with that very error after the one request: no refresh, no
    retry, and the session is not touched. *)
Theorem executeGraphQLQuery_passes_failures (fuel : nat) (query : string)
  (variables : Json) (st : State World User) (e : Thrown) :
  let auth := authorization_header (idToken (session st)) in
  let answer := fetch rt auth query variables (world st) in
  fst answer = Throw e
  \/ (exists response,
         fst answer = Return response /\ ok response = true
         /\ json response = Throw e) ->
  executeGraphQLQuery rt cfg (S fuel) query variables st
  = (Rejected e,
     {| session := session st; world := snd answer;
        trace := (trace st ++ [EvFetch auth query variables])%list |}).
Proof.
  intros auth answer Hcase.
  rewrite executeGraphQLQuery_step. cbn zeta. fold auth. fold answer.
  destruct Hcase as [Hthrow | (response & Hresp & Hok & Hjson)].
  - now rewrite Hthrow.
  - rewrite Hresp.
    assert (Hnot401 : (status response =? 401)%nat = false).
    { unfold ok in Hok. apply andb_prop in Hok as [_ Hle].
      apply Nat.leb_le in Hle. apply Nat.eqb_neq. lia. }
    now rewrite Hnot401, Hok, Hjson.
Qed.

End OneRound.

Lemma executeGraphQLQuery_refresh_then_success_witness :
  let st :=
    Examples.start (Examples.signed_in "user" "stale" "u" "p")
      {| Examples.fetches :=
           [ Return Examples.unauthorized; Return (Examples.success JNull) ];
         Examples.sessions := [ Return "t1"; Return "t2" ];
         Examples.signIns := [] |} in
  executeGraphQLQuery Examples.scripted Examples.cognito 3 "q" (JObject []) st
  = (Resolved {| data := JNull; errors := None |},
     {| session := Examples.signed_in "user" "t2" "u" "p";
        world := {| Examples.fetches := []; Examples.sessions := [];
                    Examples.signIns := [] |};
        trace := [ EvFetch (Some "stale") "q" (JObject []); EvRefresh;
                   EvCurrentSession; EvCurrentSession;
                   EvFetch (Some "t2") "q" (JObject []) ] |}).
Proof.
  intros st.
  exact (executeGraphQLQuery_refresh_then_success
           Examples.scripted Examples.cognito 0 "q" (JObject []) st
           Examples.unauthorized (Examples.success JNull)
           _ _ _ _ "t1" "t2" _
           eq_refl eq_refl eq_refl eq_refl eq_refl eq_refl eq_refl eq_refl
           eq_refl).
Defined.

Lemma executeGraphQLQuery_passes_failures_witness :
  let st :=
    Examples.start (Examples.signed_in "user" "token" "u" "p")
      {| Examples.fetches := []; Examples.sessions := [ Return "t1" ];
         Examples.signIns := [] |} in
  executeGraphQLQuery Examples.scripted Examples.cognito 5 "q" (JObject []) st
  = (Rejected (Error "fetch failed"),
     {| session := Examples.signed_in "user" "token" "u" "p";
        world := world st;
        trace := [ EvFetch (Some "token") "q" (JObject []) ] |}).
Proof.
  intros st.
  exact (executeGraphQLQuery_passes_failures
           Examples.scripted Examples.cognito 4 "q" (JObject []) st
           (Error "fetch failed") (or_introl eq_refl)).
Defined.

(** ** The automatic login and the session across tool calls *)

Section SessionTools.
Context {World User : Type}.
Variable rt : Runtime World User.
Variable cfg : Config.

Lemma main_step (st : State World User) :
  main rt cfg st
  = match username cfg, password cfg with
    | Some u, Some p =>
        if isAuthInitialized cfg && truthy u && truthy p then
          match sign_in rt u p st with
          | (Resolved _, st') =>
              (Resolved tt,
               with_session st'
                 (set_storedPassword p (set_storedUsername u (session st'))))
          | (Rejected _, st') => (Resolved tt, st')
          | (Pending, st') => (Pending, st')
          end
        else (Resolved tt, st)
    | _, _ => (Resolved tt, st)
    end.
Proof.
  unfold main.
  destruct (username cfg) as [u |]; [| reflexivity].
  destruct (password cfg) as [p |]; [| reflexivity].
  destruct (isAuthInitialized cfg && truthy u && truthy p); [| reflexivity].
  rewrite sign_in_step. cbn zeta.
  unfold try_catch, bind, call, modify, ret, after, with_session.
  destruct (Auth_signIn rt u p (world st)) as [[user | e1] w1];
    cbn [fst snd world session trace]; [| reflexivity].
  destruct (Auth_currentSession rt w1) as [[t2 | e2] w2];
    cbn [fst snd world session trace]; reflexivity.
Qed.

(** The automatic login of [main] never fails the start-up.  Without
    Cognito, or without both credentials in the environment, it does
    nothing at all.  Otherwise it signs in with the credentials of the
    environment, and either all four session variables are set from that
    sign-in, or token and stored credentials are what they were. *)
Theorem main_auto_login (st : State World User) :
  let run := main rt cfg st in
  fst run = Resolved tt
  /\ (isAuthInitialized cfg = false \/ truthy_opt (username cfg) = false
      \/ truthy_opt (password cfg) = false ->
      run = (Resolved tt, st))
  /\ (forall u p,
         isAuthInitialized cfg = true ->
         username cfg = Some u -> password cfg = Some p ->
         u <> "" -> p <> "" ->
         (exists evs, trace (snd run) = (trace st ++ EvSignIn u p :: evs)%list)
         /\ ((exists user token,
                 session (snd run)
                 = {| currentUser := Some user; idToken := Some token;
                      storedUsername := Some u; storedPassword := Some p |})
             \/ (idToken (session (snd run)) = idToken (session st)
                 /\ storedUsername (session (snd run))
                    = storedUsername (session st)
                 /\ storedPassword (session (snd run))
                    = storedPassword (session st)))).
Proof.
  intros run. subst run. rewrite main_step. split; [| split].
  - destruct (username cfg) as [u |]; [| reflexivity].
    destruct (password cfg) as [p |]; [| reflexivity].
    destruct (isAuthInitialized cfg && truthy u && truthy p); [| reflexivity].
    pose proof (sign_in_settles rt u p st) as Hs.
    destruct (sign_in rt u p st) as [[[] | e |] st']; cbn [fst] in *;
      congruence.
  - intros Hoff.
    destruct (username cfg) as [u |]; [| reflexivity].
    destruct (password cfg) as [p |]; [| reflexivity].
    cbn [truthy_opt] in Hoff.
    destruct Hoff as [H | [H | H]]; rewrite H;
      rewrite ?andb_false_r; reflexivity.
  - intros u p Hinit Hu Hp Hune Hpne. rewrite Hu, Hp, Hinit.
    rewrite (proj2 (truthy_true_iff u) Hune),
            (proj2 (truthy_true_iff p) Hpne). cbn [andb].
    destruct (sign_in_outcome rt u p st) as [Hcase (evs & Ht)].
    destruct (sign_in rt u p st) as [[[] | e |] st'];
      cbn [fst snd] in *; [| | contradiction].
    + split; [now exists evs |]. left.
      destruct Hcase as (user & token & Hs). exists user, token.
      cbn [session with_session]. now rewrite Hs.
    + split; [now exists evs |]. right.
      destruct Hcase as [[_ Hs] | (user & _ & Hs)]; rewrite Hs;
        repeat split; reflexivity.
Qed.

Lemma login_session (u p : string) (st : State World User) :
  let s' := session (snd (login rt cfg u p st)) in
  advances (session st) s'
  \/ exists user token,
       s' = {| currentUser := Some user; idToken := Some token;
               storedUsername := Some u; storedPassword := Some p |}.
Proof.
  cbn zeta. rewrite login_step.
  destruct (negb (isAuthInitialized cfg)); [left; apply advances_refl |].
  pose proof (sign_in_advances rt u p st) as Hadv.
  destruct (sign_in_outcome rt u p st) as [Hcase _].
  destruct (sign_in rt u p st) as [[[] | e |] st']; cbn [fst snd] in *;
    try (left; exact Hadv).
  right. destruct Hcase as (user & token & Hs). exists user, token.
  cbn [session with_session]. now rewrite Hs.
Qed.

Lemma main_session (st : State World User) :
  let s' := session (snd (main rt cfg st)) in
  advances (session st) s'
  \/ exists user token u p,
       s' = {| currentUser := Some user; idToken := Some token;
               storedUsername := Some u; storedPassword := Some p |}.
Proof.
  cbn zeta. rewrite main_step.
  destruct (username cfg) as [u |]; [| left; apply advances_refl].
  destruct (password cfg) as [p |]; [| left; apply advances_refl].
  destruct (isAuthInitialized cfg && truthy u && truthy p);
    [| left; apply advances_refl].
  pose proof (sign_in_advances rt u p st) as Hadv.
  destruct (sign_in_outcome rt u p st) as [Hcase _].
  destruct (sign_in rt u p st) as [[[] | e |] st']; cbn [fst snd] in *;
    try (left; exact Hadv).
  right. destruct Hcase as (user & token & Hs). exists user, token, u, p.
  cbn [session with_session]. now rewrite Hs.
Qed.

Lemma run_graphql_advances (fuel : nat) (query : string)
  (variables : option string) (st : State World User) :
  advances (session st)
    (session (snd (run_graphql rt cfg fuel query variables st))).
Proof.
  unfold run_graphql.
  destruct (match variables with
            | Some text =>
                if truthy text then JSON_parse rt text else Return (JObject [])
            | None => Return (JObject [])
            end) as [variablesObj | e]; [| apply advances_refl].
  destruct (executor_and_refresh_advance rt cfg query variablesObj fuel)
    as [Hexec _].
  specialize (Hexec st). unfold try_catch, bind, ret.
  destruct (executeGraphQLQuery rt cfg fuel query variablesObj st)
    as [[result | error |] st']; exact Hexec.
Qed.

Lemma get_current_user_session (st : State World User) :
  session (snd (get_current_user rt st)) = session st.
Proof.
  unfold get_current_user, bind, read, try_catch, call, ret.
  destruct (currentUser (session st)); [| reflexivity].
  destruct (Auth_currentUserInfo rt (world st)) as [[info | e] w];
    reflexivity.
Qed.

Lemma credentials_backed_advances (s s' : Session User) :
  credentials_backed s -> advances s s' -> credentials_backed s'.
Proof.
  intros [Hpair Hback] (Hu & Hp & Hc & Ht). split.
  - now rewrite Hu, Hp.
  - rewrite Hu. intros Hset. destruct (Hback Hset) as [Huser Htoken]. split.
    + destruct Hc as [Hc | (user & Hc)]; congruence.
    + destruct Ht as [Ht | (token & Ht)]; congruence.
Qed.

Lemma credentials_backed_fresh (user : User) (token u p : string) :
  credentials_backed
    {| currentUser := Some user; idToken := Some token;
       storedUsername := Some u; storedPassword := Some p |}.
Proof. split; cbn; [split; discriminate | split; discriminate]. Qed.

(** Stored credentials always come as a pair, together with an identity
    and a token: every tool, the automatic login and the executor keep
    it that way. *)
Theorem session_stays_credentials_backed (st : State World User) :
  credentials_backed (session st) ->
  (forall u p,
      credentials_backed (session (snd (login rt cfg u p st))))
  /\ credentials_backed (session (snd (main rt cfg st)))
  /\ credentials_backed (session (snd (get_current_user rt st)))
  /\ (forall fuel query variables,
         credentials_backed
           (session (snd (run_graphql rt cfg fuel query variables st))))
  /\ (forall fuel query variables,
         credentials_backed
           (session (snd (executeGraphQLQuery rt cfg fuel query variables
                            st)))).
Proof.
  intros Hinv. split; [| split; [| split; [| split]]].
  - intros u p.
    destruct (login_session u p st) as [Hadv | (user & token & Hs)].
    + now apply (credentials_backed_advances (session st)).
    + rewrite Hs. apply credentials_backed_fresh.
  - destruct (main_session st) as [Hadv | (user & token & u & p & Hs)].
    + now apply (credentials_backed_advances (session st)).
    + rewrite Hs. apply credentials_backed_fresh.
  - now rewrite get_current_user_session.
  - intros fuel query variables.
    apply (credentials_backed_advances (session st)); [exact Hinv |].
    apply run_graphql_advances.
  - intros fuel query variables.
    apply (credentials_backed_advances (session st)); [exact Hinv |].
    destruct (executor_and_refresh_advance rt cfg query variables fuel)
      as [Hexec _]. apply Hexec.
Qed.

(** The server has no sign-out: whatever is called, a session variable
    that was set is still set afterwards. *)
Theorem no_tool_clears_the_session (st : State World User) :
  (forall u p,
      nothing_cleared (session st) (session (snd (login rt cfg u p st))))
  /\ nothing_cleared (session st) (session (snd (main rt cfg st)))
  /\ nothing_cleared (session st) (session (snd (get_current_user rt st)))
  /\ (forall fuel query variables,
         nothing_cleared (session st)
           (session (snd (run_graphql rt cfg fuel query variables st))))
  /\ (forall fuel query variables,
         nothing_cleared (session st)
           (session (snd (handleAuthRefresh rt cfg fuel query variables st)))).
Proof.
  assert (Hfresh : forall (user : User) token u p,
             nothing_cleared (session st)
               {| currentUser := Some user; idToken := Some token;
                  storedUsername := Some u; storedPassword := Some p |})
    by (intros; repeat split; discriminate).
  split; [| split; [| split; [| split]]].
  - intros u p.
    destruct (login_session u p st) as [Hadv | (user & token & Hs)].
    + now apply advances_nothing_cleared.
    + rewrite Hs. apply Hfresh.
  - destruct (main_session st) as [Hadv | (user & token & u & p & Hs)].
    + now apply advances_nothing_cleared.
    + rewrite Hs. apply Hfresh.
  - rewrite get_current_user_session. apply advances_nothing_cleared.
    apply advances_refl.
  - intros. apply advances_nothing_cleared, run_graphql_advances.
  - intros fuel query variables. apply advances_nothing_cleared.
    destruct (executor_and_refresh_advance rt cfg query variables fuel)
      as [_ Hrefresh]. apply Hrefresh.
Qed.

End SessionTools.

Lemma session_stays_credentials_backed_witness :
  let st :=
    Examples.start Examples.signed_out
      {| Examples.fetches := []; Examples.sessions := [ Return "token" ];
         Examples.signIns := [ Return "alice" ] |} in
  credentials_backed (session st)
  /\ credentials_backed
       (session (snd (login Examples.scripted Examples.cognito
                        "alice" "secret" st))).
Proof.
  intros st.
  assert (Hstart : credentials_backed (session st)).
  { split; cbn; [split; reflexivity | intros H; now contradiction H]. }
  split; [exact Hstart |].
  exact (proj1 (session_stays_credentials_backed
                  Examples.scripted Examples.cognito st Hstart)
           "alice" "secret").
Defined.

(** ** Login, then refresh *)

Section LoginThenRefresh.
Context {World User : Type}.
Variable rt : Runtime World User.
Variable cfg : Config.

(** A login whose sign-in succeeds but whose session call fails answers
    [Login failed: ...], and yet the identity is already the new one;
    token and stored credentials are the old ones. *)
Theorem login_half_done (u p : string) (st : State World User)
  (user : User) (w1 : World) (e : Thrown) :
  isAuthInitialized cfg = true ->
  Auth_signIn rt u p (world st) = (Return user, w1) ->
  fst (Auth_currentSession rt w1) = Throw e ->
  let run := login rt cfg u p st in
  fst run = Resolved (text_result ("Login failed: " ++ describe e))
  /\ currentUser (session (snd run)) = Some user
  /\ idToken (session (snd run)) = idToken (session st)
  /\ storedUsername (session (snd run)) = storedUsername (session st)
  /\ storedPassword (session (snd run)) = storedPassword (session st).
Proof.
  intros Hinit Hsign Hsession run. subst run.
  rewrite login_step, sign_in_step, Hinit. cbn zeta. cbn [negb].
  rewrite Hsign. cbn [fst snd world after]. rewrite Hsession.
  repeat split; reflexivity.
Qed.


End LoginThenRefresh.

Lemma login_half_done_witness :
  let st :=
    Examples.start (Examples.signed_in "alice" "token" "alice" "secret")
      {| Examples.fetches := []; Examples.sessions := [];
         Examples.signIns := [ Return "bob" ] |} in
  let run := login Examples.scripted Examples.cognito "bob" "pw" st in
  fst run = Resolved (text_result "Login failed: No current user")
  /\ currentUser (session (snd run)) = Some "bob"
  /\ idToken (session (snd run)) = Some "token"
  /\ storedUsername (session (snd run)) = Some "alice"
  /\ storedPassword (session (snd run)) = Some "secret".
Proof.
  intros st.
  exact (login_half_done Examples.scripted Examples.cognito "bob" "pw" st
           "bob" _ (NonError "No current user") eq_refl eq_refl eq_refl).
Defined.


(** ** What the listings contain *)

Lemma append_assoc (a b c : string) : (a ++ b) ++ c = a ++ (b ++ c).
Proof. induction a as [| x a IH]; simpl; [reflexivity | now rewrite IH]. Qed.

Lemma append_empty_r (a : string) : a ++ "" = a.
Proof. induction a as [| x a IH]; simpl; [reflexivity | now rewrite IH]. Qed.

Lemma contains_refl (s : string) : contains s s.
Proof. exists "", "". simpl. now rewrite append_empty_r. Qed.

Lemma contains_append_l (a b needle : string) :
  contains a needle -> contains (a ++ b) needle.
Proof.
  intros (before & rest & ->). exists before, (rest ++ b).
  now rewrite !append_assoc.
Qed.

Lemma contains_append_r (a b needle : string) :
  contains b needle -> contains (a ++ b) needle.
Proof.
  intros (before & rest & ->). exists (a ++ before), rest.
  now rewrite !append_assoc.
Qed.

Lemma contains_trans (s t needle : string) :
  contains s t -> contains t needle -> contains s needle.
Proof.
  intros (b1 & r1 & ->) H. now apply contains_append_r, contains_append_l.
Qed.

Lemma contains_join (sep : string) (xs : list string) (x : string) :
  In x xs -> contains (join sep xs) x.
Proof.
  unfold join. induction xs as [| y ys IH]; intros Hin; [contradiction |].
  simpl. destruct ys as [| z zs].
  - destruct Hin as [-> | []]. apply contains_refl.
  - destruct Hin as [-> | Hin].
    + apply contains_append_l, contains_refl.
    + apply contains_append_r, contains_append_r. now apply IH.
Qed.

Lemma get_own_In {V : Type} (obj : Js.Object V) (key : string) (v : V) :
  get_own obj key = Some v -> In (key, v) obj.
Proof.
  induction obj as [| [k v'] obj IH]; simpl; [discriminate |].
  destruct (String.eqb_spec k key) as [-> | Hne].
  - intros H. injection H as ->. now left.
  - intros H. right. now apply IH.
Qed.

Lemma In_get_own {V : Type} (obj : Js.Object V) (key : string) (v : V) :
  NoDup (keys obj) -> In (key, v) obj -> get_own obj key = Some v.
Proof.
  induction obj as [| [k v'] obj IH]; simpl; [contradiction |].
  intros Hnd Hin. apply NoDup_cons_iff in Hnd as [Hfresh Hnd].
  destruct Hin as [Heq | Hin].
  - injection Heq as -> ->. now rewrite String.eqb_refl.
  - destruct (String.eqb_spec k key) as [-> | Hne]; [| now apply IH].
    exfalso. apply Hfresh. unfold keys.
    change key with (fst (key, v)). now apply in_map.
Qed.

Section Listings.
Variable models : Js.Object Model.
Variable enums : Js.Object Enum.



End Listings.



(** ** Looking a model up *)

Lemma text_result_inj (a b : string) : text_result a = text_result b -> a = b.
Proof. intros H. now injection H. Qed.

Lemma relationships_of_nil (fs : list (string * Field)) :
  relationships_of fs = [] <-> filter has_association fs = [].
Proof.
  induction fs as [| [n f] fs IH]; simpl; [tauto |].
  unfold has_association at 1. cbn [snd].
  destruct (association f); [split; discriminate | exact IH].
Qed.

Lemma relationships_of_In (fs : list (string * Field)) (fieldName : string)
  (f : Field) (assoc : Association) :
  In (fieldName, f) fs -> association f = Some assoc ->
  In {| rel_fieldName := fieldName;
        rel_type := type_model (type f);
        relationshipType := connectionType assoc;
        rel_associatedWith := join_or_NA (associatedWith assoc);
        rel_targetNames := join_or_NA (targetNames assoc) |}
     (relationships_of fs).
Proof.
  intros Hin Hassoc. induction fs as [| [n g] fs IH]; [contradiction |].
  simpl. destruct Hin as [Heq | Hin].
  - injection Heq as -> ->. rewrite Hassoc. now left.
  - destruct (association g); [right |]; now apply IH.
Qed.

Section Lookup.
Variable models : Js.Object Model.

(** [get-model-details] answers "not found" exactly for the names that
    are neither a model of the descriptor set nor a member of
    [Object.prototype].  For a model of the set, one called like such a
    member included, the answer shows every field with its type and
    every rule of every [auth] attribute. *)
Theorem get_model_details_finds_own_models (modelName : string) :
  (get_model_details models modelName
   = Return (text_result (not_found_message modelName))
   <-> get_own models modelName = None /\ on_prototype modelName = false)
  /\ forall model,
       get_own models modelName = Some model ->
       exists text,
         get_model_details models modelName = Return (text_result text)
         /\ (forall fieldName field,
                In (fieldName, field) (fields model) ->
                contains text
                  ("  - " ++ fieldName ++ ":" ++ LF ++ "    Type: "
                     ++ typeInfo field))
         /\ (forall attr rule,
                In attr (attributes model) -> attr_type attr = "auth" ->
                In rule (rules attr) ->
                contains text
                  ("  - Provider: " ++ show_opt (provider rule) ++ LF
                     ++ "    Allow: " ++ allow rule ++ LF
                     ++ "    Operations: " ++ join ", " (operations rule))).
Proof.
  split.
  - unfold get_model_details, Js.get.
    destruct (get_own models modelName) as [model |].
    + split; [| intros [H _]; discriminate].
      intros H. injection H as H. exfalso.
      unfold not_found_message in H. cbn [String.append] in H.
      discriminate.
    + destruct (on_prototype modelName).
      * split; [discriminate | intros [_ H]; discriminate].
      * split; [now split | reflexivity].
  - intros model Hown. unfold get_model_details, Js.get. rewrite Hown.
    eexists. split; [reflexivity |]. split.
    + intros fieldName field Hin.
      do 6 apply contains_append_r. apply contains_append_l.
      eapply contains_trans.
      * apply (contains_join (LF ++ LF) _
                 (model_details_field (fieldName, field))).
        unfold entries.
        now apply (in_map model_details_field (fields model)
                     (fieldName, field)).
      * cbn [model_details_field].
        exists "", ((if isRequired field then LF ++ "    Required: Yes" else "")
                      ++ (if isArray field then LF ++ "    Array: Yes" else "")
                      ++ match association field with
                         | Some assoc =>
                             (LF ++ "    Association: " ++ connectionType assoc)
                               ++ match targetNames assoc with
                                  | Some names =>
                                      LF ++ "    Target fields: "
                                         ++ join ", " names
                                  | None => ""
                                  end
                         | None => ""
                         end).
        cbn [String.append]. now rewrite !append_assoc.
    + intros attr rule Hattr Hauth Hrule.
      do 11 apply contains_append_r.
      apply (contains_join (LF ++ LF) _ (model_details_rule rule)).
      apply in_flat_map. exists attr. split.
      * apply filter_In. split; [exact Hattr |].
        rewrite Hauth. reflexivity.
      * now apply in_map.
Qed.

(** [get-relationships] answers that it found none exactly when no field
    of the model carries an association; otherwise every field that
    carries one is listed with its target, kind and names. *)
Theorem get_relationships_lists_associations (modelName : string)
  (model : Model) :
  get_own models modelName = Some model ->
  (get_relationships models modelName
   = Return (text_result ("No relationships found for model: " ++ modelName))
   <-> forall fieldName field,
         In (fieldName, field) (fields model) -> association field = None)
  /\ forall fieldName field assoc,
       In (fieldName, field) (fields model) ->
       association field = Some assoc ->
       exists text,
         get_relationships models modelName = Return (text_result text)
         /\ contains text
              ("Field: " ++ fieldName ++ LF
                 ++ "Type: " ++ show_opt (type_model (type field)) ++ LF
                 ++ "Relationship: " ++ connectionType assoc ++ LF
                 ++ "Associated With: " ++ join_or_NA (associatedWith assoc)
                 ++ LF
                 ++ "Target Names: " ++ join_or_NA (targetNames assoc)).
Proof.
  intros Hown. unfold get_relationships, Js.get. rewrite Hown.
  unfold entries. split.
  - destruct (relationships_of (fields model)) as [| r rs] eqn:Hrel.
    + cbn [length Nat.eqb]. split; [intros _ | reflexivity].
      intros fieldName field Hin.
      destruct (association field) as [assoc |] eqn:Hassoc; [| reflexivity].
      pose proof (relationships_of_In _ _ _ _ Hin Hassoc) as H.
      rewrite Hrel in H. contradiction.
    + cbn [length Nat.eqb]. split.
      * intros H. injection H as H. cbn [String.append] in H. discriminate.
      * intros Hnone. exfalso.
        assert (Hnil : filter has_association (fields model) = []).
        { clear Hrel. induction (fields model) as [| [n f] fs IH];
            [reflexivity |].
          simpl. unfold has_association at 1. cbn [snd].
          rewrite (Hnone n f (or_introl eq_refl)).
          apply IH. intros n' f' Hin. apply (Hnone n' f'). now right. }
        apply relationships_of_nil in Hnil. congruence.
  - intros fieldName field assoc Hin Hassoc.
    pose proof (relationships_of_In _ _ _ _ Hin Hassoc) as Hrel.
    destruct (relationships_of (fields model)) as [| r rs] eqn:Hrs;
      [contradiction |].
    cbn [length Nat.eqb]. eexists. split; [reflexivity |].
    do 5 apply contains_append_r.
    eapply contains_trans.
    + apply (contains_join (LF ++ LF) _ _
               (in_map relationship_text _ _ Hrel)).
    + cbn [relationship_text rel_fieldName rel_type relationshipType
             rel_associatedWith rel_targetNames].
      apply contains_refl.
Qed.

End Lookup.

Lemma get_model_details_finds_own_models_witness :
  exists text,
    get_model_details [("toString", Examples.Character)] "toString"
    = Return (text_result text)
    /\ (forall fieldName field,
           In (fieldName, field) (fields Examples.Character) ->
           contains text
             ("  - " ++ fieldName ++ ":" ++ LF ++ "    Type: "
                ++ typeInfo field))
    /\ (forall attr rule,
           In attr (attributes Examples.Character) ->
           attr_type attr = "auth" ->
           In rule (rules attr) ->
           contains text
             ("  - Provider: " ++ show_opt (provider rule) ++ LF
                ++ "    Allow: " ++ allow rule ++ LF
                ++ "    Operations: " ++ join ", " (operations rule))).
Proof.
  apply (proj2 (get_model_details_finds_own_models
                  [("toString", Examples.Character)] "toString")
           Examples.Character).
  reflexivity.
Defined.

Lemma get_relationships_lists_associations_witness :
  get_own (Examples.story_models (Some Examples.belongs_to)) "Story"
  = Some (Examples.Story (Some Examples.belongs_to))
  /\ exists text,
       get_relationships (Examples.story_models (Some Examples.belongs_to))
         "Story"
       = Return (text_result text)
       /\ contains text
            ("Field: " ++ "character" ++ LF
               ++ "Type: " ++ "Character" ++ LF
               ++ "Relationship: " ++ "BELONGS_TO" ++ LF
               ++ "Associated With: " ++ "N/A" ++ LF
               ++ "Target Names: " ++ "characterId").
Proof.
  split; [reflexivity |].
  apply (proj2 (get_relationships_lists_associations
                  (Examples.story_models (Some Examples.belongs_to)) "Story"
                  (Examples.Story (Some Examples.belongs_to)) eq_refl)
           "character" (Examples.character_field (Some Examples.belongs_to))
           Examples.belongs_to).
  - right. right. left. reflexivity.
  - reflexivity.
Defined.

(** * Properties of the worker *)

Section WorkerProperties.
Context {World : Type}.
Variable engine : Worker.Engine.
Variable fetch_upstream :
  Worker.UpstreamRequest -> World -> Completion Worker.Reply * World.

Lemma send_step (req : Worker.UpstreamRequest)
  (st : Worker.WorkerState World) :
  Worker.send fetch_upstream req st
  = (fst (fetch_upstream req (Worker.upstream st)),
     {| Worker.upstream := snd (fetch_upstream req (Worker.upstream st));
        Worker.sent := (Worker.sent st ++ [req])%list |}).
Proof.
  unfold Worker.send.
  destruct (fetch_upstream req (Worker.upstream st)) as [[reply | e] w];
    reflexivity.
Qed.

Lemma wcatch_returns {A : Type} (m : Worker.W A) (handler : Thrown -> A)
  (st : Worker.WorkerState World) :
  exists a,
    fst (Worker.wcatch m (fun e => Worker.wret (handler e)) st) = Return a
    /\ snd (Worker.wcatch m (fun e => Worker.wret (handler e)) st)
       = snd (m st).
Proof.
  unfold Worker.wcatch, Worker.wret.
  destruct (m st) as [[a | e] st']; eexists; split; reflexivity.
Qed.

(** The request the proxy sends upstream. *)
Lemma handleGraphQLProxy_configured (request : Worker.Request)
  (env : Worker.Env) (st : Worker.WorkerState World) (apiUrl : string) :
  Worker.AMPLIFY_API_URL env = Some apiUrl -> apiUrl <> "" ->
  let req :=
    {| Worker.url := apiUrl;
       Worker.x_api_key :=
         (if truthy_opt (Worker.AMPLIFY_API_KEY env)
          then Worker.AMPLIFY_API_KEY env else None);
       Worker.upstream_authorization :=
         (if truthy_opt (Worker.authorization request)
          then Worker.authorization request else None);
       Worker.upstream_body := Worker.Raw (Worker.body request) |} in
  let st' :=
    {| Worker.upstream := snd (fetch_upstream req (Worker.upstream st));
       Worker.sent := (Worker.sent st ++ [req])%list |} in
  let failed e :=
    {| Worker.status := 500; Worker.headers := Worker.json_only;
       Worker.response_body :=
         Worker.JsonBody
           (JObject [ ("error", JString "GraphQL proxy error");
                      ("message", JString (describe e)) ]) |} in
  Worker.handleGraphQLProxy engine fetch_upstream request env st
  = match fst (fetch_upstream req (Worker.upstream st)) with
    | Throw e => (Return (failed e), st')
    | Return reply =>
        match Worker.reply_text reply with
        | Throw e => (Return (failed e), st')
        | Return text =>
            match Worker.new_Response engine text (Worker.reply_status reply)
                    Worker.cors with
            | Throw e => (Return (failed e), st')
            | Return response => (Return response, st')
            end
        end
    end.
Proof.
  intros Hurl Hne req st' failed. unfold Worker.handleGraphQLProxy.
  rewrite Hurl, (proj2 (truthy_true_iff apiUrl) Hne). fold req.
  unfold Worker.wcatch, Worker.wbind. rewrite send_step. fold st'.
  destruct (fst (fetch_upstream req (Worker.upstream st))) as [reply | e];
    [| reflexivity].
  destruct (Worker.reply_text reply) as [text | e];
    cbn [Worker.wsettle]; unfold Worker.wthrow, Worker.wret; [| reflexivity].
  destruct (Worker.new_Response engine text (Worker.reply_status reply)
              Worker.cors) as [response | e];
    cbn [Worker.wsettle]; reflexivity.
Qed.

Lemma handleGraphQLProxy_not_configured (request : Worker.Request)
  (env : Worker.Env) (st : Worker.WorkerState World) :
  truthy_opt (Worker.AMPLIFY_API_URL env) = false ->
  Worker.handleGraphQLProxy engine fetch_upstream request env st
  = (Return
       {| Worker.status := 500; Worker.headers := Worker.json_only;
          Worker.response_body :=
            Worker.JsonBody
              (JObject
                 [ ("error", JString "AMPLIFY_API_URL not configured") ]) |},
     st).
Proof.
  intros Hoff. unfold Worker.handleGraphQLProxy.
  destruct (Worker.AMPLIFY_API_URL env) as [apiUrl |]; [| reflexivity].
  cbn [truthy_opt] in Hoff. now rewrite Hoff.
Qed.

Lemma new_Response_cases (text : string) (status : nat)
  (headers : list (string * string)) :
  if ((status <? 200) || (599 <? status))%nat
  then exists e, Worker.new_Response engine text status headers = Throw e
  else if Worker.is_null_body_status status
  then if (text =? "") && Worker.Response_empty_body_as_null engine
       then Worker.new_Response engine text status headers
            = Return {| Worker.status := status; Worker.headers := headers;
                        Worker.response_body := Worker.NoBody |}
       else exists e, Worker.new_Response engine text status headers = Throw e
  else Worker.new_Response engine text status headers
       = Return {| Worker.status := status; Worker.headers := headers;
                   Worker.response_body := Worker.TextBody text |}.
Proof.
  unfold Worker.new_Response.
  destruct ((status <? 200) || (599 <? status))%nat;
    [eexists; reflexivity |].
  destruct (Worker.is_null_body_status status); [| reflexivity].
  destruct ((text =? "") && Worker.Response_empty_body_as_null engine);
    [reflexivity | eexists; reflexivity].
Qed.

(** The GraphQL proxy always answers.  Without [AMPLIFY_API_URL] it
    answers 500 and sends nothing.  With it, exactly one request goes
    upstream: the body as received, the API key when one is configured,
    the [Authorization] header when the caller sent a non-empty one.
    The upstream status and text come back unchanged when the status is
    one a response with a body may carry (200..599 except 204, 205 and
    304).  A status outside 200..599, and a text that is not empty on
    204, 205 or 304, make the answer the proxy's own 500, as a failed
    transport does; an empty text on 204, 205 or 304 gives that 500 or
    the upstream status without a body, by the engine. *)
Theorem handleGraphQLProxy_forwards (request : Worker.Request)
  (env : Worker.Env) (st : Worker.WorkerState World) :
  let run :=
    Worker.handleGraphQLProxy engine fetch_upstream request env st in
  (exists response, fst run = Return response)
  /\ (truthy_opt (Worker.AMPLIFY_API_URL env) = false ->
      snd run = st
      /\ exists response,
           fst run = Return response /\ Worker.status response = 500)
  /\ (forall apiUrl,
         Worker.AMPLIFY_API_URL env = Some apiUrl -> apiUrl <> "" ->
         let req :=
           {| Worker.url := apiUrl;
              Worker.x_api_key :=
                (if truthy_opt (Worker.AMPLIFY_API_KEY env)
                 then Worker.AMPLIFY_API_KEY env else None);
              Worker.upstream_authorization :=
                (if truthy_opt (Worker.authorization request)
                 then Worker.authorization request else None);
              Worker.upstream_body := Worker.Raw (Worker.body request) |} in
         Worker.sent (snd run) = (Worker.sent st ++ [req])%list
         /\ (forall reply text,
                fst (fetch_upstream req (Worker.upstream st)) = Return reply ->
                Worker.reply_text reply = Return text ->
                let own_500 :=
                  exists response,
                    fst run = Return response
                    /\ Worker.status response = 500
                    /\ Worker.headers response = Worker.json_only in
                let passed response_body :=
                  fst run
                  = Return {| Worker.status := Worker.reply_status reply;
                              Worker.headers := Worker.cors;
                              Worker.response_body := response_body |} in
                if ((Worker.reply_status reply <? 200)
                    || (599 <? Worker.reply_status reply))%nat
                then own_500
                else if Worker.is_null_body_status (Worker.reply_status reply)
                then if (text =? "")
                        && Worker.Response_empty_body_as_null engine
                     then passed Worker.NoBody
                     else own_500
                else passed (Worker.TextBody text))
         /\ (forall e,
                fst (fetch_upstream req (Worker.upstream st)) = Throw e ->
                fst run
                = Return
                    {| Worker.status := 500;
                       Worker.headers := Worker.json_only;
                       Worker.response_body :=
                         Worker.JsonBody
                           (JObject
                              [ ("error", JString "GraphQL proxy error");
                                ("message", JString (describe e)) ]) |})).
Proof.
  intros run. split; [| split].
  - subst run. destruct (truthy_opt (Worker.AMPLIFY_API_URL env)) eqn:Hcfg.
    + destruct (Worker.AMPLIFY_API_URL env) as [apiUrl |] eqn:Hurl;
        [| discriminate].
      cbn [truthy_opt] in Hcfg. apply truthy_true_iff in Hcfg.
      rewrite (handleGraphQLProxy_configured request env st apiUrl Hurl Hcfg).
      cbn zeta.
      destruct (fst (fetch_upstream _ (Worker.upstream st))) as [reply | e];
        [| eexists; reflexivity].
      destruct (Worker.reply_text reply) as [text | e];
        [| eexists; reflexivity].
      destruct (Worker.new_Response engine text _ Worker.cors);
        eexists; reflexivity.
    + rewrite (handleGraphQLProxy_not_configured request env st Hcfg).
      eexists; reflexivity.
  - intros Hoff. subst run.
    rewrite (handleGraphQLProxy_not_configured request env st Hoff).
    split; [reflexivity | eexists; split; reflexivity].
  - intros apiUrl Hurl Hne req. subst run.
    rewrite (handleGraphQLProxy_configured request env st apiUrl Hurl Hne).
    cbn zeta. fold req. split; [| split].
    + destruct (fst (fetch_upstream req (Worker.upstream st)))
        as [reply | e]; [| reflexivity].
      destruct (Worker.reply_text reply) as [text | e]; [| reflexivity].
      destruct (Worker.new_Response engine text _ Worker.cors); reflexivity.
    + intros reply text Hreply Htext. rewrite Hreply, Htext.
      pose proof (new_Response_cases text (Worker.reply_status reply)
                    Worker.cors) as Hnew.
      cbn zeta.
      destruct ((Worker.reply_status reply <? 200)
                || (599 <? Worker.reply_status reply))%nat.
      * destruct Hnew as (e & ->). eexists. repeat split; reflexivity.
      * destruct (Worker.is_null_body_status (Worker.reply_status reply)).
        -- destruct ((text =? "")
                     && Worker.Response_empty_body_as_null engine).
           ++ now rewrite Hnew.
           ++ destruct Hnew as (e & ->). eexists. repeat split; reflexivity.
        -- now rewrite Hnew.
    + intros e He. now rewrite He.
Qed.

End WorkerProperties.

Section WorkerTools.
Context {World : Type}.
Variable engine : Worker.Engine.
Variable fetch_upstream :
  Worker.UpstreamRequest -> World -> Completion Worker.Reply * World.

Lemma worker_query_not_configured (query : option Json) (variables : Json)
  (env : Worker.Env) (st : Worker.WorkerState World) :
  truthy_opt (Worker.AMPLIFY_API_URL env) = false ->
  Worker.executeGraphQLQuery engine fetch_upstream query variables env st
  = (Return
       (JObject
          [ ("content",
             Worker.text_content
               "Error: AMPLIFY_API_URL environment variable is not configured");
            ("isError", JBool true) ]),
     st).
Proof.
  intros Hoff. unfold Worker.executeGraphQLQuery.
  destruct (Worker.AMPLIFY_API_URL env) as [apiUrl |]; [| reflexivity].
  cbn [truthy_opt] in Hoff. now rewrite Hoff.
Qed.

Lemma worker_query_configured (query : option Json) (variables : Json)
  (env : Worker.Env) (st : Worker.WorkerState World) (apiUrl : string) :
  Worker.AMPLIFY_API_URL env = Some apiUrl -> apiUrl <> "" ->
  let req :=
    {| Worker.url := apiUrl;
       Worker.x_api_key :=
         (if truthy_opt (Worker.AMPLIFY_API_KEY env)
          then Worker.AMPLIFY_API_KEY env else None);
       Worker.upstream_authorization := None;
       Worker.upstream_body :=
         Worker.Serialized
           (JObject (Worker.object_of [ ("query", query);
                                        ("variables", Some variables) ])) |} in
  let st' :=
    {| Worker.upstream := snd (fetch_upstream req (Worker.upstream st));
       Worker.sent := (Worker.sent st ++ [req])%list |} in
  let failed message :=
    JObject [ ("content", Worker.text_content ("Error: " ++ message));
              ("isError", JBool true) ] in
  Worker.executeGraphQLQuery engine fetch_upstream query variables env st
  = match fst (fetch_upstream req (Worker.upstream st)) with
    | Throw e => (Return (failed (describe e)), st')
    | Return reply =>
        if negb (Worker.reply_ok reply) then
          (Return (failed ("HTTP error! status: "
                             ++ show_nat (Worker.reply_status reply))), st')
        else
          match Worker.reply_json engine reply with
          | Throw e => (Return (failed (describe e)), st')
          | Return result =>
              (Return
                 (JObject
                    [ ("content",
                       Worker.text_content
                         (Worker.JSON_stringify_pretty engine result)) ]),
               st')
          end
    end.
Proof.
  intros Hurl Hne req st' failed. unfold Worker.executeGraphQLQuery.
  rewrite Hurl, (proj2 (truthy_true_iff apiUrl) Hne). fold req.
  unfold Worker.wcatch, Worker.wbind. rewrite send_step. fold st'.
  destruct (fst (fetch_upstream req (Worker.upstream st))) as [reply | e];
    [| reflexivity].
  destruct (negb (Worker.reply_ok reply)); [reflexivity |].
  destruct (Worker.reply_json engine reply) as [result | e];
    cbn [Worker.wsettle]; reflexivity.
Qed.

(** The query helper of the worker never throws: it returns a tool
    result with one text.  The result is marked [isError] unless the
    endpoint is configured, answered with a status in 200..299 and a
    body that parses; without [AMPLIFY_API_URL] nothing is sent, and
    otherwise exactly one request is, carrying the API key when there is
    one and never an [Authorization] header. *)
Theorem worker_query_never_throws (query : option Json) (variables : Json)
  (env : Worker.Env) (st : Worker.WorkerState World) :
  let run :=
    Worker.executeGraphQLQuery engine fetch_upstream query variables env st in
  (exists text,
      fst run = Return (JObject [ ("content", Worker.text_content text) ])
      \/ fst run
         = Return (JObject [ ("content", Worker.text_content text);
                             ("isError", JBool true) ]))
  /\ (truthy_opt (Worker.AMPLIFY_API_URL env) = false -> snd run = st)
  /\ (forall apiUrl,
         Worker.AMPLIFY_API_URL env = Some apiUrl -> apiUrl <> "" ->
         let req :=
           {| Worker.url := apiUrl;
              Worker.x_api_key :=
                (if truthy_opt (Worker.AMPLIFY_API_KEY env)
                 then Worker.AMPLIFY_API_KEY env else None);
              Worker.upstream_authorization := None;
              Worker.upstream_body :=
                Worker.Serialized
                  (JObject
                     (Worker.object_of [ ("query", query);
                                         ("variables", Some variables) ])) |} in
         Worker.sent (snd run) = (Worker.sent st ++ [req])%list
         /\ ((exists result, fst run = Return result
                             /\ Worker.get_prop result "isError" = None)
             <-> exists reply text v,
                   fst (fetch_upstream req (Worker.upstream st)) = Return reply
                   /\ Worker.reply_ok reply = true
                   /\ Worker.reply_text reply = Return text
                   /\ JsonParser.parse text = Some v)).
Proof.
  intros run. subst run.
  destruct (truthy_opt (Worker.AMPLIFY_API_URL env)) eqn:Hcfg.
  - destruct (Worker.AMPLIFY_API_URL env) as [apiUrl |] eqn:Hurl;
      [| discriminate].
    cbn [truthy_opt] in Hcfg. apply truthy_true_iff in Hcfg.
    rewrite (worker_query_configured query variables env st apiUrl
               Hurl Hcfg).
    cbn zeta. set (req := {| Worker.url := apiUrl |}).
    split; [| split; [discriminate |]].
    + destruct (fst (fetch_upstream req (Worker.upstream st)))
        as [reply | e]; [| eexists; right; reflexivity].
      destruct (negb (Worker.reply_ok reply));
        [eexists; right; reflexivity |].
      destruct (Worker.reply_json engine reply);
        eexists; [left | right]; reflexivity.
    + intros apiUrl' Hurl'. injection Hurl' as <-. intros _. cbn zeta.
      fold req. split.
      * destruct (fst (fetch_upstream req (Worker.upstream st)))
          as [reply | e]; [| reflexivity].
        destruct (negb (Worker.reply_ok reply)); [reflexivity |].
        destruct (Worker.reply_json engine reply); reflexivity.
      * unfold Worker.reply_json.
        destruct (fst (fetch_upstream req (Worker.upstream st)))
          as [reply | e].
        -- destruct (Worker.reply_ok reply) eqn:Hok; cbn [negb].
           ++ destruct (Worker.reply_text reply) as [text | e] eqn:Htext.
              ** destruct (JsonParser.parse text) as [v |] eqn:Hparse.
                 --- split; [intros _ | intros _].
                     +++ exists reply, text, v. repeat split; assumption.
                     +++ eexists. split; reflexivity.
                 --- split.
                     +++ intros (result & Hres & Hnone).
                         injection Hres as <-. discriminate.
                     +++ intros (reply' & text' & v & Hr & _ & Ht & Hp).
                         injection Hr as <-. rewrite Htext in Ht.
                         injection Ht as <-. congruence.
              ** split.
                 --- intros (result & Hres & Hnone).
                     injection Hres as <-. discriminate.
                 --- intros (reply' & text' & v & Hr & _ & Ht & _).
                     injection Hr as <-. congruence.
           ++ split.
              ** intros (result & Hres & Hnone).
                 injection Hres as <-. discriminate.
              ** intros (reply' & text' & v & Hr & Hok' & _).
                 injection Hr as <-. congruence.
        -- split.
           ++ intros (result & Hres & Hnone).
              injection Hres as <-. discriminate.
           ++ intros (reply' & text' & v & Hr & _). discriminate.
  - rewrite (worker_query_not_configured query variables env st Hcfg).
    split; [eexists; right; reflexivity | split; [reflexivity |]].
    intros apiUrl Hurl Hne. exfalso. rewrite Hurl in Hcfg.
    cbn [truthy_opt] in Hcfg.
    rewrite (proj2 (truthy_true_iff apiUrl) Hne) in Hcfg. discriminate.
Qed.

End WorkerTools.

Section WorkerProtocol.
Context {World : Type}.
Variable engine : Worker.Engine.
Variable fetch_upstream :
  Worker.UpstreamRequest -> World -> Completion Worker.Reply * World.






End WorkerProtocol.

Section WorkerServer.
Context {World : Type}.
Variable engine : Worker.Engine.
Variable fetch_upstream :
  Worker.UpstreamRequest -> World -> Completion Worker.Reply * World.

Lemma handleMcpRequest_step (mcpRequest : Json) (env : Worker.Env)
  (st : Worker.WorkerState World) :
  mcpRequest <> JNull ->
  Worker.handleMcpRequest engine fetch_upstream mcpRequest env st
  = match Worker.dispatch engine fetch_upstream
            (Worker.get_prop mcpRequest "method")
            (Worker.get_prop mcpRequest "params") env st with
    | (Return result, st') =>
        (Return (Worker.Success result (Worker.get_prop mcpRequest "id")), st')
    | (Throw e, st') =>
        (Return (Worker.Failure (describe e)
                   (Worker.get_prop mcpRequest "id")), st')
    end.
Proof.
  intros Hnull. unfold Worker.handleMcpRequest.
  destruct mcpRequest; try congruence;
    unfold Worker.wcatch, Worker.wbind, Worker.wret;
    match goal with
    | |- context [Worker.dispatch ?e ?f ?m ?p ?env ?st] =>
        destruct (Worker.dispatch e f m p env st) as [[result | err] st']
    end; reflexivity.
Qed.

Lemma handleMcpRequest_replies (mcpRequest : Json) (env : Worker.Env)
  (st : Worker.WorkerState World) :
  mcpRequest <> JNull ->
  exists reply,
    fst (Worker.handleMcpRequest engine fetch_upstream mcpRequest env st)
    = Return reply
    /\ Worker.reply_id reply = Worker.get_prop mcpRequest "id".
Proof.
  intros Hnull. rewrite (handleMcpRequest_step _ _ _ Hnull).
  destruct (Worker.dispatch engine fetch_upstream _ _ env st)
    as [[result | e] st']; eexists; split; reflexivity.
Qed.


Lemma envelope_members (reply : Worker.McpReply) :
  Worker.get_prop (Worker.envelope reply) "jsonrpc" = Some (JString "2.0")
  /\ Worker.get_prop (Worker.envelope reply) "id" = Worker.reply_id reply
  /\ (Worker.get_prop (Worker.envelope reply) "result" = None
      <-> Worker.get_prop (Worker.envelope reply) "error" <> None).
Proof.
  destruct reply as [result [id |] | message [id |]];
    cbn; repeat split; congruence.
Qed.

Lemma mcp_over_http_step (request : Worker.Request) (env : Worker.Env)
  (st : Worker.WorkerState World) :
  Worker.mcp_over_http engine fetch_upstream request env st
  = match JsonParser.parse (Worker.body request) with
    | None =>
        (Throw (Worker.thrown_by_engine engine
                  (Worker.InvalidJson (Worker.body request))), st)
    | Some parsed =>
        match Worker.handleMcpRequest engine fetch_upstream parsed env st with
        | (Return reply, st') =>
            (Return {| Worker.status := 200; Worker.headers := Worker.cors;
                       Worker.response_body :=
                         Worker.JsonBody (Worker.envelope reply) |}, st')
        | (Throw e, st') => (Throw e, st')
        end
    end.
Proof.
  unfold Worker.mcp_over_http, Worker.wbind, Worker.request_json.
  destruct (JsonParser.parse (Worker.body request)) as [parsed |];
    cbn [Worker.wsettle]; unfold Worker.wret, Worker.wthrow; [| reflexivity].
  destruct (Worker.handleMcpRequest engine fetch_upstream parsed env st)
    as [[reply | e] st']; reflexivity.
Qed.

Lemma fetch_mcp_route (request : Worker.Request) (env : Worker.Env)
  (st : Worker.WorkerState World) :
  Worker.method request = "POST" ->
  Worker.pathname request = "/mcp" \/ Worker.pathname request = "/sse" ->
  Worker.fetch engine fetch_upstream request env st
  = match Worker.mcp_over_http engine fetch_upstream request env st with
    | (Throw e, st') => (Return (Worker.internal_error (describe e)), st')
    | done => done
    end.
Proof.
  intros Hmethod Hpath. unfold Worker.fetch. rewrite Hmethod.
  destruct Hpath as [Hpath | Hpath]; rewrite Hpath; reflexivity.
Qed.

(** A POST to [/mcp] or [/sse]: a body that is no JSON, and the body
    [null], are answered 500 [Internal Server Error] with the engine's
    message and nothing is sent upstream; any other body is answered 200
    with a JSON-RPC envelope that has version 2.0, the [id] of the
    request if it has one, and either a result or an error. *)
Theorem fetch_mcp_post (request : Worker.Request) (env : Worker.Env)
  (st : Worker.WorkerState World) :
  Worker.method request = "POST" ->
  Worker.pathname request = "/mcp" \/ Worker.pathname request = "/sse" ->
  let run := Worker.fetch engine fetch_upstream request env st in
  (JsonParser.parse (Worker.body request) = None ->
   run = (Return (Worker.internal_error
                    (Worker.engine_message engine
                       (Worker.InvalidJson (Worker.body request)))), st))
  /\ (JsonParser.parse (Worker.body request) = Some JNull ->
      run = (Return (Worker.internal_error
                       (Worker.engine_message engine
                          (Worker.CannotDestructure "method" "mcpRequest"
                             "null"))), st))
  /\ (forall parsed,
         JsonParser.parse (Worker.body request) = Some parsed ->
         parsed <> JNull ->
         exists reply,
           fst run
           = Return {| Worker.status := 200; Worker.headers := Worker.cors;
                       Worker.response_body :=
                         Worker.JsonBody (Worker.envelope reply) |}
           /\ Worker.get_prop (Worker.envelope reply) "jsonrpc"
              = Some (JString "2.0")
           /\ Worker.get_prop (Worker.envelope reply) "id"
              = Worker.get_prop parsed "id"
           /\ (Worker.get_prop (Worker.envelope reply) "result" = None
               <-> Worker.get_prop (Worker.envelope reply) "error" <> None)).
Proof.
  intros Hmethod Hpath run. subst run.
  rewrite (fetch_mcp_route request env st Hmethod Hpath), mcp_over_http_step.
  split; [| split].
  - intros ->. reflexivity.
  - intros ->. reflexivity.
  - intros parsed -> Hnull.
    destruct (handleMcpRequest_replies parsed env st Hnull)
      as (reply & Hrun & Hid).
    destruct (Worker.handleMcpRequest engine fetch_upstream parsed env st)
      as [[reply' | e] st']; cbn [fst] in Hrun; [| discriminate].
    injection Hrun as ->. exists reply. split; [reflexivity |].
    destruct (envelope_members reply) as (Hv & Hi & Hre).
    split; [exact Hv | split; [congruence | exact Hre]].
Qed.

(** Every request gets a response: the handler never throws.  A
    preflight is answered 200 without a body whatever the path, and
    only a POST to [/api/graphql], [/mcp] or [/sse] can send anything
    upstream. *)
Theorem fetch_always_answers (request : Worker.Request) (env : Worker.Env)
  (st : Worker.WorkerState World) :
  let run := Worker.fetch engine fetch_upstream request env st in
  (exists response, fst run = Return response)
  /\ (Worker.method request = "OPTIONS" ->
      snd run = st
      /\ exists response,
           fst run = Return response /\ Worker.status response = 200
           /\ Worker.response_body response = Worker.NoBody)
  /\ (snd run = st
      \/ (Worker.method request = "POST"
          /\ (Worker.pathname request = "/api/graphql"
              \/ Worker.pathname request = "/mcp"
              \/ Worker.pathname request = "/sse"))).
Proof.
  intros run. subst run. unfold Worker.fetch.
  destruct (String.eqb_spec (Worker.method request) "OPTIONS") as [Hopt | Hopt].
  - split; [eexists; reflexivity | split].
    + intros _. split; [reflexivity |]. eexists. repeat split.
    + left. reflexivity.
  - split; [| split; [intros H; contradiction |]].
    + edestruct (@wcatch_returns World Worker.Response) as (a & Ha & _).
      exists a. exact Ha.
    + match goal with
      | |- snd (Worker.wcatch ?m (fun e => Worker.wret (@?h e)) st) = st \/ _ =>
          destruct (wcatch_returns m h st) as (a & _ & Hsnd)
      end.
      rewrite Hsnd. clear Hsnd a.
      destruct (String.eqb_spec (Worker.pathname request) "/health");
        [left; reflexivity |].
      destruct (String.eqb_spec (Worker.method request) "POST") as [Hpost | Hpost].
      * destruct (String.eqb_spec (Worker.pathname request) "/api/graphql");
          [right; auto |].
        destruct (String.eqb_spec (Worker.pathname request) "/mcp");
          [right; auto |].
        destruct (String.eqb_spec (Worker.pathname request) "/sse");
          [right; auto |].
        cbn [andb]. rewrite Hpost.
        destruct (String.eqb_spec (Worker.pathname request) "/");
          left; reflexivity.
      * rewrite !andb_false_r.
        destruct ((Worker.pathname request =? "/sse")
                  && (Worker.method request =? "GET")); [left; reflexivity |].
        destruct ((Worker.pathname request =? "/")
                  && (Worker.method request =? "GET")
                  && Worker.wants_event_stream request);
          left; reflexivity.
Qed.

End WorkerServer.

(** * Properties of the start-up *)

Lemma parse_args_plain (args : list string) (current : option string)
  (rest : list string) :
  Startup.plain args ->
  Startup.parse_args (args ++ rest) current = Startup.parse_args rest current.
Proof.
  intros Hplain. induction Hplain as [| arg args [Hflag Hhelp] _ IH];
    [reflexivity |].
  cbn [app Startup.parse_args].
  rewrite (proj2 (String.eqb_neq arg "--amplify-outputs") Hflag), Hhelp.
  exact IH.
Qed.

(** The command line: arguments that are no flag are passed over.  The
    argument after [--amplify-outputs] is the path, even when it reads
    like a flag, and the last such pair counts; an [--amplify-outputs]
    at the very end leaves no path at all, whatever came before; a help
    flag met first ends the loop. *)
Theorem parse_args_reads_flags (before after rest : list string)
  (value help : string) (current : option string) :
  Startup.plain before -> Startup.plain after ->
  Startup.is_help help = true ->
  Startup.parse_args before current = Startup.Path current
  /\ Startup.parse_args (before ++ "--amplify-outputs" :: value :: after)
       current
     = Startup.Path (Some value)
  /\ Startup.parse_args (before ++ ["--amplify-outputs"]) current
     = Startup.Path None
  /\ Startup.parse_args (before ++ help :: rest) current = Startup.Help.
Proof.
  intros Hbefore Hafter Hhelp. repeat split.
  - rewrite <- (app_nil_r before) at 1. now rewrite parse_args_plain.
  - rewrite parse_args_plain by assumption. cbn [Startup.parse_args].
    cbn [String.eqb Ascii.eqb Bool.eqb].
    rewrite <- (app_nil_r after). now rewrite parse_args_plain.
  - rewrite parse_args_plain by assumption. reflexivity.
  - rewrite parse_args_plain by assumption. cbn [Startup.parse_args].
    rewrite Hhelp.
    destruct (help =? "--amplify-outputs") eqn:Heq; [| reflexivity].
    apply String.eqb_eq in Heq. subst help. discriminate.
Qed.

Lemma parse_args_reads_flags_witness :
  Startup.plain ["--verbose"; "extra"]
  /\ Startup.plain ["more"]
  /\ Startup.is_help "-h" = true
  /\ Startup.parse_args ["--verbose"; "extra"] (Some "a.json")
     = Startup.Path (Some "a.json")
  /\ Startup.parse_args
       ["--verbose"; "extra"; "--amplify-outputs"; "--help"; "more"]
       (Some "a.json")
     = Startup.Path (Some "--help")
  /\ Startup.parse_args ["--verbose"; "extra"; "--amplify-outputs"]
       (Some "a.json")
     = Startup.Path None
  /\ Startup.parse_args ["--verbose"; "extra"; "-h"; "--amplify-outputs"]
       (Some "a.json")
     = Startup.Help.
Proof.
  assert (Hbefore : Startup.plain ["--verbose"; "extra"])
    by (repeat constructor; discriminate).
  assert (Hafter : Startup.plain ["more"])
    by (repeat constructor; discriminate).
  split; [exact Hbefore |]. split; [exact Hafter |]. split; [reflexivity |].
  exact (parse_args_reads_flags ["--verbose"; "extra"] ["more"]
           ["--amplify-outputs"] "--help" "-h" (Some "a.json")
           Hbefore Hafter eq_refl).
Defined.

Section StartProperties.
Variable engine : Worker.Engine.
Variable host : Startup.Host.

Lemma or_null_never_empty (value : option string) :
  Startup.or_null value <> Some "".
Proof.
  unfold Startup.or_null. destruct value as [s |]; cbn; [| discriminate].
  destruct (truthy s) eqn:Ht; [| discriminate].
  apply truthy_true_iff in Ht. congruence.
Qed.

Lemma launch_from_started (amplifyOutputs : Json)
  (AMPLIFY_USERNAME AMPLIFY_PASSWORD : option string)
  (launch : Startup.Launch) :
  Startup.launch_from engine host amplifyOutputs
    AMPLIFY_USERNAME AMPLIFY_PASSWORD = Startup.Started launch ->
  Startup.optional (Worker.get_prop amplifyOutputs "data") "url"
  = Some (Startup.apiUrl launch)
  /\ Worker.js_truthy engine (Some (Startup.apiUrl launch)) = true
  /\ isAuthInitialized (Startup.config launch)
     = Startup.configure_auth engine host amplifyOutputs
         (Startup.region launch)
  /\ username (Startup.config launch) = Startup.or_null AMPLIFY_USERNAME
  /\ password (Startup.config launch) = Startup.or_null AMPLIFY_PASSWORD.
Proof.
  unfold Startup.launch_from.
  destruct amplifyOutputs; try discriminate; cbn zeta;
    (destruct (Startup.optional _ "url") as [url |]; [| discriminate]);
    (destruct (Worker.js_truthy engine (Some url)) eqn:Htruthy;
     [| discriminate]);
    intros Hlaunch; injection Hlaunch as <-; repeat split; assumption.
Qed.

Lemma launch_from_never_exits_0 (amplifyOutputs : Json)
  (AMPLIFY_USERNAME AMPLIFY_PASSWORD : option string) :
  Startup.launch_from engine host amplifyOutputs
    AMPLIFY_USERNAME AMPLIFY_PASSWORD <> Startup.Exit 0.
Proof.
  unfold Startup.launch_from.
  destruct amplifyOutputs; try discriminate; cbn zeta;
    (destruct (Startup.optional _ "url") as [url |]; [| discriminate]);
    destruct (Worker.js_truthy engine (Some url)); discriminate.
Qed.

Lemma configure_auth_true (amplifyOutputs region : Json) :
  Startup.configure_auth engine host amplifyOutputs region = true ->
  exists section,
    Worker.get_prop amplifyOutputs "auth" = Some section
    /\ Worker.js_truthy engine (Worker.get_prop section "user_pool_id") = true
    /\ Worker.js_truthy engine (Worker.get_prop section "user_pool_client_id")
       = true.
Proof.
  unfold Startup.configure_auth.
  destruct (Worker.get_prop amplifyOutputs "auth") as [section |];
    [| discriminate].
  destruct (Worker.js_truthy engine (Some section)); [| discriminate].
  destruct (Worker.js_truthy engine (Worker.get_prop section "user_pool_id"))
    eqn:Hpool; [| discriminate].
  destruct (Worker.js_truthy engine
              (Worker.get_prop section "user_pool_client_id")) eqn:Hclient;
    [| discriminate].
  intros _. exists section. split; [reflexivity | split; assumption].
Qed.

(** The server gets past start-up only with a path on the command line
    whose file exists, reads and parses, and holds a truthy [data.url].
    The credentials it takes from the environment are then never empty
    texts, and Cognito counts as initialised only when the [auth]
    section has both a user pool id and a client id.  The process exits
    with code 0 only for the help. *)
Theorem start_checks_its_input (args : list string)
  (AMPLIFY_USERNAME AMPLIFY_PASSWORD : option string) :
  let outcome :=
    Startup.start engine host args AMPLIFY_USERNAME AMPLIFY_PASSWORD in
  (outcome = Startup.Exit 0 <-> Startup.parse_args args None = Startup.Help)
  /\ forall launch,
       outcome = Startup.Started launch ->
       (exists path fileContent amplifyOutputs,
           Startup.parse_args args None = Startup.Path (Some path)
           /\ path <> ""
           /\ Startup.existsSync host (Startup.resolve host path) = true
           /\ Startup.readFileSync host (Startup.resolve host path)
              = Return fileContent
           /\ JsonParser.parse fileContent = Some amplifyOutputs
           /\ Startup.optional (Worker.get_prop amplifyOutputs "data") "url"
              = Some (Startup.apiUrl launch)
           /\ Worker.js_truthy engine (Some (Startup.apiUrl launch)) = true
           /\ (isAuthInitialized (Startup.config launch) = true ->
               exists section,
                 Worker.get_prop amplifyOutputs "auth" = Some section
                 /\ Worker.js_truthy engine
                      (Worker.get_prop section "user_pool_id") = true
                 /\ Worker.js_truthy engine
                      (Worker.get_prop section "user_pool_client_id") = true))
       /\ username (Startup.config launch) <> Some ""
       /\ password (Startup.config launch) <> Some "".
Proof.
  intros outcome. subst outcome. unfold Startup.start.
  destruct (Startup.parse_args args None) as [| [path |]];
    [split; [split; reflexivity | discriminate]
    | | split; [split; discriminate | discriminate]].
  destruct (truthy path) eqn:Hpath; cbn [negb];
    [| split; [split; discriminate | discriminate]].
  apply truthy_true_iff in Hpath.
  destruct (Startup.existsSync host (Startup.resolve host path)) eqn:Hex;
    cbn [negb]; [| split; [split; discriminate | discriminate]].
  destruct (Startup.readFileSync host (Startup.resolve host path))
    as [fileContent | e] eqn:Hread;
    [| split; [split; discriminate | discriminate]].
  destruct (JsonParser.parse fileContent) as [amplifyOutputs |] eqn:Hparse;
    [| split; [split; discriminate | discriminate]].
  split.
  - split; [| discriminate].
    intros H. now apply launch_from_never_exits_0 in H.
  - intros launch Hlaunch.
    destruct (launch_from_started _ _ _ _ Hlaunch)
      as (Hurl & Htruthy & Hauth & Huser & Hpass).
    split; [| split].
    + exists path, fileContent, amplifyOutputs.
      repeat split; try assumption.
      rewrite Hauth. apply configure_auth_true.
    + rewrite Huser. apply or_null_never_empty.
    + rewrite Hpass. apply or_null_never_empty.
Qed.

End StartProperties.

(** ** The worker on concrete requests *)


Lemma fetch_mcp_post_witness :
  let request := WorkerExamples.post "/mcp" "null" in
  Worker.method request = "POST"
  /\ Worker.pathname request = "/mcp"
  /\ Worker.fetch WorkerExamples.engine WorkerExamples.scripted request
       WorkerExamples.env (WorkerExamples.idle [])
     = (Return
          (Worker.internal_error
             "Cannot destructure property 'method' of 'mcpRequest' as it is null."),
        WorkerExamples.idle []).
Proof.
  intros request. split; [reflexivity |]. split; [reflexivity |].
  exact (proj1 (proj2 (fetch_mcp_post
                         WorkerExamples.engine WorkerExamples.scripted
                         request WorkerExamples.env (WorkerExamples.idle [])
                         eq_refl (or_introl eq_refl)))
           eq_refl).
Defined.

Lemma handleGraphQLProxy_forwards_witness :
  let request := WorkerExamples.post "/api/graphql" "{ x }" in
  let not_found :=
    {| Worker.reply_status := 404; Worker.reply_text := Return "missing" |} in
  let no_content :=
    {| Worker.reply_status := 204; Worker.reply_text := Return "" |} in
  fst (Worker.handleGraphQLProxy WorkerExamples.engine WorkerExamples.scripted
         request WorkerExamples.env (WorkerExamples.idle [Return not_found]))
  = Return {| Worker.status := 404; Worker.headers := Worker.cors;
              Worker.response_body := Worker.TextBody "missing" |}
  /\ exists response,
       fst (Worker.handleGraphQLProxy WorkerExamples.engine
              WorkerExamples.scripted request WorkerExamples.env
              (WorkerExamples.idle [Return no_content]))
       = Return response
       /\ Worker.status response = 500
       /\ Worker.headers response = Worker.json_only.
Proof.
  intros request not_found no_content. split.
  - exact (proj1 (proj2 (proj2 (proj2 (handleGraphQLProxy_forwards
             WorkerExamples.engine WorkerExamples.scripted request
             WorkerExamples.env (WorkerExamples.idle [Return not_found])))
             "https://api.example/graphql" eq_refl ltac:(discriminate)))
             not_found "missing" eq_refl eq_refl).
  - exact (proj1 (proj2 (proj2 (proj2 (handleGraphQLProxy_forwards
             WorkerExamples.engine WorkerExamples.scripted request
             WorkerExamples.env (WorkerExamples.idle [Return no_content])))
             "https://api.example/graphql" eq_refl ltac:(discriminate)))
             no_content "" eq_refl eq_refl).
Defined.

(** * Further properties of the refresh loop and the session *)

Section Livelock.
Context {World User : Type}.
Variable rt : Runtime World User.
Variable cfg : Config.

(** When the endpoint answers 401 to every request and the identity
    provider renews the session every time it is asked, a call of the
    executor is never done, whatever number of steps it is given. *)
Theorem executeGraphQLQuery_never_settles (query : string)
  (variables : Json) :
  isAuthInitialized cfg = true ->
  (forall auth w, exists response,
      fst (fetch rt auth query variables w) = Return response
      /\ status response = 401) ->
  (forall w, exists token, fst (Auth_currentSession rt w) = Return token) ->
  forall fuel st,
    fst (executeGraphQLQuery rt cfg fuel query variables st) = Pending
    /\ fst (handleAuthRefresh rt cfg fuel query variables st) = Pending.
Proof.
  intros Hinit Hfetch Hsession fuel.
  induction fuel as [| fuel IH]; intros st; [split; reflexivity |].
  split.
  - rewrite executeGraphQLQuery_step. cbn zeta.
    destruct (Hfetch (authorization_header (idToken (session st))) (world st))
      as (response & -> & ->).
    cbn [Nat.eqb]. apply IH.
  - rewrite handleAuthRefresh_step. cbn zeta. rewrite Hinit.
    unfold try_catch. rewrite refresh_session_step. cbn zeta.
    destruct (Hsession (world (after st EvRefresh (world st))))
      as (t1 & ->).
    match goal with
    | |- context [fst (Auth_currentSession rt (world ?s))] =>
        destruct (Hsession (world s)) as (t2 & ->)
    end.
    apply IH.
Qed.

(** After a login that failed half-way (the sign-in went through, the
    session call did not), [get-current-user] no longer answers "not
    logged in": it asks the identity provider for the user. *)
Theorem get_current_user_after_half_login (u p : string)
  (st : State World User) (user : User) (w1 : World) (e : Thrown) :
  isAuthInitialized cfg = true ->
  Auth_signIn rt u p (world st) = (Return user, w1) ->
  fst (Auth_currentSession rt w1) = Throw e ->
  let after_login := snd (login rt cfg u p st) in
  fst (login rt cfg u p st)
  = Resolved (text_result ("Login failed: " ++ describe e))
  /\ trace (snd (get_current_user rt after_login))
     = (trace after_login ++ [EvCurrentUserInfo])%list.
Proof.
  intros Hinit Hsign Hsession.
  rewrite login_step, sign_in_step, Hinit. cbn zeta. cbn [negb].
  rewrite Hsign. cbn [fst snd world after]. rewrite Hsession.
  cbn [fst snd]. split; [reflexivity |].
  unfold get_current_user, bind, read, try_catch, call, ret.
  cbn [session with_session currentUser set_currentUser].
  destruct (Auth_currentUserInfo rt _) as [[info | e'] w]; reflexivity.
Qed.

End Livelock.

Lemma executeGraphQLQuery_never_settles_witness :
  isAuthInitialized Examples.cognito = true
  /\ fst (executeGraphQLQuery Examples.always_401 Examples.cognito 7 "q"
            (JObject []) (Examples.start Examples.signed_out tt))
     = Pending.
Proof.
  split; [reflexivity |].
  refine (proj1 (executeGraphQLQuery_never_settles
                   Examples.always_401 Examples.cognito "q" (JObject [])
                   eq_refl _ _ 7 (Examples.start Examples.signed_out tt))).
  - intros auth w. exists Examples.unauthorized. split; reflexivity.
  - intros w. exists "token". reflexivity.
Defined.

Lemma get_current_user_after_half_login_witness :
  let st :=
    Examples.start Examples.signed_out
      {| Examples.fetches := []; Examples.sessions := [];
         Examples.signIns := [ Return "bob" ] |} in
  let after_login :=
    snd (login Examples.scripted Examples.cognito "bob" "pw" st) in
  fst (login Examples.scripted Examples.cognito "bob" "pw" st)
  = Resolved (text_result "Login failed: No current user")
  /\ trace (snd (get_current_user Examples.scripted after_login))
     = [EvSignIn "bob" "pw"; EvCurrentSession; EvCurrentUserInfo].
Proof.
  intros st after_login.
  exact (get_current_user_after_half_login
           Examples.scripted Examples.cognito "bob" "pw" st "bob" _
           (NonError "No current user") eq_refl eq_refl eq_refl).
Defined.

(** * The two copies of the worker *)

Lemma Json_null_dec (v : Json) : {v = JNull} + {v <> JNull}.
Proof.
  destruct v; (left; reflexivity) || (right; discriminate).
Qed.

Section WorkerCopies.
Context {World : Type}.
Variable engine : Worker.Engine.
Variable fetch_upstream :
  Worker.UpstreamRequest -> World -> Completion Worker.Reply * World.

Lemma earlier_handleMcpRequest_step (mcpRequest : Json) (env : Worker.Env)
  (st : Worker.WorkerState World) :
  mcpRequest <> JNull ->
  EarlierWorker.handleMcpRequest engine fetch_upstream mcpRequest env st
  = Worker.dispatch engine fetch_upstream
      (Worker.get_prop mcpRequest "method")
      (Worker.get_prop mcpRequest "params") env st.
Proof.
  intros Hnull. destruct mcpRequest; congruence || reflexivity.
Qed.

(** The current [handleMcpRequest] is the earlier one inside an
    envelope: it sends what the earlier one sends; where the earlier one
    returns a result it returns that result with the [id] of the
    request, and where the earlier one throws it returns the failure
    with the message of what was thrown.  On [null] both throw. *)
Theorem handleMcpRequest_wraps_earlier (mcpRequest : Json)
  (env : Worker.Env) (st : Worker.WorkerState World) :
  let earlier :=
    EarlierWorker.handleMcpRequest engine fetch_upstream mcpRequest env st in
  let current :=
    Worker.handleMcpRequest engine fetch_upstream mcpRequest env st in
  let id := Worker.get_prop mcpRequest "id" in
  snd current = snd earlier
  /\ (mcpRequest = JNull ->
      exists e, fst earlier = Throw e /\ fst current = Throw e)
  /\ (mcpRequest <> JNull ->
      fst current
      = Return match fst earlier with
               | Return result => Worker.Success result id
               | Throw e => Worker.Failure (describe e) id
               end).
Proof.
  intros earlier current id. subst earlier current id.
  destruct (Json_null_dec mcpRequest) as [-> | Hnull].
  - split; [reflexivity | split; [| congruence]].
    intros _. eexists. split; reflexivity.
  - rewrite (handleMcpRequest_step engine fetch_upstream _ env st Hnull).
    rewrite (earlier_handleMcpRequest_step _ env st Hnull).
    destruct (Worker.dispatch engine fetch_upstream _ _ env st)
      as [[result | e] st'];
      (split; [reflexivity | split; [congruence | reflexivity]]).
Qed.

(** A POST to [/mcp] in the two copies: both send the same upstream.
    Where the current copy answers 200 with a success envelope, the
    earlier one answers 200 with the bare result; where the current one
    answers 200 with an error envelope, the earlier one answers 500
    [Internal Server Error] with the same message.  On a body that is
    no JSON, or [null], the two answer alike. *)
Theorem earlier_fetch_mcp_post (request : Worker.Request) (env : Worker.Env)
  (st : Worker.WorkerState World) :
  Worker.method request = "POST" ->
  Worker.pathname request = "/mcp" ->
  let earlier := EarlierWorker.fetch engine fetch_upstream request env st in
  let current := Worker.fetch engine fetch_upstream request env st in
  snd earlier = snd current
  /\ (forall parsed,
         JsonParser.parse (Worker.body request) = Some parsed ->
         parsed <> JNull ->
         exists reply,
           fst current
           = Return {| Worker.status := 200; Worker.headers := Worker.cors;
                       Worker.response_body :=
                         Worker.JsonBody (Worker.envelope reply) |}
           /\ fst earlier
              = Return match reply with
                       | Worker.Success result _ =>
                           {| Worker.status := 200;
                              Worker.headers := Worker.cors;
                              Worker.response_body := Worker.JsonBody result |}
                       | Worker.Failure message _ =>
                           Worker.internal_error message
                       end)
  /\ (JsonParser.parse (Worker.body request) = None
      \/ JsonParser.parse (Worker.body request) = Some JNull ->
      fst earlier = fst current).
Proof.
  intros Hmethod Hpath earlier current. subst earlier current.
  rewrite (fetch_mcp_route engine fetch_upstream request env st Hmethod
             (or_introl Hpath)).
  rewrite mcp_over_http_step.
  unfold EarlierWorker.fetch. rewrite Hmethod, Hpath.
  cbn [String.eqb Ascii.eqb Bool.eqb andb].
  unfold Worker.wcatch, Worker.wbind, Worker.request_json.
  destruct (JsonParser.parse (Worker.body request)) as [parsed |] eqn:Hparse;
    cbn [Worker.wsettle]; unfold Worker.wret, Worker.wthrow.
  - destruct (Json_null_dec parsed) as [-> | Hnull].
    + split; [reflexivity | split].
      * intros parsed [= <-] Hne. congruence.
      * intros _. reflexivity.
    + rewrite (handleMcpRequest_step engine fetch_upstream _ env st Hnull).
      rewrite (earlier_handleMcpRequest_step _ env st Hnull).
      destruct (Worker.dispatch engine fetch_upstream _ _ env st)
        as [[result | e] st1];
        (split; [reflexivity | split]);
        try (intros p [= <-] _; eexists; split; reflexivity);
        intros [Hbad | Hbad]; congruence.
  - split; [reflexivity | split].
    + intros parsed Hbad. discriminate.
    + intros _. reflexivity.
Qed.

(** A GET on the current worker sends nothing upstream and is answered
    200 or 400: 400 exactly on [/sse] without [text/event-stream] among
    the accepted types, and an event stream exactly on [/sse] or [/]
    with it. *)
Theorem fetch_event_stream_routes (request : Worker.Request)
  (env : Worker.Env) (st : Worker.WorkerState World) :
  Worker.method request = "GET" ->
  let run := Worker.fetch engine fetch_upstream request env st in
  snd run = st
  /\ exists response,
       fst run = Return response
       /\ (Worker.status response = 200 \/ Worker.status response = 400)
       /\ (Worker.status response = 400
           <-> Worker.pathname request = "/sse"
               /\ Worker.wants_event_stream request = false)
       /\ ((exists messages,
               Worker.response_body response = Worker.EventStream messages)
           <-> (Worker.pathname request = "/sse"
                \/ Worker.pathname request = "/")
               /\ Worker.wants_event_stream request = true).
Proof.
  intros Hmethod run. subst run. unfold Worker.fetch. rewrite Hmethod.
  cbn [String.eqb Ascii.eqb Bool.eqb andb].
  rewrite !andb_false_r, !andb_true_r. unfold Worker.wcatch, Worker.wret.
  unfold Worker.handleSSEConnection.
  destruct (String.eqb_spec (Worker.pathname request) "/health") as [Hh | Hh];
    [| destruct (String.eqb_spec (Worker.pathname request) "/sse")
         as [Hs | Hs];
       [| destruct (String.eqb_spec (Worker.pathname request) "/")
            as [Hr | Hr] ] ];
    cbn [andb];
    destruct (Worker.wants_event_stream request) eqn:Hw; cbn [negb];
    (split; [reflexivity |]); eexists; (split; [reflexivity |]);
    cbn [Worker.status Worker.response_body Worker.default_response];
    repeat match goal with
           | |- _ /\ _ => split
           | |- _ <-> _ => split; intro
           | H : _ /\ _ |- _ => destruct H
           | H : exists _, _ |- _ => destruct H
           | H : _ \/ _ |- _ => destruct H
           end;
    try congruence; try lia; auto;
    try (eexists; reflexivity).
Qed.

End WorkerCopies.

Lemma earlier_fetch_mcp_post_witness :
  let request := WorkerExamples.post "/mcp" "{}" in
  let earlier :=
    EarlierWorker.fetch WorkerExamples.engine WorkerExamples.scripted request
      WorkerExamples.env (WorkerExamples.idle []) in
  let current :=
    Worker.fetch WorkerExamples.engine WorkerExamples.scripted request
      WorkerExamples.env (WorkerExamples.idle []) in
  Worker.method request = "POST"
  /\ Worker.pathname request = "/mcp"
  /\ fst earlier = Return (Worker.internal_error "Unknown method: undefined")
  /\ exists reply,
       fst current
       = Return {| Worker.status := 200; Worker.headers := Worker.cors;
                   Worker.response_body :=
                     Worker.JsonBody (Worker.envelope reply) |}
       /\ fst earlier
          = Return match reply with
                   | Worker.Success result _ =>
                       {| Worker.status := 200;
                          Worker.headers := Worker.cors;
                          Worker.response_body := Worker.JsonBody result |}
                   | Worker.Failure message _ =>
                       Worker.internal_error message
                   end.
Proof.
  intros request earlier current.
  split; [reflexivity |]. split; [reflexivity |]. split; [reflexivity |].
  exact (proj1 (proj2 (earlier_fetch_mcp_post
                         WorkerExamples.engine WorkerExamples.scripted
                         request WorkerExamples.env
                         (WorkerExamples.idle []) eq_refl eq_refl))
           (JObject []) eq_refl ltac:(discriminate)).
Defined.

Lemma fetch_event_stream_routes_witness :
  let request :=
    {| Worker.method := "GET"; Worker.pathname := "/sse";
       Worker.accept := Some "application/json";
       Worker.authorization := None; Worker.body := "" |} in
  Worker.method request = "GET"
  /\ snd (Worker.fetch WorkerExamples.engine WorkerExamples.scripted request
            WorkerExamples.env (WorkerExamples.idle []))
     = WorkerExamples.idle [].
Proof.
  intros request. split; [reflexivity |].
  exact (proj1 (fetch_event_stream_routes
                  WorkerExamples.engine WorkerExamples.scripted request
                  WorkerExamples.env (WorkerExamples.idle []) eq_refl)).
Defined.
